(** * fairsea: trajectory similarity and clustering engine

    A shallow embedding of the voyage comparison core of the fairsea
    analysis scripts:

    - [compress_and_compare_voyages.py]: [compute_compressed_voyage],
      [compress_voyages], [proximity_parallel], [calc_proximity_matrix];
    - [advanced/cluster_predict.py]: [calc_extra_distance],
      [expand_distance_matrix], [predict_single_voyage], [predict_voyages],
      [make_binary_class] and the evaluation script at its end;
    - [advanced/prediction_validation.py]: [do_k_fold_validation];
    - [settings.py] and [main_pipeline.py]: the validation of [Settings] and
      the order of the stages of [run_pipeline].

    Python integers are [Z], Python exceptions are the [Err] results of a
    small error monad, numpy arrays that other objects can alias live in an
    explicit store.  The third-party routines ([dtw], [rdp], [DBSCAN],
    [confusion_matrix]) are not part of the repository: [dtw] is a parameter
    of the development, the others are modelled from the specification. *)

From Stdlib Require Import ZArith.
From Stdlib Require OrderedTypeEx.
From Equations Require Import Equations.
From stdpp Require Import base numbers list strings gmap sorting.

(** ** Python exceptions and the error monad *)

Inductive exn : Type :=
| OverflowError
| IndexError
| TypeError
| ValueError
| KeyError
| AttributeError
| ValidationError.

Inductive result (A : Type) : Type :=
| Ok (a : A)
| Err (e : exn).
Arguments Ok {A} a.
Arguments Err {A} e.

Definition rbind {A B} (r : result A) (k : A → result B) : result B :=
  match r with
  | Ok a => k a
  | Err e => Err e
  end.

Global Instance result_ret : MRet result := λ A a, Ok a.
Global Instance result_bind : MBind result := λ A B k r, rbind r k.

(** [for x in xs: ...] where the body may raise: the first exception stops
    the loop. *)
Fixpoint rmapM {A B} (f : A → result B) (xs : list A) : result (list B) :=
  match xs with
  | [] => Ok []
  | x :: xs' => y ← f x ; ys ← rmapM f xs' ; Ok (y :: ys)
  end.

Fixpoint rfoldM {A S} (f : S → A → result S) (s : S) (xs : list A) : result S :=
  match xs with
  | [] => Ok s
  | x :: xs' => s' ← f s x ; rfoldM f s' xs'
  end.

Definition is_ok {A} (r : result A) : Prop := ∃ a, r = Ok a.

(** ** Python's [int(x / 2)]

    [/] on two Python integers is true division: the exact quotient is
    rounded once to the nearest binary64 value, ties to even, and
    [OverflowError] is raised when the result is out of the binary64 range.
    Halving only changes the exponent, so the float is half of the integer
    rounded to 53 significant bits.  [int] then truncates toward zero. *)
Module Binary64.
Local Open Scope Z_scope.

Definition prec : Z := 53.

(** Round-to-nearest, ties-to-even, of a natural number to [prec]
    significant bits (unbounded exponent). *)
Definition round_nearest_even (m : Z) : Z :=
  if m <? 2 ^ prec then m
  else
    let e := Z.log2 m - (prec - 1) in
    let q := m / 2 ^ e in
    let r := m mod 2 ^ e in
    let half := 2 ^ (e - 1) in
    let q' := if r <? half then q
              else if half <? r then q + 1
              else if Z.even q then q else q + 1 in
    q' * 2 ^ e.

(** [int(x / 2)] for a Python integer [x]. *)
Definition int_truediv2 (x : Z) : result Z :=
  let r := round_nearest_even (Z.abs x) in
  if 2 ^ 1025 <=? r then Err OverflowError
  else Ok (Z.sgn x * (r / 2)).

End Binary64.

(** ** The work-item index of [calc_proximity_matrix]

    [number_combinations = int(n_voyages * (n_voyages - 1) / 2)] and, inside
    the two loops,
    [flat_index = n_voyages * i - int(i * (i + 1) / 2) + j - i - 1]. *)
Module Triangular.
Local Open Scope Z_scope.
Import Binary64.

Definition number_combinations (n_voyages : Z) : result Z :=
  int_truediv2 (n_voyages * (n_voyages - 1)).

Definition flat_index (n_voyages i j : Z) : result Z :=
  h ← int_truediv2 (i * (i + 1)) ;
  Ok (n_voyages * i - h + j - i - 1).

(** The index of the first pair of row [i] when the halving is exact. *)
Definition row_start (n i : Z) : Z := n * i - i * (i + 1) / 2.

End Triangular.

(** ** Python dictionaries

    A [dict] keeps its keys unique and in insertion order, and that order
    fixes the row and column indices of the distance matrix: an association
    list. *)
Section pydict.
Context {K V : Type} `{EqDecision K}.

Definition dict_keys (d : list (K * V)) : list K := d.*1.
Definition dict_values (d : list (K * V)) : list V := d.*2.

(** [d[k]] *)
Fixpoint dict_get (d : list (K * V)) (k : K) : result V :=
  match d with
  | [] => Err KeyError
  | (k', v) :: d' => if decide (k' = k) then Ok v else dict_get d' k
  end.

(** [d[k] = v]: an existing key keeps its position. *)
Fixpoint dict_set (d : list (K * V)) (k : K) (v : V) : list (K * V) :=
  match d with
  | [] => [(k, v)]
  | (k', v') :: d' =>
      if decide (k' = k) then (k', v) :: d' else (k', v') :: dict_set d' k v
  end.

(** [d.update(e)] *)
Definition dict_update (d e : list (K * V)) : list (K * V) :=
  foldl (λ acc kv, dict_set acc kv.1 kv.2) d e.

(** [{k: v for k, v in items}] *)
Definition dict_of_items (items : list (K * V)) : list (K * V) :=
  dict_update [] items.
End pydict.

(** ** numpy arrays of float64

    [D] stands for the float64 values; [zero] is [0.0] and [add] the
    addition.  One- and two-dimensional arrays are all the scripts use; a
    two-dimensional array carries its number of columns, so that the shapes
    [(0, 0)] and [(1, 0)] differ as they do in numpy. *)
Section numpy.
Context {D : Type} (zero : D) (add : D → D → D).

Inductive ndarray : Type :=
| Arr1 (xs : list D)
| Arr2 (ncols : nat) (rows : list (list D)).

(** What numpy guarantees of a two-dimensional array. *)
Definition wf_ndarray (a : ndarray) : Prop :=
  match a with
  | Arr1 _ => True
  | Arr2 c rows => Forall (λ r, length r = c) rows
  end.

Definition shape (a : ndarray) : list nat :=
  match a with
  | Arr1 xs => [length xs]
  | Arr2 c rows => [length rows; c]
  end.

(** [a[i, j]] for indices that are not negative. *)
Definition get2 (a : ndarray) (i j : nat) : option D :=
  match a with
  | Arr1 _ => None
  | Arr2 _ rows => r ← rows !! i ; r !! j
  end.

(** [np.zeros((r, c))] *)
Definition np_zeros2 (r c : nat) : ndarray := Arr2 c (replicate r (replicate c zero)).

(** [a[i, j] = v] for indices that are not negative. *)
Definition np_setitem2 (a : ndarray) (i j : nat) (v : D) : result ndarray :=
  match a with
  | Arr1 _ => Err IndexError
  | Arr2 c rows =>
      match rows !! i with
      | Some r =>
          if decide (j < c)%nat then Ok (Arr2 c (<[i := <[j := v]> r]> rows))
          else Err IndexError
      | None => Err IndexError
      end
  end.

(** [a[k] = v] on a one-dimensional array ([A] is the element type):
    a negative index counts from the end. *)
Definition np_setitem1 {A} (xs : list A) (k : Z) (v : A) : result (list A) :=
  let n := Z.of_nat (length xs) in
  if bool_decide (0 ≤ k < n)%Z then Ok (<[Z.to_nat k := v]> xs)
  else if bool_decide (- n ≤ k < 0)%Z then Ok (<[Z.to_nat (n + k) := v]> xs)
  else Err IndexError.

(** [a.T] *)
Definition np_transpose (a : ndarray) : ndarray :=
  match a with
  | Arr1 xs => Arr1 xs
  | Arr2 c rows =>
      Arr2 (length rows) ((λ j, (λ r, default zero (r !! j)) <$> rows) <$> seq 0 c)
  end.

(** [a + b] for arrays of one shape (the only case the scripts meet).
    [distances += distances.T] adds the transpose as it was before the
    addition (numpy copies an operand that overlaps the result). *)
Definition np_add (a b : ndarray) : result ndarray :=
  if decide (shape a = shape b) then
    match a, b with
    | Arr1 xs, Arr1 ys => Ok (Arr1 (zip_with add xs ys))
    | Arr2 c rs, Arr2 _ rs' => Ok (Arr2 c (zip_with (zip_with add) rs rs'))
    | _, _ => Err ValueError
    end
  else Err ValueError.

(** [np.expand_dims(a, axis=0)] and [np.expand_dims(a, axis=-1)] of a
    one-dimensional array.  Of a two-dimensional array numpy makes a
    three-dimensional one, which the [np.append] that follows in
    [expand_distance_matrix] rejects with [ValueError]; the model has no
    such arrays and raises the error here. *)
Definition np_expand_dims_first (a : ndarray) : result ndarray :=
  match a with
  | Arr1 xs => Ok (Arr2 (length xs) [xs])
  | Arr2 _ _ => Err ValueError
  end.

Definition np_expand_dims_last (a : ndarray) : result ndarray :=
  match a with
  | Arr1 xs => Ok (Arr2 1 ((λ x, [x]) <$> xs))
  | Arr2 _ _ => Err ValueError
  end.

(** [np.append(a, [0])] of a one-dimensional array (no axis: both are
    flattened). *)
Definition np_append_zero (a : ndarray) : ndarray :=
  match a with
  | Arr1 xs => Arr1 (xs ++ [zero])
  | Arr2 _ rows => Arr1 (concat rows ++ [zero])
  end.

(** [np.append(a, b, axis=0)]: the arrays need the same number of
    dimensions and the same number of columns. *)
Definition np_append_axis0 (a b : ndarray) : result ndarray :=
  match a, b with
  | Arr2 c rs, Arr2 c' rs' =>
      if decide (c = c') then Ok (Arr2 c (rs ++ rs')) else Err ValueError
  | Arr1 xs, Arr1 ys => Ok (Arr1 (xs ++ ys))
  | _, _ => Err ValueError
  end.

(** [np.append(a, b, axis=1)]: the same number of rows. *)
Definition np_append_axis1 (a b : ndarray) : result ndarray :=
  match a, b with
  | Arr2 c rs, Arr2 c' rs' =>
      if decide (length rs = length rs') then Ok (Arr2 (c + c') (zip_with app rs rs'))
      else Err ValueError
  | _, _ => Err ValueError
  end.
End numpy.

Arguments ndarray D : clear implicits.

(** ** [compress_and_compare_voyages.py]: the pairwise distance engine *)

Definition main_name : string := "__main__".

(** [mp.Pool(processes=n)] raises [ValueError] unless [n >= 1]. *)
Definition mp_Pool (processes : Z) : result unit :=
  if bool_decide (processes < 1)%Z then Err ValueError else Ok ().

Section proximity.
Context {D : Type} (zero : D) (add : D → D → D).
(** [dtw(a, b, distance_only=True).distance] of the dtw package, and
    [mp.cpu_count()]. *)
Context (dtw : ndarray D → ndarray D → result D) (cpu_count : Z).

Local Abbreviation voyage := (ndarray D).
Local Abbreviation corpus := (list (string * ndarray D)).

(** An element of the [inputs] array: [(i, j, i_coords, j_coords)]. *)
Definition work_item : Type := nat * nat * voyage * voyage.

Definition proximity_parallel (i j : nat) (i_coords j_coords : voyage)
  : result (nat * nat * D) :=
  d ← dtw i_coords j_coords ; Ok (i, j, d).

(** [pool.starmap(proximity_parallel, inputs)]: the results come in the
    order of [inputs], whatever the order the workers finish in; a slot
    that was never assigned holds [None], which cannot be unpacked. *)
Definition starmap_proximity (inputs : list (option work_item))
  : result (list (nat * nat * D)) :=
  rmapM (λ item, match item with
                 | Some (i, j, ci, cj) => proximity_parallel i j ci cj
                 | None => Err TypeError
                 end) inputs.

(** The iterations of
    [for i in range(n_voyages - 1): for j in range(i + 1, n_voyages)],
    in order. *)
Definition pair_loop (n_voyages : nat) : list (nat * nat) :=
  i ← seq 0 (n_voyages - 1) ; (λ j, (i, j)) <$> seq (S i) (n_voyages - S i).

(** The body of the two loops. *)
Definition assign_input (compressed_voyages : corpus) (voyages : list string)
    (n_voyages : nat) (inputs : list (option work_item)) (ij : nat * nat)
  : result (list (option work_item)) :=
  let '(i, j) := ij in
  flat_index ← Triangular.flat_index (Z.of_nat n_voyages) (Z.of_nat i) (Z.of_nat j) ;
  vi ← from_option Ok (Err IndexError) (voyages !! i) ;
  vj ← from_option Ok (Err IndexError) (voyages !! j) ;
  ci ← dict_get compressed_voyages vi ;
  cj ← dict_get compressed_voyages vj ;
  np_setitem1 inputs flat_index (Some (i, j, ci, cj)).

(** [distances[i, j] = item[2]] *)
Definition store_distance (distances : ndarray D) (item : nat * nat * D)
  : result (ndarray D) :=
  let '(i, j, d) := item in np_setitem2 distances i j d.

(** [None] is Python's [None]: what a function returns that ends
    without a [return]. *)
Definition calc_proximity_matrix (compressed_voyages : corpus) (name : string)
  : result (option (ndarray D)) :=
  if decide (name = main_name) then
    let n_voyages := length compressed_voyages in
    let voyages := dict_keys compressed_voyages in
    number_combinations ← Triangular.number_combinations (Z.of_nat n_voyages) ;
    let inputs := replicate (Z.to_nat number_combinations) None in
    inputs ← rfoldM (assign_input compressed_voyages voyages n_voyages)
               inputs (pair_loop n_voyages) ;
    _ ← mp_Pool cpu_count ;
    result ← starmap_proximity inputs ;
    let distances := np_zeros2 zero n_voyages n_voyages in
    distances ← rfoldM store_distance distances result ;
    distances ← np_add add distances (np_transpose zero distances) ;
    Ok (Some distances)
  else Ok None.
End proximity.

(** ** Simplification of a voyage

    [rdp] is the rdp package.  [pldist p a b] is the distance of the point
    [p] from the segment between [a] and [b] (the package's default [dist]),
    and [gtb x y] is the float comparison [x > y]. *)
Section simplify.
Context {D : Type} (pldist : list D → list D → list D → D) (gtb : D → D → bool).

(** A point is a row of the coordinate array. *)
Definition point : Type := list D.

(** Modelled from the spec: the rdp package is not part of the repository.
    "Find the point in the open interior with maximum perpendicular distance
    from the line segment joining the first and last point": a scan of the
    interior from left to right that keeps the first maximum, with the
    index of the point in the whole sequence. *)
Fixpoint farthest_from (first_pt last_pt : point) (interior : list point)
    (i : nat) (best : nat * D) : nat * D :=
  match interior with
  | [] => best
  | p :: ps =>
      let d := pldist p first_pt last_pt in
      farthest_from first_pt last_pt ps (S i) (if gtb d best.2 then (i, d) else best)
  end.

(** Modelled from the spec: the interior point of [farthest_from] and its
    distance; [None] for a sequence with no interior (fewer than three
    points). *)
Definition farthest (pts : list point) : option (nat * D) :=
  match pts with
  | first_pt :: p :: rest =>
      match last rest with
      | Some last_pt =>
          Some (farthest_from first_pt last_pt (removelast rest) 2
                  (1, pldist p first_pt last_pt))
      | None => None
      end
  | _ => None
  end.

Lemma farthest_from_upper a b interior i best :
  best.1 < i + length interior →
  (farthest_from a b interior i best).1 < i + length interior.
Proof.
  revert i best. induction interior as [|p ps IH]; intros i best Hb; simpl in *; [done|].
  replace (i + S (length ps)) with (S i + length ps) by lia.
  apply IH. destruct (gtb _ _); simpl; lia.
Qed.

Lemma farthest_from_lower a b interior i best :
  1 ≤ best.1 → 1 ≤ i → 1 ≤ (farthest_from a b interior i best).1.
Proof.
  revert i best. induction interior as [|p ps IH]; intros i best Hb Hi; simpl in *; [done|].
  apply IH; [|lia]. destruct (gtb _ _); simpl; lia.
Qed.

(** The point found is neither the first nor the last one. *)
Lemma farthest_interior pts k d :
  farthest pts = Some (k, d) → 1 ≤ k ∧ S k < length pts.
Proof.
  destruct pts as [|a [|p rest]]; simpl; try done.
  destruct (last rest) as [b|] eqn:Hlast; [|done]. intros [= H].
  assert (length (removelast rest) + 1 = length rest).
  { destruct (exists_last (l:=rest)) as (l' & x & ->); [by intros ->|].
    rewrite removelast_last, length_app. simpl. lia. }
  pose proof (farthest_from_upper a b (removelast rest) 2 (1, pldist p a b)) as H1.
  pose proof (farthest_from_lower a b (removelast rest) 2 (1, pldist p a b)) as H2.
  rewrite H in H1, H2. simpl in *. lia.
Qed.

(** Modelled from the spec: the rdp package is not part of the repository.
    "Always retain the first and last point. [...] If that maximum distance
    exceeds epsilon, keep the point and recurse independently on the two
    sub-segments it splits the sequence into; otherwise discard all interior
    points."  The two sub-segments share the point kept, which the result
    holds once. *)
Equations? rdp_points (epsilon : D) (pts : list point) : list point
  by wf (length pts) lt :=
rdp_points epsilon pts with Equations.Prop.Logic.inspect (farthest pts) := {
  | exist _ (Some (k, dmax)) Hfar =>
      if gtb dmax epsilon then
        rdp_points epsilon (take (S k) pts) ++ tail (rdp_points epsilon (drop k pts))
      else take 1 pts ++ drop (length pts - 1) pts
  | exist _ None _ => pts }.
Proof.
  all: apply farthest_interior in Hfar.
  - rewrite length_take. lia.
  - rewrite length_drop. lia.
Qed.

(** Modelled from the spec: [rdp(coords, epsilon=epsilon)] on an array of
    points.  The contract is stated for sequences of 2D points; an array
    of one dimension is outside it and left as it is. *)
Definition rdp (coords : ndarray D) (epsilon : D) : ndarray D :=
  match coords with
  | Arr2 c rows => Arr2 c (rdp_points epsilon rows)
  | Arr1 xs => Arr1 xs
  end.

Definition compute_compressed_voyage (vid : string) (coords : ndarray D) (epsilon : D)
  : string * ndarray D :=
  let mv_coords := rdp coords epsilon in
  (vid, mv_coords).

(** A row of the voyages [DataFrame]: the [IMO] level of its index and the
    three columns that [compress_voyages] reads. *)
Record ais_row : Type := AisRow {
  IMO : Z;
  voyage_id : string;
  Longitude : D;
  Latitude : D;
}.

(** [df.droplevel("IMO")[["voyage_id", "Longitude", "Latitude"]]] *)
Definition drop_IMO (df : list ais_row) : list (string * D * D) :=
  (λ r, (voyage_id r, Longitude r, Latitude r)) <$> df.

(** [df["voyage_id"].unique()] *)
Definition unique_voyages (df : list (string * D * D)) : list string :=
  remove_dups ((λ r, r.1.1) <$> df).

(** [df.groupby("voyage_id")]: the groups come sorted by key, each with its
    rows in the order of the frame. *)
Definition groupby_voyage (df : list (string * D * D))
  : list (string * list (string * D * D)) :=
  (λ k, (k, filter (λ r, r.1.1 = k) df))
    <$> merge_sort (λ a b, Is_true (String.leb a b)) (remove_dups ((λ r, r.1.1) <$> df)).

(** [group.drop(columns="voyage_id").values] *)
Definition coords_of (rows : list (string * D * D)) : ndarray D :=
  Arr2 2 ((λ r, [r.1.2; r.2]) <$> rows).

(** [value.shape[0]] *)
Definition shape0 (a : ndarray D) : nat :=
  match a with
  | Arr1 xs => length xs
  | Arr2 _ rows => length rows
  end.

(** The frame is projected on its three columns and its voyage ids are
    listed before [name] is tested; the list is only printed.  [df] is a
    frame that has the [IMO] level over another level of its index and the
    three columns, on which the projection does not fail;
    [AnyFrame.compress_voyages], below, takes any frame. *)
Definition compress_voyages (cpu_count : Z) (df : list ais_row) (epsilon : D)
    (name : string) : result (option (list (string * ndarray D))) :=
  let df := drop_IMO df in
  let all_voyages_ID := unique_voyages df in
  if decide (name = main_name) then
    let nprocs := cpu_count in
    _ ← mp_Pool (nprocs - 1) ;
    let gdf := groupby_voyage df in
    let inputs := (λ item, (item.1, coords_of item.2, epsilon)) <$> gdf in
    let result :=
      (λ '(vid, coords, eps), compute_compressed_voyage vid coords eps) <$> inputs in
    let result := dict_of_items (filter (λ kv, 1 < shape0 kv.2) result) in
    Ok (Some result)
  else Ok None.
End simplify.

(** ** [compress_voyages] on a frame of any index and columns

    [compress_voyages] projects its frame before it looks at [name], and
    the projection fails on a frame that has no [IMO] level in its index
    (the frame that [prediction_pipeline.main] passes has lost it) or that
    lacks a column.  On the frames that pass, the function is the one
    above, on their rows. *)
Module AnyFrame.
Section frames.
Context {D : Type} (pldist : list D → list D → list D → D) (gtb : D → D → bool).
Context (cpu_count : Z).

(** A [DataFrame] as far as [compress_voyages] looks at it: the names of
    the levels of its index ([None] for a level without a name), the
    labels of its columns, which are distinct, and its rows.  A row holds
    its entries under [IMO], [voyage_id], [Longitude] and [Latitude]; an
    entry under a label that the frame does not have is never read. *)
Record DataFrame : Type := MkDataFrame {
  index_names : list (option string);
  columns : gset string;
  rows : list (ais_row (D:=D));
}.

(** [df.droplevel(level)]: a [KeyError] when no level of the index has the
    name, a [ValueError] when several have it or when the index would be
    left without a level. *)
Definition droplevel (level : string) (df : DataFrame) : result DataFrame :=
  match filter (λ n, n = Some level) (index_names df) with
  | [] => Err KeyError
  | [_] =>
      if decide (length (index_names df) ≤ 1) then Err ValueError
      else Ok (MkDataFrame (filter (λ n, n ≠ Some level) (index_names df))
                           (columns df) (rows df))
  | _ => Err ValueError
  end.

(** [df[labels]] for a list of labels: a [KeyError] when the frame lacks
    one of them. *)
Definition getitem (labels : list string) (df : DataFrame) : result DataFrame :=
  if decide (Forall (λ c, c ∈ columns df) labels)
  then Ok (MkDataFrame (index_names df) (list_to_set labels) (rows df))
  else Err KeyError.

Definition compress_voyages (df : DataFrame) (epsilon : D) (name : string)
  : result (option (list (string * ndarray D))) :=
  df ← droplevel "IMO" df ;
  df ← getitem ["voyage_id"; "Longitude"; "Latitude"] df ;
  compress_voyages pldist gtb cpu_count (rows df) epsilon name.
End frames.
End AnyFrame.

(** ** The store of Python objects

    [advanced/cluster_predict.py] passes one training matrix and one
    training dictionary to many calls, so these objects live in a store and
    are passed by reference.  A computation takes the store and gives the
    store it leaves, with a value or the exception raised. *)
Section store.
Context {D : Type}.

Definition loc : Type := positive.

Inductive obj : Type :=
| ONone
| ONdarray (a : ndarray D)
| ODict (d : list (string * loc)).

Definition py (A : Type) : Type := gmap loc obj → gmap loc obj * result A.

Definition py_ret {A} (a : A) : py A := λ σ, (σ, Ok a).

Definition py_bind {A B} (m : py A) (k : A → py B) : py B :=
  λ σ, match m σ with
       | (σ', Ok a) => k a σ'
       | (σ', Err e) => (σ', Err e)
       end.

Global Instance py_mret : MRet py := λ A a, py_ret a.
Global Instance py_mbind : MBind py := λ A B k m, py_bind m k.

(** A pure computation that may raise. *)
Definition lift {A} (r : result A) : py A := λ σ, (σ, r).

(** A newly made object gets a location that is not in use. *)
Definition alloc (o : obj) : py loc :=
  λ σ, let l := fresh (dom σ) in (<[l := o]> σ, Ok l).

(** Reading an operand of a numpy or scikit-learn routine: these reject
    [None] and dictionaries with a [ValueError] (which of their checks
    raises it is not modelled). *)
Definition load_array (l : loc) : py (ndarray D) :=
  λ σ, match σ !! l with
       | Some (ONdarray a) => (σ, Ok a)
       | _ => (σ, Err ValueError)
       end.

(** Reading a dictionary for [.values()], [.keys()], [.items()] or [[k]]. *)
Definition load_dict (l : loc) : py (list (string * loc)) :=
  λ σ, match σ !! l with
       | Some (ODict d) => (σ, Ok d)
       | Some (ONdarray _) => (σ, Err AttributeError)
       | _ => (σ, Err AttributeError)
       end.

Fixpoint py_mapM {A B} (f : A → py B) (xs : list A) : py (list B) :=
  match xs with
  | [] => py_ret []
  | x :: xs' => y ← f x ; ys ← py_mapM f xs' ; py_ret (y :: ys)
  end.

Fixpoint py_foldM {A S} (f : S → A → py S) (s : S) (xs : list A) : py S :=
  match xs with
  | [] => py_ret s
  | x :: xs' => s' ← f s x ; py_foldM f s' xs'
  end.

(** A numpy routine of one or two array operands that returns a new
    array. *)
Definition np_call1 (f : ndarray D → result (ndarray D)) (l : loc) : py loc :=
  a ← load_array l ; r ← lift (f a) ; alloc (ONdarray r).

Definition np_call2 (f : ndarray D → ndarray D → result (ndarray D)) (l1 l2 : loc)
  : py loc :=
  a ← load_array l1 ; b ← load_array l2 ; r ← lift (f a b) ; alloc (ONdarray r).
End store.

Arguments obj D : clear implicits.
Arguments py D A : clear implicits.

(** ** Density-based clustering

    [DBSCAN(eps=epsilon, metric="precomputed")] of scikit-learn, with its
    default [min_samples] of 5.  [leb x y] is the float comparison
    [x <= y], which is false when an operand is not a number, and
    [isfinite] is [np.isfinite]. *)
Section dbscan.
Context {D : Type} (zero : D) (leb : D → D → bool) (isfinite : D → bool).

Definition noise : Z := (-1)%Z.
Definition default_min_samples : nat := 5.

(** Modelled from the spec: "neighbors (including itself) within radius
    epsilon", read off a row of the distance matrix. *)
Definition neighbours (eps : D) (row : list D) : list nat :=
  (imap (λ j d, (j, d)) row ≫= λ jd, if leb jd.2 eps then [jd.1] else []).

(** Modelled from the spec: "clusters are formed by transitively connecting
    such dense points and absorbing non-dense points that fall within epsilon
    of a dense point".  [stack] holds the points reached and not yet looked
    at; a point that has a label keeps it. *)
Fixpoint grow_cluster (fuel : nat) (nbs : list (list nat)) (core : list bool)
    (c : Z) (stack : list nat) (labels : list Z) : list Z :=
  match fuel with
  | O => labels
  | S fuel' =>
      match stack with
      | [] => labels
      | p :: stack' =>
          if decide (labels !! p = Some noise) then
            let labels' := <[p := c]> labels in
            if default false (core !! p)
            then grow_cluster fuel' nbs core c (default [] (nbs !! p) ++ stack') labels'
            else grow_cluster fuel' nbs core c stack' labels'
          else grow_cluster fuel' nbs core c stack' labels
      end
  end.

(** Modelled from the spec: "a point belongs to a cluster if it has at
    least min_points neighbors (including itself) within radius epsilon
    [...] points absorbed by no cluster receive the noise sentinel", the
    points taken in the order of their indices, the clusters numbered from 0
    ("deterministic for a fixed matrix, epsilon, and min_points"). *)
Definition dbscan_labels (eps : D) (min_samples : nat) (rows : list (list D)) : list Z :=
  let n := length rows in
  let nbs := neighbours eps <$> rows in
  let core := (λ nb, bool_decide (min_samples ≤ length nb)) <$> nbs in
  (foldl (λ '(labels, c) i,
            if default false (core !! i) && bool_decide (labels !! i = Some noise)
            then (grow_cluster (n * n + n + 1) nbs core c [i] labels, (c + 1)%Z)
            else (labels, c))
         (replicate n noise, 0%Z) (seq 0 n)).1.

(** Modelled from the spec: "epsilon: positive real".  The radius has to
    be greater than zero; a radius that is zero, negative or not a number
    is refused. *)
Definition positive_radius (eps : D) : bool := leb zero eps && negb (leb eps zero).

(** Modelled from the spec: the distance matrix is "non-negative".  An
    entry that is negative, infinite or not a number is refused. *)
Definition valid_distance (d : D) : bool :=
  isfinite d && negb (leb d zero && negb (leb zero d)).

(** A matrix whose entries are all accepted. *)
Definition valid_matrix (rows : list (list D)) : Prop :=
  Forall (Forall (λ d, valid_distance d = true)) rows.

(** Modelled from the spec: [fit_predict] on a precomputed distance
    matrix.  The radius has to be positive, the matrix has to be square
    with entries that are finite and not negative, and clustering "invoked
    against zero [...] voyages" is an "explicit failure".  Every refusal of
    scikit-learn is a [ValueError] (its [InvalidParameterError] is one), so
    that the order of the checks does not show. *)
Definition DBSCAN_fit_predict (eps : D) (X : ndarray D) : result (list Z) :=
  if negb (positive_radius eps) then Err ValueError
  else
    match X with
    | Arr1 _ => Err ValueError
    | Arr2 c rows =>
        if decide (length rows = 0) then Err ValueError
        else if negb (forallb (forallb valid_distance) rows) then Err ValueError
        else if decide (c = length rows) then Ok (dbscan_labels eps default_min_samples rows)
        else Err ValueError
    end.
End dbscan.

(** ** [advanced/cluster_predict.py]: the incremental classifier *)
Section cluster_predict.
Context {D : Type} (zero : D) (add : D → D → D) (leb : D → D → bool) (isfinite : D → bool).
Context (dtw : ndarray D → ndarray D → result D) (cpu_count : Z).

(** [dtw] reads the two voyages and [np.array] makes the vector of the
    distances. *)
Definition calc_extra_distance (train_voyages new_voyage : loc) : py D loc :=
  voyages ← load_dict train_voyages ;
  distances ← py_mapM (λ voyage, a ← load_array voyage ;
                                 b ← load_array new_voyage ;
                                 lift (dtw a b))
                      (dict_values voyages) ;
  alloc (ONdarray (Arr1 distances)).

(** Every [np.expand_dims] and [np.append] gives a new array (the view
    that [np.expand_dims] returns is never written to). *)
Definition expand_distance_matrix (orig_matrix new_distances : loc) : py D loc :=
  row ← np_call1 np_expand_dims_first new_distances ;
  temp_matrix ← np_call2 np_append_axis0 orig_matrix row ;
  column ← np_call1 (λ a, Ok (np_append_zero zero a)) new_distances ;
  temp_vector ← np_call1 np_expand_dims_last column ;
  np_call2 np_append_axis1 temp_matrix temp_vector.

(** [clusterer.fit_predict(X)]: the matrix is read, the labels are a new
    array. *)
Definition fit_predict (epsilon : D) (X : loc) : py D (list Z) :=
  a ← load_array X ; lift (DBSCAN_fit_predict zero leb isfinite epsilon a).

Definition predict_single_voyage (train_voyages distance_matrix new_voyage : loc)
    (epsilon : D) : py D Z :=
  new_distance_array ← calc_extra_distance train_voyages new_voyage ;
  new_distance_matrix ← expand_distance_matrix distance_matrix new_distance_array ;
  labels ← fit_predict epsilon new_distance_matrix ;
  lift (from_option Ok (Err IndexError) (last labels)).

(** The voyages of a dictionary in the store, when all its values are
    arrays. *)
Definition corpus_at (σ : gmap loc (obj D)) (d : loc)
  : option (list (string * ndarray D)) :=
  match σ !! d with
  | Some (ODict items) =>
      mapM (λ kv, match σ !! kv.2 with
                  | Some (ONdarray a) => Some (kv.1, a)
                  | _ => None
                  end) items
  | _ => None
  end.

(** [calc_proximity_matrix] called on a dictionary of the store: the
    dictionary is only read under the guard on [name], and the matrix (or
    [None]) returned is a new object. *)
Definition calc_proximity_matrix_at (compressed_voyages : loc) (name : string)
  : py D loc :=
  λ σ, match corpus_at σ compressed_voyages with
       | Some corpus =>
           (r ← lift (calc_proximity_matrix zero add dtw cpu_count corpus name) ;
            alloc (from_option ONdarray ONone r)) σ
       | None =>
           if decide (name = main_name) then (σ, Err TypeError) else alloc ONone σ
       end.

(** [{vid: compressed_voyages[vid] for vid in ids}] *)
Definition select_voyages (compressed_voyages : list (string * loc)) (ids : list string)
  : result (list (string * loc)) :=
  items ← rmapM (λ vid, l ← dict_get compressed_voyages vid ; Ok (vid, l)) ids ;
  Ok (dict_of_items items).

Definition predict_voyages (compressed_voyages : loc) (train_voyages test_voyages : list string)
    (name : string) (epsilon : D)
  : py D (list (string * Z) * list (string * Z)) :=
  voyages ← load_dict compressed_voyages ;
  train_items ← lift (select_voyages voyages train_voyages) ;
  train_set ← alloc (ODict train_items) ;
  test_items ← lift (select_voyages voyages test_voyages) ;
  test_set ← alloc (ODict test_items) ;
  base_distances ← calc_proximity_matrix_at train_set name ;
  train_labels ← fit_predict epsilon base_distances ;
  let train_predictions := dict_of_items (zip (dict_keys train_items) train_labels) in
  test_predictions ←
    py_foldM (λ test_predictions '(vid, voyage),
                label ← predict_single_voyage train_set base_distances voyage epsilon ;
                mret (dict_update test_predictions [(vid, label)]))
             [] test_items ;
  mret (train_predictions, test_predictions).

End cluster_predict.

(** [int(value < 0)] *)
Definition int_is_negative (value : Z) : Z :=
  if bool_decide (value < 0)%Z then 1%Z else 0%Z.

Definition make_binary_class (predictions : list (string * Z)) : list (string * Z) :=
  dict_of_items ((λ '(key, value), (key, int_is_negative value)) <$> predictions).

(** ** The evaluation harness *)
Section evaluation.
Context {D : Type} (zero : D) (add : D → D → D) (leb : D → D → bool) (isfinite : D → bool).
Context (dtw : ndarray D → ndarray D → result D) (cpu_count : Z).
(** The radius [12.] of the two scripts, and [train_test_split] of
    scikit-learn with its fixed seed. *)
Context (eps12 : D) (train_test_split : list string → list string * list string).

(** Modelled from the spec: "a confusion matrix (oracle label vs. predicted
    label)": the labels that occur, sorted, index the rows by the oracle
    label and the columns by the predicted label; an entry counts the
    voyages with that pair of labels. *)
Definition confusion_matrix (y_true y_pred : list Z) : list (list nat) :=
  let labels := merge_sort Z.le (remove_dups (y_true ++ y_pred)) in
  (λ t, (λ p, length (filter (λ tp, tp = (t, p)) (zip y_true y_pred))) <$> labels)
    <$> labels.

(** [{v: voyage_classes_all[v] for v in y_pred.keys()}] *)
Definition oracle_labels (voyage_classes_all y_pred : list (string * Z))
  : result (list (string * Z)) :=
  items ← rmapM (λ v, c ← dict_get voyage_classes_all v ; Ok (v, c)) (dict_keys y_pred) ;
  Ok (dict_of_items items).

(** The last lines of the evaluation script of [cluster_predict.py], from
    the predictions of the two sets to the confusion matrix. *)
Definition script_confusion (voyage_classes_all train_pred test_pred : list (string * Z))
  : result (list (list nat)) :=
  let train_bin := make_binary_class train_pred in
  let test_bin := make_binary_class test_pred in
  let y_pred := dict_update train_bin test_bin in
  y_true ← oracle_labels voyage_classes_all y_pred ;
  let y_true_value := dict_values y_true in
  let y_pred_value := dict_values y_pred in
  Ok (confusion_matrix y_true_value y_pred_value).

(** The same lines in [do_k_fold_validation]: [y_pred] starts as a copy of
    [test_bin]. *)
Definition k_fold_confusion (voyage_classes_all train_pred test_pred : list (string * Z))
  : result (list (list nat)) :=
  let train_bin := make_binary_class train_pred in
  let test_bin := make_binary_class test_pred in
  let y_pred := dict_update test_bin test_bin in
  y_true ← oracle_labels voyage_classes_all y_pred ;
  let y_true_value := dict_values y_true in
  let y_pred_value := dict_values y_pred in
  Ok (confusion_matrix y_true_value y_pred_value).

Definition do_k_fold_validation (compressed_voyages : loc) (train_ids test_ids : list string)
    (voyage_classes_all : list (string * Z)) (name : string)
  : py D (list (list nat)) :=
  '(train_pred, test_pred) ←
    predict_voyages zero add leb isfinite dtw cpu_count compressed_voyages train_ids test_ids name eps12 ;
  lift (k_fold_confusion voyage_classes_all train_pred test_pred).

(** The oracle of both scripts: the whole corpus clustered at once, and
    [voyage_classes_all]. *)
Definition oracle_classes (compressed_voyages : loc) (name : string)
  : py D (list (string * Z)) :=
  distances_all ← calc_proximity_matrix_at zero add dtw cpu_count compressed_voyages name ;
  labels ← fit_predict zero leb isfinite eps12 distances_all ;
  voyages ← load_dict compressed_voyages ;
  mret (dict_of_items ((λ '(vid, label), (vid, int_is_negative label))
                         <$> zip (dict_keys voyages) labels)).

(** The evaluation script at the end of [cluster_predict.py], run as
    ["__main__"] on the corpus it unpickles. *)
Definition cluster_predict_main (compressed_voyages : loc) : py D (list (list nat)) :=
  voyage_classes_all ← oracle_classes compressed_voyages main_name ;
  voyages ← load_dict compressed_voyages ;
  let '(train, test) := train_test_split (dict_keys voyages) in
  '(train_pred, test_pred) ←
    predict_voyages zero add leb isfinite dtw cpu_count compressed_voyages train test main_name eps12 ;
  lift (script_confusion voyage_classes_all train_pred test_pred).
End evaluation.

(** [single_run]: the dictionary and the matrix that it pickles.  When
    [compress_voyages] has returned [None], [calc_proximity_matrix] is
    given [None], which it does not look at: its guard is then closed
    too. *)
Definition single_run {D : Type} (zero : D) (add : D → D → D)
    (pldist : list D → list D → list D → D) (gtb : D → D → bool)
    (dtw : ndarray D → ndarray D → result D) (cpu_count : Z)
    (df : list (ais_row (D:=D))) (epsilon : D) (name : string)
  : result (option (list (string * ndarray D)) * option (ndarray D)) :=
  compressed_voyages ← compress_voyages pldist gtb cpu_count df epsilon name ;
  distance_matrix ←
    match compressed_voyages with
    | Some corpus => calc_proximity_matrix zero add dtw cpu_count corpus name
    | None => if decide (name = main_name) then Err TypeError else Ok None
    end ;
  Ok (compressed_voyages, distance_matrix).

(** ** [settings.py] and [main_pipeline.py]

    [Settings] is a pydantic model.  A field validator runs on a value that
    the configuration gives, not on a default; the model validator runs
    when every field has passed; an error of any validator is raised as
    one [ValidationError] (a [ValueError]) by the constructor. *)
Section settings.
Context {D : Type} (zero : D) (ltb : D → D → bool).
(** [os.path.exists], [os.path.isfile], [os.path.isdir],
    [os.path.normpath], and [dt.datetime.now().strftime("%Y%m%d_%H%M")]. *)
Context (path_exists path_isfile path_isdir : string → bool).
Context (normpath : string → string) (now_stamp : string).

Record EezFiles : Type := MkEezFiles {
  internal : string;
  territorial : string;
  contiguous : string;
  eez : string;
}.

Record Settings : Type := MkSettings {
  ais_data_path : string;
  meta_data_path : string;
  output_folder : string;
  bbox : D * D * D * D;
  eez_files : EezFiles;
  stages : list string;
  output_suffix : string;
  compression_eps : D;
  clustering_eps : D;
  voyages_filename : string;
  compressed_filename : string;
  matrix_filename : string;
  map_filename : string;
}.

(** The keys of the [eez_files] table and of the [global] table of the
    configuration file: [None] for a key that the file leaves out. *)
Record eez_options : Type := MkEezOptions {
  o_internal : option string;
  o_territorial : option string;
  o_contiguous : option string;
  o_eez : option string;
}.

Record options : Type := MkOptions {
  o_ais_data_path : option string;
  o_meta_data_path : option string;
  o_output_folder : option string;
  o_bbox : option (D * D * D * D);
  o_eez_files : option eez_options;
  o_stages : option (list string);
  o_output_suffix : option string;
  o_compression_eps : option D;
  o_clustering_eps : option D;
  o_voyages_filename : option string;
  o_compressed_filename : option string;
  o_matrix_filename : option string;
  o_map_filename : option string;
}.

Definition check_path (name : string) : result string :=
  if path_exists name then Ok name else Err ValueError.

Definition check_file (name : string) : result string :=
  name ← check_path name ;
  if path_isfile name then Ok name else Err ValueError.

Definition check_dir (name : string) : result string :=
  name ← check_path name ;
  if path_isdir name then Ok (normpath name) else Err ValueError.

Definition check_bounding_box (box : D * D * D * D) : result (D * D * D * D) :=
  let '(b0, b1, b2, b3) := box in
  if negb (ltb b0 b2) then Err ValueError
  else if negb (ltb b1 b3) then Err ValueError
  else Ok box.

Definition make_output (suffix : string) : result string :=
  if decide (suffix = "timestamp") then Ok now_stamp else Ok suffix.

Definition check_positive (value : D) : result D :=
  if ltb value zero then Err ValueError else Ok value.

(** A field: its default when the key is absent, its validator
    otherwise. *)
Definition field {A} (given : option A) (default : A) (validator : A → result A)
  : result A :=
  match given with
  | Some v => validator v
  | None => Ok default
  end.

Definition default_EezFiles : EezFiles :=
  MkEezFiles "../../data/eco_zones/eez_internal_waters_v3.gpkg"
             "../../data/eco_zones/eez_12nm_v3.gpkg"
             "../../data/eco_zones/eez_24nm_v3.gpkg"
             "../../data/eco_zones/eez_v11.gpkg".

(** The constructor of [EezFiles] on the keys of the [eez_files] table. *)
Definition EezFiles_init (e : eez_options) : result EezFiles :=
  i ← field (o_internal e) (internal default_EezFiles) check_file ;
  t ← field (o_territorial e) (territorial default_EezFiles) check_file ;
  c ← field (o_contiguous e) (contiguous default_EezFiles) check_file ;
  z ← field (o_eez e) (eez default_EezFiles) check_file ;
  Ok (MkEezFiles i t c z).

Definition validate_filename (self_output_folder self_output_suffix name filetype : string)
  : result string :=
  if decide (name ≠ "default") then check_path name
  else
    let suffix := self_output_suffix +:+ ".pkl" in
    let '(prefix, suffix) :=
      if decide (filetype = "voyages") then ("reduced_data", suffix)
      else if decide (filetype = "compressed") then ("compressed_voyages", suffix)
      else if decide (filetype = "proximity") then ("proximity_matrix", suffix)
      else if decide (filetype = "map") then ("voyage_map", self_output_suffix +:+ ".html")
      else ("", suffix) in
    Ok (self_output_folder +:+ "/" +:+ prefix +:+ "_" +:+ suffix).

(** The exception that the constructor raises for an error of a
    validator. *)
Definition as_validation_error {A} (r : result A) : result A :=
  match r with
  | Ok a => Ok a
  | Err _ => Err ValidationError
  end.

(** The constructor of [Settings], called by [run_pipeline] on the options
    of the [global] table; [default_bbox], [default_compression_eps] and
    [default_clustering_eps] are the float defaults
    [(9.0, 56.0, 25.7, 66.0)], [0.003] and [12.0]. *)
Definition Settings_init (default_bbox : D * D * D * D)
    (default_compression_eps default_clustering_eps : D) (o : options)
  : result Settings :=
  as_validation_error (
    ais ← field (o_ais_data_path o) "../../data/ais2018_chemical_tanker.csv" check_file ;
    meta ← field (o_meta_data_path o) "../../data/imo_km_oil.csv" check_file ;
    out ← field (o_output_folder o) "../output" check_dir ;
    box ← field (o_bbox o) default_bbox check_bounding_box ;
    eezf ← match o_eez_files o with
           | Some e => EezFiles_init e
           | None => Ok default_EezFiles
           end ;
    stg ← field (o_stages o) [] Ok ;
    suffix ← field (o_output_suffix o) "timestamp" make_output ;
    ceps ← field (o_compression_eps o) default_compression_eps check_positive ;
    keps ← field (o_clustering_eps o) default_clustering_eps check_positive ;
    voyages ← field (o_voyages_filename o) "default" Ok ;
    compressed ← field (o_compressed_filename o) "default" Ok ;
    matrix ← field (o_matrix_filename o) "default" Ok ;
    map ← field (o_map_filename o) "default" Ok ;
    (* update_filenames *)
    voyages ← validate_filename out suffix voyages "voyages" ;
    compressed ← validate_filename out suffix compressed "compressed" ;
    matrix ← validate_filename out suffix matrix "proximity" ;
    map ← validate_filename out suffix map "map" ;
    Ok (MkSettings ais meta out box eezf stg suffix ceps keps
                   voyages compressed matrix map)).

(** What a stage of the pipeline starts, with the parameters it takes
    from the settings: the feature engineering, the compression of the
    voyages (with its pool of workers), the pairwise comparison (with its
    pool), the clustering and the map. *)
Inductive stage_event : Type :=
| EvFeatures
| EvCompress (epsilon : D) (name : string)
| EvCompare (name : string)
| EvCluster (eps : D)
| EvPlot.

(** The work that the five stage functions of [run_pipeline] start, in
    order; each looks for its own name in [settings.stages].  The bodies of
    the stages (files read and written, the features, the map) are not
    modelled: a stage of the list is reached when the stages before it end
    without an exception. *)
Definition pipeline_stages (s : Settings) (name : string) : list stage_event :=
  (if bool_decide ("features" ∈ stages s) then [EvFeatures] else [])
  ++ (if bool_decide ("compression" ∈ stages s) then [EvCompress (compression_eps s) name] else [])
  ++ (if bool_decide ("dtw" ∈ stages s) then [EvCompare name] else [])
  ++ (if bool_decide ("clustering" ∈ stages s) then [EvCluster (clustering_eps s)] else [])
  ++ (if bool_decide ("plotting" ∈ stages s) then [EvPlot] else []).

(** [run_pipeline(configfile, name)] on the tables of the parsed
    configuration file: the exception raised before the first stage, or the
    stages that the call goes on to. *)
Definition run_pipeline (default_bbox : D * D * D * D)
    (default_compression_eps default_clustering_eps : D)
    (configs : list (string * options)) (name : string)
  : result (list stage_event) :=
  general_options ← dict_get configs "global" ;
  pipeline_settings ← Settings_init default_bbox default_compression_eps
                         default_clustering_eps general_options ;
  Ok (pipeline_stages pipeline_settings name).
End settings.

(** ** Integer coordinates

    The development is run on voyages with integer coordinates: [Z] with
    its addition and order stands for the floats, a dynamic time warping
    distance with city-block local cost for [dtw], and the doubled area of
    the triangle of a point and a segment for [pldist]. *)
Module IntegerRuns.
Local Open Scope Z_scope.

Definition city_block (p q : list Z) : Z :=
  foldr Z.add 0 (zip_with (λ x y, Z.abs (x - y)) p q).

(** A row of the cumulative cost matrix from the row above it: a cell is
    its local cost plus the least of the cells above, to the left and
    diagonal. *)
Fixpoint dtw_row (above : list Z) (left diag : option Z) (costs : list Z) : list Z :=
  match costs, above with
  | c :: costs', up :: above' =>
      let best := match left, diag with
                  | Some l, Some d => Z.min up (Z.min l d)
                  | _, _ => up
                  end in
      let cell := c + best in
      cell :: dtw_row above' (Some cell) (Some up) costs'
  | _, _ => []
  end.

Fixpoint dtw_first_row (left : Z) (costs : list Z) : list Z :=
  match costs with
  | [] => []
  | c :: costs' => let cell := left + c in cell :: dtw_first_row cell costs'
  end.

(** The cumulative cost at the final cell; a voyage with no point is
    rejected. *)
Definition dtw_l1 (a b : ndarray Z) : result Z :=
  match a, b with
  | Arr2 _ (p :: ps), Arr2 _ (q :: qs) =>
      let first := dtw_first_row 0 (city_block p <$> (q :: qs)) in
      let final :=
        foldl (λ above p', dtw_row above None None (city_block p' <$> (q :: qs))) first ps in
      from_option Ok (Err ValueError) (last final)
  | _, _ => Err ValueError
  end.

Definition doubled_area (p a b : list Z) : Z :=
  match p, a, b with
  | [px; py], [ax; ay], [bx; by'] =>
      Z.abs ((bx - ax) * (ay - py) - (by' - ay) * (ax - px))
  | _, _, _ => 0
  end.

(** A voyage of three points that sails north at longitude [x]. *)
Definition northbound (x : Z) : ndarray Z := Arr2 2 [[x; 0]; [x; 1]; [x; 2]].

(** Four voyages, as [calc_proximity_matrix] takes them. *)
Definition corpus4 : list (string * ndarray Z) :=
  [("a", northbound 0); ("b", northbound 1); ("c", northbound 2); ("d", northbound 7)].

(** A store with six voyages and their dictionary: five of them within
    distance 12 of one another, the sixth far away. *)
Definition fleet : gmap loc (obj Z) :=
  list_to_map
    [(1%positive, ONdarray (northbound 0)); (2%positive, ONdarray (northbound 1));
     (3%positive, ONdarray (northbound 2)); (4%positive, ONdarray (northbound 3));
     (5%positive, ONdarray (northbound 4)); (6%positive, ONdarray (northbound 100));
     (7%positive, ODict [("a", 1%positive); ("b", 2%positive); ("c", 3%positive);
                         ("d", 4%positive); ("e", 5%positive); ("f", 6%positive)])].

(** A store with an empty training dictionary, the empty matrix that
    [calc_proximity_matrix] returns for it, and a new voyage. *)
Definition empty_training : gmap loc (obj Z) :=
  list_to_map
    [(1%positive, ODict []); (2%positive, ONdarray (Arr2 0 []));
     (3%positive, ONdarray (northbound 5))].

(** A store with a 2 by 2 matrix and a vector of two distances. *)
Definition small_training : gmap loc (obj Z) :=
  list_to_map
    [(1%positive, ONdarray (Arr2 2 [[0; 3]; [3; 0]])); (2%positive, ONdarray (Arr1 [6; 9]))].

(** A store with two training voyages, their dictionary, their distance
    matrix and a new voyage. *)
Definition two_trained : gmap loc (obj Z) :=
  list_to_map
    [(1%positive, ONdarray (northbound 0)); (2%positive, ONdarray (northbound 1));
     (3%positive, ODict [("a", 1%positive); ("b", 2%positive)]);
     (4%positive, ONdarray (Arr2 2 [[0; 3]; [3; 0]]));
     (5%positive, ONdarray (northbound 3))].

(** A zigzag, to simplify. *)
Definition zigzag : list (list Z) := [[0; 0]; [1; 3]; [2; 0]; [3; 1]; [4; 5]; [5; 0]].

(** A frame of two voyages. *)
Definition two_voyages : list (ais_row (D:=Z)) :=
  [AisRow 9000001 "v2" 0 0; AisRow 9000001 "v2" 1 3; AisRow 9000001 "v2" 2 0;
   AisRow 9000002 "v1" 5 5; AisRow 9000002 "v1" 6 6; AisRow 9000002 "v1" 7 7].

(** The frame of two voyages as the features leave it, with the [IMO]
    level over a level without a name, and as [prediction_pipeline.main]
    passes it on, the [IMO] level dropped. *)
Definition indexed_frame : AnyFrame.DataFrame (D:=Z) :=
  AnyFrame.MkDataFrame [Some "IMO"; None]
    (list_to_set ["voyage_id"; "Longitude"; "Latitude"; "Speed"]) two_voyages.

Definition level_dropped : AnyFrame.DataFrame (D:=Z) :=
  AnyFrame.MkDataFrame [None]
    (list_to_set ["voyage_id"; "Longitude"; "Latitude"]) two_voyages.

Definition no_eez : eez_options := MkEezOptions None None None None.

(** The [global] table of a configuration that only sets the stages and
    the two tolerances. *)
Definition global_table (compression clustering : Z) : options (D:=Z) :=
  MkOptions None None None None None
            (Some ["compression"; "dtw"; "clustering"]) None
            (Some compression) (Some clustering) None None None None.

(** [run_pipeline] on that configuration (it names no path, so that no
    validator looks at the file system). *)
Definition run_with (compression clustering : Z) : result (list (stage_event (D:=Z))) :=
  run_pipeline 0 Z.ltb (λ _, true) (λ _, true) (λ _, true) (λ p, p) "20240101_0000"
    (9, 56, 25, 66) 0 12 [("global", global_table compression clustering)] main_name.
(** A frame of three voyages, one of them with a single row. *)
Definition three_voyages : list (ais_row (D:=Z)) :=
  [AisRow 9000001 "v2" 0 0; AisRow 9000003 "v3" 9 9; AisRow 9000001 "v2" 1 3;
   AisRow 9000002 "v1" 5 5; AisRow 9000001 "v2" 2 0; AisRow 9000002 "v1" 6 6].
(** A store with two training voyages, a matrix of one voyage only, and a
    new voyage. *)
Definition wrong_matrix : gmap loc (obj Z) :=
  list_to_map
    [(1%positive, ONdarray (northbound 0)); (2%positive, ONdarray (northbound 1));
     (3%positive, ODict [("a", 1%positive); ("b", 2%positive)]);
     (4%positive, ONdarray (Arr2 1 [[0]]));
     (5%positive, ONdarray (northbound 3))].
(** The settings that the constructor makes of [global_table 1 12]. *)
Definition made_settings : Settings (D:=Z) :=
  MkSettings "../../data/ais2018_chemical_tanker.csv" "../../data/imo_km_oil.csv"
             "../output" (9, 56, 25, 66) default_EezFiles
             ["compression"; "dtw"; "clustering"] "timestamp" 1 12
             "../output/reduced_data_timestamp.pkl"
             "../output/compressed_voyages_timestamp.pkl"
             "../output/proximity_matrix_timestamp.pkl"
             "../output/voyage_map_timestamp.html".
(** A frame in which every voyage has a single row. *)
Definition single_rows : list (ais_row (D:=Z)) :=
  [AisRow 9000002 "v2" 0 0; AisRow 9000001 "v1" 5 5].
End IntegerRuns.

(** The number of voyages that a confusion matrix counts. *)
Definition cm_total (cm : list (list nat)) : nat := sum_list_with sum_list cm.

(** ** [helpers/pipeline_helpers.py] *)
Section extract.
Context {D : Type}.

(** [data.groupby("voyage_id")] on the whole frame: the groups sorted by
    key, each with its rows in the order of the frame. *)
Definition groupby_voyage_id (data : list (ais_row (D:=D)))
  : list (string * list (ais_row (D:=D))) :=
  (λ k, (k, filter (λ r, voyage_id r = k) data))
    <$> merge_sort (λ a b, Is_true (String.leb a b)) (remove_dups (voyage_id <$> data)).

(** [{item[0]: item[1][["Longitude", "Latitude"]].values for item in
    data.groupby("voyage_id")}] *)
Definition extract_coords (data : list (ais_row (D:=D))) : list (string * ndarray D) :=
  dict_of_items
    ((λ item, (item.1, Arr2 2 ((λ r, [Longitude r; Latitude r]) <$> item.2)))
       <$> groupby_voyage_id data).
End extract.

(** ** [main_pipeline.py]: the stages, the values they pass on and the files

    The stage functions hand Python values to one another and pickle them
    through the methods [read_data_file] and [write_data] of [Settings].
    The values are [None], a frame of voyages, a dictionary of compressed
    voyages or a distance matrix; the files of the model hold a pickle of
    one of these, or a map saved as HTML. *)
Module MainPipeline.
(** The exceptions of the stages: those of [open] ([FileNotFoundError],
    [PermissionError] and the other subclasses of [OSError]), that of
    [pickle.load] on a file that is no pickle, the exceptions of [exn], and
    [OtherError] for the exceptions of any other class that the libraries
    raise. *)
Inductive io_exn : Type :=
| OSError
| UnpicklingError
| Raised (e : exn)
| OtherError.

Inductive outcome (A : Type) : Type :=
| Returns (a : A)
| Raises (e : io_exn).
Arguments Returns {A} a.
Arguments Raises {A} e.

Section pipeline.
Context {D : Type} (zero : D) (add : D → D → D) (leb : D → D → bool) (isfinite : D → bool).
Context (gtb : D → D → bool).
Context (pldist : list D → list D → list D → D).
Context (dtw : ndarray D → ndarray D → result D) (cpu_count : Z).

Inductive pyval : Type :=
| PNone
| PFrame (df : list (ais_row (D:=D)))
| PVoyages (d : list (string * ndarray D))
| PMatrix (a : ndarray D).

(** [folium_map] stands for the map objects of [create_map.py]. *)
Context {folium_map : Type}.

Inductive file : Type :=
| Pickle (v : pyval)
| Html (m : folium_map).

(** A computation on the files. *)
Definition io (A : Type) : Type := gmap string file → gmap string file * outcome A.

Definition io_ret {A} (a : A) : io A := λ fs, (fs, Returns a).

Definition io_bind {A B} (m : io A) (k : A → io B) : io B :=
  λ fs, match m fs with
        | (fs', Returns a) => k a fs'
        | (fs', Raises e) => (fs', Raises e)
        end.

Global Instance io_mret : MRet io := λ A a, io_ret a.
Global Instance io_mbind : MBind io := λ A B k m, io_bind m k.

Definition raise {A} (e : io_exn) : io A := λ fs, (fs, Raises e).

(** A computation that touches none of the files. *)
Definition pure {A} (r : result A) : io A :=
  match r with
  | Ok a => io_ret a
  | Err e => raise (Raised e)
  end.

Definition external {A} (o : outcome A) : io A := λ fs, (fs, o).

(** The unpickled content of a file, and a file written.  [can_write p]
    tells whether [open(p, "wb")] succeeds. *)
Context (can_write : string → bool).

Definition pickle_load (filename : string) : io pyval :=
  λ fs, match fs !! filename with
        | Some (Pickle v) => (fs, Returns v)
        | Some (Html _) => (fs, Raises UnpicklingError)
        | None => (fs, Raises OSError)
        end.

Definition pickle_dump (data : pyval) (filename : string) : io unit :=
  λ fs, if can_write filename then (<[filename := Pickle data]> fs, Returns ())
        else (fs, Raises OSError).

(** *** [settings.py]: [read_data_file], [write_data] and [save_map] *)

(** The [match filetype] of both methods. *)
Definition data_filename (self : Settings (D:=D)) (filetype : string) : result string :=
  if decide (filetype = "voyages") then Ok (voyages_filename self)
  else if decide (filetype = "compressed") then Ok (compressed_filename self)
  else if decide (filetype = "proximity") then Ok (matrix_filename self)
  else Err ValueError.

Definition read_data_file (self : Settings (D:=D)) (filetype : string) : io pyval :=
  filename ← pure (data_filename self filetype) ;
  pickle_load filename.

Definition write_data (self : Settings (D:=D)) (data : pyval) (filetype : string) : io unit :=
  filename ← pure (data_filename self filetype) ;
  pickle_dump data filename.

Definition save_map (self : Settings (D:=D)) (map : folium_map) : io unit :=
  λ fs, if can_write (map_filename self) then (<[map_filename self := Html map]> fs, Returns ())
        else (fs, Raises OSError).

(** *** [compress_and_compare_voyages.py] on the values of the pipeline *)

(** [get_data(settings)] *)
Definition get_data (settings : Settings (D:=D)) : io pyval :=
  pickle_load (voyages_filename settings).

(** [cc.compress_voyages(data, epsilon, name)]: its first statement,
    [df.droplevel("IMO")], is an [AttributeError] on a value that is no
    frame. *)
Definition cc_compress_voyages (data : pyval) (epsilon : D) (name : string) : result pyval :=
  match data with
  | PFrame df =>
      r ← compress_voyages pldist gtb cpu_count df epsilon name ;
      Ok (from_option PVoyages PNone r)
  | _ => Err AttributeError
  end.

(** [cc.calc_proximity_matrix(data, name)]: under ["__main__"], [len] of
    [None] is a [TypeError] and an array has no [keys].  What the function
    does with a frame (its columns taken for voyages) is
    [proximity_of_frame]. *)
Context (proximity_of_frame : list (ais_row (D:=D)) → outcome pyval).

Definition cc_calc_proximity_matrix (data : pyval) (name : string) : io pyval :=
  if decide (name = main_name) then
    match data with
    | PVoyages d =>
        r ← pure (calc_proximity_matrix zero add dtw cpu_count d name) ;
        mret (from_option PMatrix PNone r)
    | PNone => raise (Raised TypeError)
    | PMatrix _ => raise (Raised AttributeError)
    | PFrame df => external (proximity_of_frame df)
    end
  else mret PNone.

(** *** The stages *)

(** [features settings] stands for the frame that [cf.main] computes
    from the AIS data, which it writes to the voyages file and returns;
    [cm_main] for the map that [cm.main] draws. *)
Context (features : Settings (D:=D) → outcome (list (ais_row (D:=D)))).
Context (cm_main : Settings (D:=D) → pyval → option (list (string * Z)) → outcome folium_map).

Definition cf_main (settings : Settings (D:=D)) : io pyval :=
  df_features ← external (features settings) ;
  _ ← write_data settings (PFrame df_features) "voyages" ;
  mret (PFrame df_features).

Definition run_features (settings : Settings (D:=D)) : io pyval :=
  if bool_decide ("features" ∈ stages settings) then cf_main settings
  else mret PNone.

Definition compress_voyages (settings : Settings (D:=D)) (data : pyval) (name : string)
  : io pyval :=
  if bool_decide ("compression" ∉ stages settings) then mret data
  else
    data ← match data with
           | PNone => read_data_file settings "voyages"
           | _ => mret data
           end ;
    compressed_voyages ← pure (cc_compress_voyages data (compression_eps settings) name) ;
    _ ← write_data settings compressed_voyages "compressed" ;
    mret compressed_voyages.

Definition compare_voyages (settings : Settings (D:=D)) (data : pyval) (name : string)
  : io pyval :=
  if bool_decide ("dtw" ∉ stages settings) then mret data
  else
    data ← match data with
           | PFrame df => mret (PVoyages (extract_coords df))
           | PNone => read_data_file settings "compressed"
           | _ => mret data
           end ;
    proximity_matrix ← cc_calc_proximity_matrix data name ;
    _ ← write_data settings proximity_matrix "proximity" ;
    mret proximity_matrix.

(** [clusterer.fit(distance_matrix)]: [None] and a dictionary are rejected
    with a [ValueError]; what the clusterer does with a frame is
    [fit_frame]. *)
Context (fit_frame : D → list (ais_row (D:=D)) → outcome (list Z)).

Definition DBSCAN_fit (eps : D) (distance_matrix : pyval) : io (list Z) :=
  match distance_matrix with
  | PMatrix a => pure (DBSCAN_fit_predict zero leb isfinite eps a)
  | PFrame df => external (fit_frame eps df)
  | PNone | PVoyages _ => raise (Raised ValueError)
  end.

(** [voyage_dict.keys()]; the keys of a frame are its columns,
    [frame_columns]. *)
Context (frame_columns : list (ais_row (D:=D)) → list string).

Definition keys_of (voyage_dict : pyval) : result (list string) :=
  match voyage_dict with
  | PVoyages d => Ok (dict_keys d)
  | PFrame df => Ok (frame_columns df)
  | PNone | PMatrix _ => Err AttributeError
  end.

Definition cluster_voyages (settings : Settings (D:=D)) (voyage_dict distance_matrix : pyval)
  : io (option (list (string * Z))) :=
  if bool_decide ("clustering" ∉ stages settings) then mret None
  else
    voyage_dict ← match voyage_dict with
                  | PNone => read_data_file settings "compressed"
                  | PFrame df => mret (PVoyages (extract_coords df))
                  | _ => mret voyage_dict
                  end ;
    distance_matrix ← match distance_matrix with
                      | PNone => read_data_file settings "proximity"
                      | _ => mret distance_matrix
                      end ;
    labels_ ← DBSCAN_fit (clustering_eps settings) distance_matrix ;
    keys ← pure (keys_of voyage_dict) ;
    mret (Some (dict_of_items (zip keys labels_))).

Definition make_voyage_maps (settings : Settings (D:=D)) (dataf : pyval)
    (voyage_clusters : option (list (string * Z))) : io (option folium_map) :=
  if bool_decide ("plotting" ∉ stages settings) then mret None
  else
    dataf ← match dataf with
            | PNone => read_data_file settings "voyages"
            | _ => mret dataf
            end ;
    let voyage_clusters :=
      match voyage_clusters with
      | Some clusters =>
          if bool_decide ((-1)%Z ∈ dict_values clusters)
          then Some (make_binary_class clusters)
          else Some clusters
      | None => None
      end in
    map ← external (cm_main settings dataf voyage_clusters) ;
    _ ← save_map settings map ;
    mret (Some map).

(** The five stages of [run_pipeline], on the settings it has made. *)
Definition run_stages (pipeline_settings : Settings (D:=D)) (name : string) : io unit :=
  data ← run_features pipeline_settings ;
  voyage_dict ← compress_voyages pipeline_settings data name ;
  proximity_matrix ← compare_voyages pipeline_settings voyage_dict name ;
  clusters ← cluster_voyages pipeline_settings voyage_dict proximity_matrix ;
  map ← make_voyage_maps pipeline_settings data clusters ;
  mret ().

(** [run_pipeline(configfile, name)] on the tables of the parsed
    configuration file, with the files it reads and writes. *)
Context (ltb : D → D → bool) (path_exists path_isfile path_isdir : string → bool).
Context (normpath : string → string) (now_stamp : string).
Context (default_bbox : D * D * D * D) (default_compression_eps default_clustering_eps : D).

Definition run_pipeline (configs : list (string * options (D:=D))) (name : string) : io unit :=
  general_options ← pure (dict_get configs "global") ;
  pipeline_settings ←
    pure (Settings_init zero ltb path_exists path_isfile path_isdir normpath now_stamp
            default_bbox default_compression_eps default_clustering_eps general_options) ;
  run_stages pipeline_settings name.
End pipeline.

Arguments pyval D : clear implicits.
Arguments PNone {D}.
Arguments file D folium_map : clear implicits.
Arguments io D folium_map A : clear implicits.
End MainPipeline.

(** ** A run of the pipeline on integer coordinates *)
Module PipelineRuns.
Import IntegerRuns MainPipeline.
Local Open Scope Z_scope.

(** Settings as the constructor makes them for the suffix ["run"] and
    the default output folder, with the stages given. *)
Definition settings_with (stages : list string) : Settings (D:=Z) :=
  MkSettings "../../data/ais2018_chemical_tanker.csv" "../../data/imo_km_oil.csv"
             "../output" (9, 56, 25, 66) default_EezFiles stages "run" 1 12
             "../output/reduced_data_run.pkl" "../output/compressed_voyages_run.pkl"
             "../output/proximity_matrix_run.pkl" "../output/voyage_map_run.html".

(** The settings of a clustering alone at the radius zero, which the
    constructor accepts. *)
Definition zero_radius_settings : Settings (D:=Z) :=
  MkSettings "../../data/ais2018_chemical_tanker.csv" "../../data/imo_km_oil.csv"
             "../output" (9, 56, 25, 66) default_EezFiles ["clustering"] "run" 1 0
             "../output/reduced_data_run.pkl" "../output/compressed_voyages_run.pkl"
             "../output/proximity_matrix_run.pkl" "../output/voyage_map_run.html".

(** The voyages file alone, with a frame of three voyages. *)
Definition voyages_only : gmap string (file Z unit) :=
  {[ "../output/reduced_data_run.pkl" := Pickle (PFrame three_voyages) ]}.

(** The files of two compressed voyages and of their matrix. *)
Definition two_files : gmap string (file Z unit) :=
  {[ "../output/compressed_voyages_run.pkl" :=
       Pickle (PVoyages [("v1", northbound 0); ("v2", northbound 1)]) ;
     "../output/proximity_matrix_run.pkl" := Pickle (PMatrix (Arr2 2 [[0; 3]; [3; 0]])) ]}.

(** The stages run with four processors, every file writable, a map that
    is always drawn, and no frame but that of the voyages. *)
Definition run_stages_on (stages : list string) (name : string)
  : io Z unit unit :=
  run_stages 0 Z.add Z.leb (λ _, true) Z.gtb doubled_area dtw_l1 4 (λ _, true)
    (λ _, Raises OtherError) (λ _, Raises OtherError) (λ _ _ _, Returns ())
    (λ _ _, Raises OtherError) (λ _, []) (settings_with stages) name.
End PipelineRuns.

(** * Properties *)

(** ** The error monad *)

Lemma rbind_ok {A B} (r : result A) (k : A → result B) b :
  rbind r k = Ok b ↔ ∃ a, r = Ok a ∧ k a = Ok b.
Proof.
  destruct r as [a|e]; simpl; split.
  - intros H. by exists a.
  - by intros (a' & [= ->] & H).
  - intros [=].
  - by intros (a' & [=] & _).
Qed.

Lemma rmapM_lookup {A B} (f : A → result B) xs ys i y :
  rmapM f xs = Ok ys → ys !! i = Some y → ∃ x, xs !! i = Some x ∧ f x = Ok y.
Proof.
  revert ys i. induction xs as [|x xs IH]; intros ys i; simpl.
  - intros [= <-]. by rewrite lookup_nil.
  - intros (y0 & Hy0 & (ys' & Hys & [= <-])%rbind_ok)%rbind_ok.
    destruct i as [|i]; simpl.
    + intros [= ->]. by exists x.
    + intros Hi. by apply (IH ys').
Qed.

Lemma rmapM_total {A B} (f : A → result B) xs :
  Forall (λ x, is_ok (f x)) xs → is_ok (rmapM f xs).
Proof.
  induction 1 as [|x xs [y Hy] _ [ys Hys]]; simpl.
  - by exists [].
  - exists (y :: ys). by rewrite Hy, Hys.
Qed.

(** ** Exactness of the halving below 2^53 *)
Section binary64_facts.
Import Binary64.
Local Open Scope Z_scope.

(** The rounding at the first integers that binary64 cannot hold, and the
    two halvings that Python gets wrong at [i = 2^27 + 1] and
    [i = 2^27 + 2]. *)
Example round_nearest_even_examples :
  round_nearest_even (2 ^ 53) = 2 ^ 53 ∧
  round_nearest_even (2 ^ 53 + 1) = 2 ^ 53 ∧
  round_nearest_even (2 ^ 53 + 2) = 2 ^ 53 + 2 ∧
  round_nearest_even (2 ^ 53 + 3) = 2 ^ 53 + 4 ∧
  round_nearest_even (2 ^ 54 + 2) = 2 ^ 54 ∧
  round_nearest_even (2 ^ 54 + 6) = 2 ^ 54 + 8 ∧
  int_truediv2 (134217729 * 134217730) = Ok 9007199456067584 ∧
  134217729 * 134217730 / 2 = 9007199456067585 ∧
  int_truediv2 (134217730 * 134217731) = Ok 9007199590285316 ∧
  134217730 * 134217731 / 2 = 9007199590285315 ∧
  int_truediv2 (-3) = Ok (-1) ∧
  int_truediv2 (2 ^ 1025) = Err OverflowError.
Proof. by vm_compute. Qed.

Lemma round_nearest_even_small m :
  m < 2 ^ prec → round_nearest_even m = m.
Proof.
  intros Hm. unfold round_nearest_even.
  destruct (Z.ltb_spec m (2 ^ prec)); [done | lia].
Qed.

(** Below 2^53 the division is exact up to truncation. *)
Lemma int_truediv2_exact x :
  0 ≤ x < 2 ^ prec → int_truediv2 x = Ok (x / 2).
Proof.
  intros [H0 H1]. unfold int_truediv2.
  rewrite Z.abs_eq by done.
  rewrite round_nearest_even_small by done.
  destruct (Z.leb_spec (2 ^ 1025) x) as [Hbig|_].
  - exfalso. assert (2 ^ prec < 2 ^ 1025) by (by vm_compute). lia.
  - f_equal. destruct (Z.eq_dec x 0) as [->|Hx]; [done|].
    rewrite Z.sgn_pos by lia. lia.
Qed.
End binary64_facts.

(** ** The triangular index over the integers *)
Section triangular_facts.
Import Binary64 Triangular.
Local Open Scope Z_scope.

Lemma half_succ i : (i + 1) * (i + 2) / 2 = i * (i + 1) / 2 + (i + 1).
Proof.
  replace ((i + 1) * (i + 2)) with (i * (i + 1) + (i + 1) * 2) by ring.
  by rewrite Z.div_add.
Qed.

Lemma half_double i : 2 * (i * (i + 1) / 2) = i * (i + 1).
Proof.
  destruct (Z.Even_or_Odd i) as [[k ->]|[k ->]].
  - replace (2 * k * (2 * k + 1)) with (k * (2 * k + 1) * 2) by ring.
    rewrite Z.div_mul by done. ring.
  - replace ((2 * k + 1) * (2 * k + 1 + 1)) with ((2 * k + 1) * (k + 1) * 2) by ring.
    rewrite Z.div_mul by done. ring.
Qed.

Lemma row_start_succ n i : row_start n (i + 1) = row_start n i + (n - i - 1).
Proof.
  unfold row_start. replace (i + 1 + 1) with (i + 2) by ring.
  rewrite half_succ. ring.
Qed.

Lemma row_start_0 n : row_start n 0 = 0.
Proof. unfold row_start. by rewrite Z.mul_0_r. Qed.

Lemma row_start_last n : row_start n (n - 1) = n * (n - 1) / 2.
Proof.
  unfold row_start. replace (n - 1 + 1) with n by ring.
  pose proof (half_double (n - 1)) as H.
  replace (n - 1 + 1) with n in H by ring.
  replace (n * (n - 1)) with ((n - 1) * n) by ring. lia.
Qed.

Lemma row_start_mono n (d : nat) i :
  0 ≤ i → i + Z.of_nat d ≤ n - 1 → row_start n i ≤ row_start n (i + Z.of_nat d).
Proof.
  induction d as [|d IH]; intros Hi Hd.
  - by rewrite Z.add_0_r.
  - rewrite Nat2Z.inj_succ, <- Z.add_1_r, Z.add_assoc, row_start_succ.
    etrans; [apply IH; lia|]. lia.
Qed.

Lemma row_start_le n i i' :
  0 ≤ i ≤ i' → i' ≤ n - 1 → row_start n i ≤ row_start n i'.
Proof.
  intros [H0 H1] H2.
  replace i' with (i + Z.of_nat (Z.to_nat (i' - i))) by lia.
  apply row_start_mono; lia.
Qed.

(** As long as [i * (i + 1)] stays below 2^53 the float division is exact
    and the index is the triangular formula over the integers. *)
Lemma flat_index_exact n i j :
  0 ≤ i → i * (i + 1) < 2 ^ 53 →
  flat_index n i j = Ok (row_start n i + (j - i - 1)).
Proof.
  intros H0 H1. unfold flat_index.
  rewrite int_truediv2_exact by (split; [nia | done]).
  simpl. unfold row_start. f_equal. ring.
Qed.

Lemma small_square n i : n * n ≤ 2 ^ 53 → 0 ≤ i → i + 1 < n → i * (i + 1) < 2 ^ 53.
Proof. intros. nia. Qed.

Lemma number_combinations_exact n :
  0 ≤ n → n * n ≤ 2 ^ 53 → number_combinations n = Ok (n * (n - 1) / 2).
Proof.
  intros H0 H1. unfold number_combinations.
  destruct (Z.eq_dec n 0) as [->|Hn]; [done|].
  apply int_truediv2_exact. unfold prec. nia.
Qed.

(** Every index below the start of row [m] is the index of a pair. *)
Lemma flat_index_covers n (m : nat) k :
  n * n ≤ 2 ^ 53 → Z.of_nat m ≤ n - 1 → 0 ≤ k < row_start n (Z.of_nat m) →
  ∃ i j, 0 ≤ i < j ∧ j < n ∧ flat_index n i j = Ok k.
Proof.
  intros Hn. induction m as [|m IH]; intros Hm Hk.
  - rewrite row_start_0 in Hk. lia.
  - rewrite Nat2Z.inj_succ, <- Z.add_1_r in Hm, Hk.
    rewrite row_start_succ in Hk.
    destruct (Z.lt_ge_cases k (row_start n (Z.of_nat m))) as [Hlt|Hge].
    + apply IH; lia.
    + exists (Z.of_nat m), (k - row_start n (Z.of_nat m) + Z.of_nat m + 1).
      split; [lia|]. split; [lia|].
      rewrite flat_index_exact by (first [lia | apply (small_square n); lia]).
      f_equal. lia.
Qed.
End triangular_facts.

Section triangular_bijection.
Import Binary64 Triangular.
Local Open Scope Z_scope.

Lemma flat_index_in_range n i j :
  n * n ≤ 2 ^ 53 → 0 ≤ i < j → j < n →
  ∃ k, flat_index n i j = Ok k ∧ row_start n i ≤ k < row_start n (i + 1).
Proof.
  intros Hn Hij Hj. eexists. split.
  - apply flat_index_exact; [lia | apply (small_square n); lia].
  - rewrite row_start_succ. lia.
Qed.

Lemma flat_index_injective n i j i' j' k :
  n * n ≤ 2 ^ 53 → 0 ≤ i < j → j < n → 0 ≤ i' < j' → j' < n →
  flat_index n i j = Ok k → flat_index n i' j' = Ok k → i = i' ∧ j = j'.
Proof.
  intros Hn Hij Hj Hij' Hj' Hk Hk'.
  destruct (flat_index_in_range n i j) as (k1 & E1 & B1); [done..|].
  destruct (flat_index_in_range n i' j') as (k2 & E2 & B2); [done..|].
  rewrite Hk in E1. rewrite Hk' in E2. simplify_eq.
  assert (i = i') as <-.
  { destruct (Z.lt_trichotomy i i') as [Hlt|[Heq|Hgt]]; [|done|].
    - pose proof (row_start_le n (i + 1) i'). lia.
    - pose proof (row_start_le n (i' + 1) i). lia. }
  split; [done|].
  rewrite flat_index_exact in Hk, Hk' by (first [lia | apply (small_square n); lia]).
  simplify_eq. lia.
Qed.

Lemma flat_index_slot n i j :
  n * n ≤ 2 ^ 53 → 0 ≤ i < j → j < n →
  ∃ k, flat_index n i j = Ok k ∧ 0 ≤ k < n * (n - 1) / 2.
Proof.
  intros Hn Hij Hj.
  destruct (flat_index_in_range n i j) as (k & E & B); [done..|].
  exists k. split; [done|].
  pose proof (row_start_le n 0 i). rewrite row_start_0 in *.
  pose proof (row_start_le n (i + 1) (n - 1)). rewrite row_start_last in *. lia.
Qed.

Lemma flat_index_onto n k :
  2 ≤ n → n * n ≤ 2 ^ 53 → 0 ≤ k < n * (n - 1) / 2 →
  ∃ i j, 0 ≤ i < j ∧ j < n ∧ flat_index n i j = Ok k.
Proof.
  intros H2 Hn Hk. rewrite <- row_start_last in Hk.
  apply (flat_index_covers n (Z.to_nat (n - 1))); [done|lia|].
  by rewrite Z2Nat.id by lia.
Qed.

(** C1: while the square of the corpus size is at most 2^53 (up to
    94,906,265 voyages), the index of [calc_proximity_matrix] is a
    bijection from the pairs [i < j < n] onto the slots [0 .. n(n-1)/2 - 1]
    of [inputs], and [number_combinations] is the number of those slots.
    The bound holds of every corpus that a run can hold: beyond it,
    [inputs] alone would have more than 2^52 slots of eight bytes. *)
Theorem flat_index_bijection_bounded n :
  2 ≤ n → n * n ≤ 2 ^ 53 →
  number_combinations n = Ok (n * (n - 1) / 2) ∧
  (∀ i j, 0 ≤ i < j → j < n →
     ∃ k, flat_index n i j = Ok k ∧ 0 ≤ k < n * (n - 1) / 2) ∧
  (∀ i j i' j' k, 0 ≤ i < j → j < n → 0 ≤ i' < j' → j' < n →
     flat_index n i j = Ok k → flat_index n i' j' = Ok k → i = i' ∧ j = j') ∧
  (∀ k, 0 ≤ k < n * (n - 1) / 2 →
     ∃ i j, 0 ≤ i < j ∧ j < n ∧ flat_index n i j = Ok k).
Proof.
  intros H2 Hn. split; [|split; [|split]].
  - apply number_combinations_exact; lia.
  - intros i j Hij Hj. by apply flat_index_slot.
  - intros. by eapply flat_index_injective.
  - intros k Hk. by apply flat_index_onto.
Qed.

Lemma flat_index_bijection_bounded_witness :
  number_combinations 4 = Ok 6 ∧
  (∀ i j, 0 ≤ i < j → j < 4 → ∃ k, flat_index 4 i j = Ok k ∧ 0 ≤ k < 6).
Proof.
  destruct (flat_index_bijection_bounded 4) as (H1 & H2 & _); [lia | by vm_compute |].
  split; [exact H1 | exact H2].
Defined.

(** The bound in bytes: it holds whenever the object slots of [inputs],
    of eight bytes each, take no more than 2^54 bytes (16 PiB). *)
Lemma work_array_bound n :
  2 ≤ n → 8 * (n * (n - 1) / 2) ≤ 2 ^ 54 → n * n ≤ 2 ^ 53.
Proof.
  intros H2 Hbytes.
  change (2 ^ 54) with 18014398509481984 in Hbytes.
  change (2 ^ 53) with 9007199254740992.
  assert (n * (n - 1) ≤ 4503599627370497) as Hprod.
  { generalize dependent (n * (n - 1)). intros p Hbytes.
    pose proof (Z.mod_pos_bound p 2 ltac:(lia)) as Hmod.
    pose proof (Z.div_mod p 2 ltac:(lia)) as Hdiv. lia. }
  assert (n ≤ 67108865) as Hn by nia.
  nia.
Qed.

(** The bound is needed by the two expressions, taken on their own:
    [i * (i + 1) / 2] is a float division, and for [i = 2^27 + 1] and
    [i = 2^27 + 2] the quotient is not a binary64 value.  The first is
    rounded down and the second up, so that at [n = 2^27 + 4] two pairs are
    given one index; at [n = 2^27 + 2], [number_combinations] is one less
    than the number of pairs.  No run gets there: [np.empty] cannot make
    an array of that many slots. *)
Theorem flat_index_collision :
  let n := 2 ^ 27 + 4 in
  flat_index n (2 ^ 27 + 1) (2 ^ 27 + 2) = Ok 9007199724503044 ∧
  flat_index n (2 ^ 27 + 2) (2 ^ 27 + 3) = Ok 9007199724503044 ∧
  row_start n (2 ^ 27 + 1) + (2 ^ 27 + 2 - (2 ^ 27 + 1) - 1) = 9007199724503043 ∧
  row_start n (2 ^ 27 + 2) + (2 ^ 27 + 3 - (2 ^ 27 + 2) - 1) = 9007199724503045 ∧
  let m := 2 ^ 27 + 2 in
  number_combinations m = Ok 9007199456067584 ∧
  m * (m - 1) / 2 = 9007199456067585 ∧
  flat_index m (m - 2) (m - 1) = Ok 9007199456067584.
Proof. by vm_compute. Qed.
End triangular_bijection.

(** ** Loops that may raise *)

Lemma bind_ok {A B} (r : result A) (k : A → result B) b :
  (r ≫= k) = Ok b ↔ ∃ a, r = Ok a ∧ k a = Ok b.
Proof. apply rbind_ok. Qed.

Lemma rfoldM_invariant {A S} (P : S → Prop) (f : S → A → result S) xs s s' :
  (∀ s x s', x ∈ xs → P s → f s x = Ok s' → P s') →
  P s → rfoldM f s xs = Ok s' → P s'.
Proof.
  revert s. induction xs as [|x xs IH]; intros s Hstep Hs; simpl.
  - by intros [= <-].
  - intros (s1 & H1 & H2)%bind_ok.
    apply (IH s1); [|by eapply Hstep; [left|..]|done].
    intros ? ? ? ?. apply Hstep. by right.
Qed.

Lemma rfoldM_total {A S} (P : S → Prop) (f : S → A → result S) xs s :
  (∀ s x, x ∈ xs → P s → ∃ s', f s x = Ok s' ∧ P s') →
  P s → ∃ s', rfoldM f s xs = Ok s' ∧ P s'.
Proof.
  revert s. induction xs as [|x xs IH]; intros s Hstep Hs; simpl.
  - by exists s.
  - destruct (Hstep s x) as (s1 & -> & Hs1); [by left|done|]. simpl.
    apply IH; [|done]. intros ? ? ?. apply Hstep. by right.
Qed.

(** ** Arrays *)
Section numpy_facts.
Context {D : Type} (zero : D) (add : D → D → D).
Implicit Types (a : ndarray D) (rows : list (list D)).

Lemma np_setitem1_insert {A} (xs ys : list A) k v :
  np_setitem1 xs k v = Ok ys → ∃ k', ys = <[k' := v]> xs.
Proof.
  unfold np_setitem1. repeat case_bool_decide; intros [=]; eauto.
Qed.

Lemma np_setitem1_in_range {A} (xs : list A) k v :
  (0 ≤ k < Z.of_nat (length xs))%Z →
  np_setitem1 xs k v = Ok (<[Z.to_nat k := v]> xs).
Proof. intros Hk. unfold np_setitem1. by rewrite bool_decide_eq_true_2. Qed.

Lemma get2_zeros r c i j :
  i < r → j < c → get2 (np_zeros2 zero r c) i j = Some zero.
Proof.
  intros Hi Hj. simpl. rewrite lookup_replicate_2 by done. simpl.
  by rewrite lookup_replicate_2.
Qed.

Lemma get2_transpose c rows i j :
  i < c → j < length rows → Forall (λ r, length r = c) rows →
  get2 (np_transpose zero (Arr2 c rows)) i j = get2 (Arr2 c rows) j i.
Proof.
  intros Hi Hj Hwf. simpl.
  rewrite list_lookup_fmap, lookup_seq_lt by done. simpl.
  rewrite list_lookup_fmap.
  destruct (lookup_lt_is_Some_2 rows j Hj) as [r Hr]. rewrite Hr. simpl.
  assert (length r = c) as Hlen.
  { eapply (Forall_lookup_1 _ _ _ _ Hwf Hr). }
  destruct (lookup_lt_is_Some_2 r i) as [x Hx]; [lia|]. by rewrite Hx.
Qed.

Lemma get2_add c rows rows' i j x y :
  get2 (Arr2 c rows) i j = Some x → get2 (Arr2 c rows') i j = Some y →
  get2 (Arr2 c (zip_with (zip_with add) rows rows')) i j = Some (add x y).
Proof.
  simpl. intros Hx Hy. rewrite lookup_zip_with.
  destruct (rows !! i) as [r|]; [|done].
  destruct (rows' !! i) as [r'|]; [|done]. simpl in *.
  rewrite lookup_zip_with. by rewrite Hx, Hy.
Qed.
End numpy_facts.

(** ** The distance matrix of [calc_proximity_matrix] *)
Section proximity_facts.
Context {D : Type} (zero : D) (add : D → D → D).
Context (dtw : ndarray D → ndarray D → result D) (cpu_count : Z).
(** Float addition is commutative, and [0.0 + 0.0] is [0.0]. *)
Hypothesis add_comm : ∀ x y, add x y = add y x.
Hypothesis add_zero : add zero zero = zero.

Lemma elem_of_pair_loop n i j : (i, j) ∈ pair_loop n ↔ i < j < n.
Proof.
  unfold pair_loop. rewrite list_elem_of_bind. split.
  - intros (i' & (j' & [= <- <-] & Hj%elem_of_seq)%list_elem_of_fmap & Hi%elem_of_seq). lia.
  - intros Hij. exists i. split.
    + apply list_elem_of_fmap. exists j. split; [done|]. apply elem_of_seq. lia.
    + apply elem_of_seq. lia.
Qed.

(** Every assigned slot of [inputs] holds a pair of the loops. *)
Definition inputs_ordered (n : nat) (inputs : list (option (work_item (D:=D)))) : Prop :=
  ∀ k i j ci cj, inputs !! k = Some (Some (i, j, ci, cj)) → i < j < n.

Lemma assign_input_ordered compressed_voyages voyages n inputs ij inputs' :
  ij ∈ pair_loop n → inputs_ordered n inputs →
  assign_input compressed_voyages voyages n inputs ij = Ok inputs' →
  inputs_ordered n inputs'.
Proof.
  destruct ij as [i j]. intros Hij%elem_of_pair_loop Hinv. unfold assign_input.
  intros (k & _ & (vi & _ & (vj & _ & (ci & _ & (cj & _ & Hset)%bind_ok)%bind_ok)%bind_ok)%bind_ok)%bind_ok.
  apply np_setitem1_insert in Hset as [k' ->].
  intros k0 i0 j0 ci0 cj0 Hlook.
  apply list_lookup_insert_Some in Hlook as [(_ & [= <- <- _ _] & _)|[_ Hlook]]; [done|].
  by eapply Hinv.
Qed.

(** An [n] by [n] matrix, and one whose entries on and below the diagonal
    are zero. *)
Definition square (n : nat) (M : ndarray D) : Prop :=
  ∃ rows, M = Arr2 n rows ∧ length rows = n ∧ Forall (λ r, length r = n) rows.

Definition strictly_upper (n : nat) (M : ndarray D) : Prop :=
  square n M ∧ ∀ i j, j ≤ i → i < n → get2 M i j = Some zero.

Lemma square_get2 n M i j : square n M → i < n → j < n → is_Some (get2 M i j).
Proof.
  intros (rows & -> & Hlen & Hwf) Hi Hj. simpl.
  destruct (lookup_lt_is_Some_2 rows i) as [r Hr]; [lia|]. rewrite Hr. simpl.
  apply lookup_lt_is_Some_2. by rewrite (Forall_lookup_1 _ _ _ _ Hwf Hr).
Qed.

Lemma zeros_strictly_upper n : strictly_upper n (np_zeros2 zero n n).
Proof.
  split.
  - eexists. split; [done|]. split; [by rewrite length_replicate|].
    apply Forall_replicate. by rewrite length_replicate.
  - intros i j Hji Hi. apply get2_zeros; lia.
Qed.

Lemma store_distance_strictly_upper n M i j d M' :
  i < j → strictly_upper n M → store_distance M (i, j, d) = Ok M' →
  strictly_upper n M'.
Proof.
  intros Hij [(rows & -> & Hlen & Hwf) Hz]. simpl.
  destruct (rows !! i) as [r|] eqn:Hr; [|done].
  case_decide; [|done]. intros [= <-]. split.
  - eexists. split; [done|]. split; [by rewrite length_insert|].
    apply Forall_insert; [done|]. rewrite length_insert.
    by apply (Forall_lookup_1 _ _ _ _ Hwf Hr).
  - intros a b Hba Ha. specialize (Hz a b Hba Ha). simpl in *.
    destruct (decide (a = i)) as [->|Hne].
    + rewrite list_lookup_insert_eq by (by eapply lookup_lt_Some). simpl.
      rewrite Hr in Hz. simpl in Hz. rewrite list_lookup_insert_ne by lia. done.
    + by rewrite list_lookup_insert_ne.
Qed.

Lemma add_transpose_symmetric n M M' :
  strictly_upper n M → np_add add M (np_transpose zero M) = Ok M' →
  square n M' ∧
  (∀ i j, i < n → j < n → ∃ d, get2 M' i j = Some d ∧ get2 M' j i = Some d) ∧
  (∀ i, i < n → get2 M' i i = Some zero).
Proof.
  intros [(rows & -> & Hlen & Hwf) Hz]. unfold np_add. case_decide; [|done].
  simpl. intros [= <-].
  set (rowsT := (λ j, (λ r, default zero (r !! j)) <$> rows) <$> seq 0 n).
  assert (∀ i j, i < n → j < n →
            ∃ x y, get2 (Arr2 n rows) i j = Some x ∧ get2 (Arr2 n rows) j i = Some y ∧
                   get2 (Arr2 n (zip_with (zip_with add) rows rowsT)) i j = Some (add x y))
    as Hget.
  { intros i j Hi Hj.
    destruct (square_get2 n (Arr2 n rows) i j) as [x Hx]; [by exists rows|done..|].
    destruct (square_get2 n (Arr2 n rows) j i) as [y Hy]; [by exists rows|done..|].
    exists x, y. split; [done|]. split; [done|].
    apply get2_add; [done|].
    pose proof (get2_transpose zero n rows i j) as HT. unfold np_transpose in HT.
    rewrite Hlen in HT. fold rowsT in HT. rewrite HT by (done || lia). done. }
  split; [|split].
  - eexists. split; [done|]. split.
    + rewrite length_zip_with, Hlen. unfold rowsT.
      rewrite length_fmap, length_seq. lia.
    + apply Forall_lookup_2. intros i r Hr.
      apply lookup_zip_with_Some in Hr as (r1 & r2 & -> & Hr1 & Hr2).
      unfold rowsT in Hr2. apply list_lookup_fmap_Some in Hr2 as (j & -> & Hj).
      rewrite length_zip_with, length_fmap, Hlen.
      rewrite (Forall_lookup_1 _ _ _ _ Hwf Hr1). lia.
  - intros i j Hi Hj.
    destruct (Hget i j Hi Hj) as (x & y & Hx & Hy & Hxy).
    destruct (Hget j i Hj Hi) as (y' & x' & Hy' & Hx' & Hyx).
    rewrite Hy in Hy'. rewrite Hx in Hx'. simplify_eq.
    exists (add x' y'). split; [done|]. by rewrite (add_comm x' y').
  - intros i Hi. destruct (Hget i i Hi Hi) as (x & y & Hx & Hy & Hxy).
    rewrite Hz in Hx, Hy by lia. simplify_eq. by rewrite add_zero in Hxy.
Qed.

Lemma fill_ordered compressed_voyages voyages n slots inputs :
  rfoldM (assign_input compressed_voyages voyages n) (replicate slots None) (pair_loop n)
  = Ok inputs →
  inputs_ordered n inputs.
Proof.
  apply rfoldM_invariant.
  - intros ? ? ? ?. by apply assign_input_ordered.
  - intros k i j ci cj [? _]%lookup_replicate. done.
Qed.

Lemma starmap_ordered n inputs res i j d :
  inputs_ordered n inputs → starmap_proximity dtw inputs = Ok res →
  (i, j, d) ∈ res → i < j < n.
Proof.
  intros Hord Hres [k Hk]%list_elem_of_lookup.
  destruct (rmapM_lookup _ _ _ _ _ Hres Hk) as ([[[[i0 j0] ci] cj]|] & Hlook & Hitem); [|done].
  unfold proximity_parallel in Hitem.
  apply bind_ok in Hitem as (d0 & _ & [= -> -> ->]). by eapply Hord.
Qed.

Lemma store_distance_total n M i j d :
  i < n → j < n → square n M → ∃ M', store_distance M (i, j, d) = Ok M' ∧ square n M'.
Proof.
  intros Hi Hj (rows & -> & Hlen & Hwf). simpl.
  destruct (lookup_lt_is_Some_2 rows i) as [r Hr]; [lia|]. rewrite Hr.
  rewrite decide_True by done. eexists. split; [done|].
  eexists. split; [done|]. split; [by rewrite length_insert|].
  apply Forall_insert; [done|]. rewrite length_insert.
  by apply (Forall_lookup_1 _ _ _ _ Hwf Hr).
Qed.

Lemma add_transpose_total n M : square n M → is_ok (np_add add M (np_transpose zero M)).
Proof.
  intros (rows & -> & Hlen & Hwf). unfold np_add. rewrite decide_True; [by eexists|].
  simpl. by rewrite length_fmap, length_seq, Hlen.
Qed.

(** C2: the matrix that [calc_proximity_matrix] returns has one row and
    one column per voyage of the corpus, equal entries at [(i, j)] and
    [(j, i)], and zeros on its diagonal. *)
Theorem calc_proximity_matrix_symmetric compressed_voyages name M :
  calc_proximity_matrix zero add dtw cpu_count compressed_voyages name = Ok (Some M) →
  let n := length compressed_voyages in
  shape M = [n; n] ∧ wf_ndarray M ∧
  (∀ i j, i < n → j < n → ∃ d, get2 M i j = Some d ∧ get2 M j i = Some d) ∧
  (∀ i, i < n → get2 M i i = Some zero).
Proof.
  unfold calc_proximity_matrix. case_decide; [|done].
  intros (nc & _ & (inputs & Hin & (_ & _ & (res & Hres & (dist & Hdist &
            (M' & Hadd & [= ->])%bind_ok)%bind_ok)%bind_ok)%bind_ok)%bind_ok)%bind_ok.
  set (n := length compressed_voyages) in *.
  apply fill_ordered in Hin.
  assert (strictly_upper n dist) as Hupper.
  { revert Hdist. apply rfoldM_invariant; [|apply zeros_strictly_upper].
    intros M0 [[i j] d] M1 Hitem HM0. apply (store_distance_strictly_upper n); [|done].
    by destruct (starmap_ordered n inputs res i j d). }
  destruct (add_transpose_symmetric n dist M Hupper Hadd) as ((rows & -> & Hlen & Hwf) & Hsym & Hdiag).
  split; [simpl; by rewrite Hlen|]. by repeat split.
Qed.
End proximity_facts.

(** ** Dictionaries *)
Section pydict_facts.
Context {K V : Type} `{EqDecision K}.
Implicit Types (d e : list (K * V)).

Lemma dict_get_elem_of d k v : dict_get d k = Ok v → (k, v) ∈ d.
Proof.
  induction d as [|[k' v'] d IH]; csimpl; [done|].
  case_decide as Hk.
  - intros [= ->]. subst. by left.
  - intros ?. right. by apply IH.
Qed.

Lemma dict_get_total d k : k ∈ dict_keys d → is_ok (dict_get d k).
Proof.
  unfold dict_keys. induction d as [|[k' v'] d IH]; csimpl.
  - by intros ?%elem_of_nil.
  - intros Hk. case_decide; [by eexists|].
    apply IH. by apply elem_of_cons in Hk as [->|Hk].
Qed.

Lemma dict_keys_set d k v :
  dict_keys (dict_set d k v) =
  if bool_decide (k ∈ dict_keys d) then dict_keys d else dict_keys d ++ [k].
Proof.
  unfold dict_keys. induction d as [|[k' v'] d IH]; csimpl; [done|].
  destruct (decide (k' = k)) as [->|Hk]; csimpl.
  - rewrite bool_decide_eq_true_2; [done|by left].
  - rewrite IH. case_bool_decide as Hin.
    + rewrite bool_decide_eq_true_2; [done|by right].
    + rewrite bool_decide_eq_false_2; [done|].
      intros [?|?]%elem_of_cons; by simplify_eq.
Qed.

Lemma dict_set_NoDup d k v : NoDup (dict_keys d) → NoDup (dict_keys (dict_set d k v)).
Proof.
  intros Hd. rewrite dict_keys_set. case_bool_decide as Hin; [done|].
  apply NoDup_app. split; [done|]. split; [|apply NoDup_singleton].
  by intros x Hx ->%list_elem_of_singleton.
Qed.

Lemma dict_keys_update d e x :
  x ∈ dict_keys (dict_update d e) ↔ x ∈ dict_keys d ∨ x ∈ dict_keys e.
Proof.
  unfold dict_update. revert d. induction e as [|[k v] e IH]; intros d; csimpl.
  - rewrite elem_of_nil. tauto.
  - rewrite IH, dict_keys_set, elem_of_cons.
    case_bool_decide as Hin.
    + split; [tauto|]. intros [?|[->|?]]; auto.
    + rewrite elem_of_app, list_elem_of_singleton. tauto.
Qed.

Lemma dict_update_NoDup d e : NoDup (dict_keys d) → NoDup (dict_keys (dict_update d e)).
Proof.
  unfold dict_update. revert d. induction e as [|[k v] e IH]; intros d Hd; csimpl; [done|].
  apply IH. by apply dict_set_NoDup.
Qed.
Lemma dict_set_same d k v : (k, v) ∈ d → NoDup (dict_keys d) → dict_set d k v = d.
Proof.
  unfold dict_keys. induction d as [|[k' v'] d IH]; csimpl; [by intros ?%elem_of_nil|].
  intros Hin Hnodup. apply NoDup_cons in Hnodup as [Hk' Hnodup].
  destruct (decide (k' = k)) as [->|Hne].
  - apply elem_of_cons in Hin as [[= ->]|Hin]; [done|].
    exfalso. apply Hk'. apply list_elem_of_fmap. by exists (k, v).
  - f_equal. apply IH; [|done]. apply elem_of_cons in Hin as [[= -> ->]|Hin]; done.
Qed.

(** [d.update(d)] changes nothing. *)
Lemma dict_update_self d : NoDup (dict_keys d) → dict_update d d = d.
Proof.
  intros Hnodup. unfold dict_update.
  assert (∀ e, e ⊆ d → foldl (λ acc kv, dict_set acc kv.1 kv.2) d e = d) as Hgen.
  { induction e as [|[k v] e IH]; intros Hsub; csimpl; [done|].
    rewrite dict_set_same; [|apply Hsub; by left|done].
    apply IH. intros x Hx. apply Hsub. by right. }
  by apply Hgen.
Qed.
End pydict_facts.

(** ** When [calc_proximity_matrix] returns *)
Section proximity_total.
Context {D : Type} (zero : D) (add : D → D → D).
Context (dtw : ndarray D → ndarray D → result D) (cpu_count : Z).
Context (compressed_voyages : list (string * ndarray D)).
Local Open Scope Z_scope.

Let n : nat := length compressed_voyages.
Let slots : nat := Z.to_nat (Z.of_nat n * (Z.of_nat n - 1) / 2).

Hypothesis corpus_size : Z.of_nat n * Z.of_nat n ≤ 2 ^ 53.
Hypothesis dtw_total :
  ∀ a b, a ∈ dict_values compressed_voyages → b ∈ dict_values compressed_voyages →
         is_ok (dtw a b).

Definition assigned (inputs : list (option (work_item (D:=D)))) (k : nat) : Prop :=
  ∃ item, inputs !! k = Some (Some item).

Definition inputs_from_corpus (inputs : list (option (work_item (D:=D)))) : Prop :=
  ∀ k i j ci cj, inputs !! k = Some (Some (i, j, ci, cj)) →
    ci ∈ dict_values compressed_voyages ∧ cj ∈ dict_values compressed_voyages.

Lemma corpus_lookup i :
  (i < n)%nat →
  ∃ vi ci, dict_keys compressed_voyages !! i = Some vi ∧
           dict_get compressed_voyages vi = Ok ci ∧
           ci ∈ dict_values compressed_voyages.
Proof.
  intros Hi.
  destruct (lookup_lt_is_Some_2 (dict_keys compressed_voyages) i) as [vi Hvi].
  { unfold dict_keys. by rewrite length_fmap. }
  destruct (dict_get_total compressed_voyages vi) as [ci Hci].
  { by eapply list_elem_of_lookup_2. }
  exists vi, ci. split; [done|]. split; [done|].
  apply dict_get_elem_of in Hci. unfold dict_values.
  apply list_elem_of_fmap. by exists (vi, ci).
Qed.

Lemma assign_input_total inputs i j :
  (i, j) ∈ pair_loop n → length inputs = slots →
  ∃ k ci cj,
    Triangular.flat_index (Z.of_nat n) (Z.of_nat i) (Z.of_nat j) = Ok (Z.of_nat k) ∧
    (k < slots)%nat ∧
    ci ∈ dict_values compressed_voyages ∧ cj ∈ dict_values compressed_voyages ∧
    assign_input compressed_voyages (dict_keys compressed_voyages) n inputs (i, j)
    = Ok (<[k := Some (i, j, ci, cj)]> inputs).
Proof.
  intros Hij%elem_of_pair_loop Hlen.
  destruct (flat_index_slot (Z.of_nat n) (Z.of_nat i) (Z.of_nat j)) as (k & Hk & Hrange);
    [done|lia..|].
  destruct (corpus_lookup i) as (vi & ci & Hvi & Hci & Hci'); [lia|].
  destruct (corpus_lookup j) as (vj & cj & Hvj & Hcj & Hcj'); [lia|].
  exists (Z.to_nat k), ci, cj. rewrite Z2Nat.id by lia.
  split; [done|]. split; [unfold slots; lia|]. split; [done|]. split; [done|].
  unfold assign_input. rewrite Hk. simpl. rewrite Hvi, Hvj. simpl.
  rewrite Hci, Hcj. simpl. apply np_setitem1_in_range. unfold slots in Hlen. lia.
Qed.

(** The loops assign the slot of every pair they visit, and leave the slots
    assigned that were. *)
Lemma fill_inputs pairs inputs :
  pairs ⊆ pair_loop n → length inputs = slots → inputs_from_corpus inputs →
  ∃ inputs',
    rfoldM (assign_input compressed_voyages (dict_keys compressed_voyages) n) inputs pairs
    = Ok inputs' ∧
    length inputs' = slots ∧ inputs_from_corpus inputs' ∧
    (∀ k, assigned inputs k → assigned inputs' k) ∧
    (∀ i j k, (i, j) ∈ pairs →
       Triangular.flat_index (Z.of_nat n) (Z.of_nat i) (Z.of_nat j) = Ok (Z.of_nat k) →
       assigned inputs' k).
Proof.
  revert inputs. induction pairs as [|[i j] pairs IH]; intros inputs Hsub Hlen Hfrom.
  - exists inputs. split; [done|]. split; [done|]. split; [done|]. split; [done|].
    by intros i j k ?%elem_of_nil.
  - destruct (assign_input_total inputs i j) as (k & ci & cj & Hk & Hlt & Hci & Hcj & Hstep);
      [apply Hsub; by left|done|].
    destruct (IH (<[k := Some (i, j, ci, cj)]> inputs)) as (inputs' & Hrun & Hlen' & Hfrom' & Hkeep & Hnew).
    { intros ? ?. apply Hsub. by right. }
    { by rewrite length_insert. }
    { intros k0 i0 j0 ci0 cj0 [(_ & [= <- <- <- <-] & _)|[_ Hl]]%list_lookup_insert_Some; [done|].
      by eapply Hfrom. }
    exists inputs'. cbn [rfoldM]. rewrite Hstep. cbn [mbind result_bind rbind].
    split; [done|]. split; [done|].
    split; [done|]. split.
    + intros k0 [item Hitem]. apply Hkeep.
      destruct (decide (k = k0)) as [->|Hne].
      * eexists. apply list_lookup_insert_eq. by eapply lookup_lt_Some.
      * exists item. by rewrite list_lookup_insert_ne.
    + intros i0 j0 k0 [[= -> ->]|Hin]%elem_of_cons Hflat; [|by eapply Hnew].
      rewrite Hk in Hflat. assert (k0 = k) as -> by (simplify_eq; lia).
      apply Hkeep. eexists. apply list_lookup_insert_eq. lia.
Qed.

(** Every slot of [inputs] is assigned when the loops end. *)
Lemma inputs_complete inputs k :
  rfoldM (assign_input compressed_voyages (dict_keys compressed_voyages) n)
    (replicate slots None) (pair_loop n) = Ok inputs →
  (k < slots)%nat → assigned inputs k ∧ inputs_from_corpus inputs ∧ length inputs = slots.
Proof.
  intros Hrun Hk.
  destruct (fill_inputs (pair_loop n) (replicate slots None))
    as (inputs' & Hrun' & Hlen & Hfrom & _ & Hnew);
    [done|by rewrite length_replicate| |].
  { intros k0 ? ? ? ? [? _]%lookup_replicate. done. }
  rewrite Hrun in Hrun'. injection Hrun' as <-. split; [|done].
  assert (2 ≤ Z.of_nat n).
  { destruct (Z.lt_ge_cases (Z.of_nat n) 2) as [Hsmall|]; [|done].
    assert (Z.of_nat n = 0 ∨ Z.of_nat n = 1) as [E|E] by lia;
      unfold slots in Hk; rewrite E in Hk; change (Z.to_nat _) with 0%nat in Hk; lia. }
  destruct (flat_index_onto (Z.of_nat n) (Z.of_nat k)) as (i & j & Hij & Hj & Hflat);
    [done..|unfold slots in Hk; lia|].
  apply (Hnew (Z.to_nat i) (Z.to_nat j)).
  - apply elem_of_pair_loop. lia.
  - by rewrite !Z2Nat.id by lia.
Qed.
(** [calc_proximity_matrix] returns a matrix when it is called with
    ["__main__"], a pool can be started, [dtw] succeeds on the voyages of the
    corpus and the corpus is small enough for its float divisions to be
    exact. *)
Theorem calc_proximity_matrix_returns :
  1 ≤ cpu_count →
  ∃ M, calc_proximity_matrix zero add dtw cpu_count compressed_voyages main_name = Ok (Some M).
Proof.
  intros Hcpu. unfold calc_proximity_matrix. rewrite decide_True by done.
  fold n. rewrite number_combinations_exact by (done || lia).
  cbn [mbind result_bind rbind]. fold slots.
  destruct (fill_inputs (pair_loop n) (replicate slots None))
    as (inputs & Hrun & Hlen & Hfrom & _ & _);
    [done|by rewrite length_replicate| |].
  { intros k0 ? ? ? ? [? _]%lookup_replicate. done. }
  unfold dict_keys in Hrun |- *. rewrite Hrun. cbn [mbind result_bind rbind].
  unfold mp_Pool. rewrite bool_decide_eq_false_2 by lia. cbn [mbind result_bind rbind].
  assert (is_ok (starmap_proximity dtw inputs)) as [res Hres].
  { unfold starmap_proximity. apply rmapM_total.
    apply Forall_lookup_2. intros k item Hitem.
    destruct (inputs_complete inputs k Hrun) as ([item' Hk] & _ & _).
    { rewrite <- Hlen. by eapply lookup_lt_Some. }
    assert (Some item = Some (Some item')) as [= ->]
      by (etrans; [symmetry; exact Hitem | exact Hk]).
    destruct item' as [[[i j] ci] cj].
    destruct (Hfrom k i j ci cj Hk) as [Hci Hcj].
    destruct (dtw_total ci cj Hci Hcj) as [d Hd].
    exists (i, j, d). unfold proximity_parallel. by rewrite Hd. }
  rewrite Hres. cbn [mbind result_bind rbind].
  destruct (rfoldM_total (square n) store_distance res (np_zeros2 zero n n))
    as (dist & -> & Hsq).
  { intros M [[i j] d] Hitem HM.
    destruct (starmap_ordered dtw n inputs res i j d) as [Hij Hj];
      [by eapply fill_ordered|done..|].
    apply store_distance_total; [lia|done..]. }
  { apply zeros_strictly_upper. }
  cbn [mbind result_bind rbind].
  destruct (add_transpose_total zero add n dist Hsq) as [M ->]. by exists M.
Qed.
End proximity_total.

(** ** Simplification keeps the ends and is monotone in the tolerance *)
Section simplify_facts.
Context {D : Type} (pldist : list D → list D → list D → D) (gtb : D → D → bool).
Implicit Types (pts : list (point (D:=D))) (epsilon : D).

Lemma rdp_points_eq epsilon pts :
  rdp_points pldist gtb epsilon pts =
  match farthest pldist gtb pts with
  | Some (k, dmax) =>
      if gtb dmax epsilon then
        rdp_points pldist gtb epsilon (take (S k) pts)
          ++ tail (rdp_points pldist gtb epsilon (drop k pts))
      else take 1 pts ++ drop (length pts - 1) pts
  | None => pts
  end.
Proof.
  funelim (rdp_points pldist gtb epsilon pts).
  - by rewrite Hfar.
  - by rewrite e.
Qed.

(** What the output shares with the sequence it simplifies. *)
Definition keeps_ends pts out : Prop :=
  out `sublist_of` pts ∧ head out = head pts ∧ last out = last pts.

Lemma ends_keeps_ends pts :
  2 ≤ length pts → keeps_ends pts (take 1 pts ++ drop (length pts - 1) pts).
Proof.
  intros Hlen. split; [|split].
  - trans (take 1 pts ++ drop 1 pts); [|by rewrite take_drop].
    apply sublist_app; [done|].
    replace (length pts - 1) with (1 + (length pts - 2)) by lia.
    rewrite <- drop_drop. apply sublist_drop.
  - destruct pts; [simpl in Hlen; lia | done].
  - rewrite last_app.
    assert (length (drop (length pts - 1) pts) = 1) as Hone by (rewrite length_drop; lia).
    assert (last (drop (length pts - 1) pts) = last pts) as ->.
    { rewrite !last_lookup, Hone, lookup_drop. f_equal. lia. }
    destruct (lookup_lt_is_Some_2 pts (pred (length pts))) as [y Hy]; [lia|].
    by rewrite last_lookup, Hy.
Qed.

Lemma split_keeps_ends pts k out1 out2 :
  1 ≤ k → S k < length pts →
  keeps_ends (take (S k) pts) out1 → keeps_ends (drop k pts) out2 →
  keeps_ends pts (out1 ++ tail out2).
Proof.
  intros Hk1 Hk2 (Hs1 & Hh1 & Hl1) (Hs2 & Hh2 & Hl2).
  destruct (lookup_lt_is_Some_2 pts k) as [x Hx]; [lia|].
  assert (drop k pts = x :: drop (S k) pts) as Hdrop by (by apply drop_S).
  rewrite Hdrop in Hs2, Hh2, Hl2. simpl in Hh2.
  destruct out2 as [|y out2]; [done|]. simpl in Hh2. injection Hh2 as ->.
  split; [|split].
  - trans (take (S k) pts ++ drop (S k) pts); [|by rewrite take_drop].
    apply sublist_app; [done|]. simpl.
    apply sublist_cons_l in Hs2 as (l1 & l2 & Hl & Hsub).
    destruct l1 as [|z l1]; simpl in Hl.
    + by injection Hl as <-.
    + injection Hl as <- ->. by apply sublist_inserts_l, sublist_cons.
  - rewrite head_app. destruct out1 as [|z out1].
    + simpl in Hh1. destruct pts; [simpl in Hk2; lia | done].
    + simpl in *. rewrite Hh1. by destruct pts.
  - simpl. rewrite last_app.
    assert (last pts = last (x :: drop (S k) pts)) as Hlast.
    { rewrite <- Hdrop, !last_lookup, lookup_drop, length_drop. f_equal. lia. }
    destruct out2 as [|z out2].
    + simpl. simpl in Hl2. rewrite Hl1, Hlast, <- Hl2.
      rewrite last_lookup, lookup_take_lt, length_take by (rewrite length_take; lia).
      replace (pred (S k `min` length pts)) with k by lia. done.
    + rewrite last_cons_cons in Hl2. rewrite Hl2, Hlast.
      destruct (last (x :: drop (S k) pts)) eqn:E; [done|].
      rewrite last_cons in E. by destruct (last (drop (S k) pts)).
Qed.

Lemma rdp_points_keeps_ends epsilon pts :
  keeps_ends pts (rdp_points pldist gtb epsilon pts).
Proof.
  funelim (rdp_points pldist gtb epsilon pts).
  - destruct (farthest_interior pldist gtb pts k dmax Hfar) as [Hk1 Hk2].
    destruct (gtb dmax epsilon).
    + by apply (split_keeps_ends pts k).
    + apply ends_keeps_ends. lia.
  - done.
Qed.

Lemma rdp_points_length_ge_2 epsilon pts :
  2 ≤ length pts → 2 ≤ length (rdp_points pldist gtb epsilon pts).
Proof.
  funelim (rdp_points pldist gtb epsilon pts); intros Hlen; [|done].
  destruct (farthest_interior pldist gtb pts k dmax Hfar) as [Hk1 Hk2].
  destruct (gtb dmax epsilon).
  - rewrite length_app.
    assert (2 ≤ length (rdp_points pldist gtb epsilon (take (S k) pts))); [|lia].
    match goal with
    | IH : _ → 2 ≤ length (rdp_points _ _ _ (take _ _)) |- _ => apply IH
    end.
    rewrite length_take. lia.
  - rewrite length_app, length_take, length_drop. lia.
Qed.

Lemma rdp_points_length_mono epsilon1 epsilon2 pts :
  (∀ d, gtb d epsilon2 = true → gtb d epsilon1 = true) →
  length (rdp_points pldist gtb epsilon2 pts) ≤ length (rdp_points pldist gtb epsilon1 pts).
Proof.
  intros Hle. remember (length pts) as n eqn:Hn. revert pts Hn.
  induction (lt_wf n) as [n _ IH]. intros pts ->.
  rewrite (rdp_points_eq epsilon1), (rdp_points_eq epsilon2).
  destruct (farthest pldist gtb pts) as [[k dmax]|] eqn:Hfar; [|done].
  apply farthest_interior in Hfar as [Hk1 Hk2].
  assert (length (take (S k) pts) < length pts) as Hlt1 by (rewrite length_take; lia).
  assert (length (drop k pts) < length pts) as Hlt2 by (rewrite length_drop; lia).
  destruct (gtb dmax epsilon2) eqn:H2.
  - rewrite (Hle _ H2), !length_app.
    pose proof (IH _ Hlt1 (take (S k) pts) eq_refl).
    pose proof (IH _ Hlt2 (drop k pts) eq_refl).
    assert (∀ l : list (point (D:=D)), length (tail l) = length l - 1) as Htail
      by (by intros [|? ?]; simpl; lia).
    rewrite !Htail. lia.
  - destruct (gtb dmax epsilon1); [|done].
    rewrite !length_app, length_take, length_drop.
    pose proof (rdp_points_length_ge_2 epsilon1 (take (S k) pts)) as Hge.
    rewrite length_take in Hge. lia.
Qed.
End simplify_facts.

Section simplify_theorems.
Context {D : Type} (zero : D) (pldist : list D → list D → list D → D).
Context (gtb leb : D → D → bool).
(** A distance that exceeds a tolerance exceeds every smaller one. *)
Hypothesis gtb_leb_trans :
  ∀ d e1 e2, leb e1 e2 = true → gtb d e2 = true → gtb d e1 = true.

(** C7: for a tolerance that is not negative, the simplified voyage is an
    ordered subsequence of the points of the voyage, it is not longer, and
    its first and last points are those of the voyage. *)
Theorem compute_compressed_voyage_keeps_ends vid c rows epsilon :
  gtb zero epsilon = false →
  ∃ rows',
    compute_compressed_voyage pldist gtb vid (Arr2 c rows) epsilon = (vid, Arr2 c rows') ∧
    rows' `sublist_of` rows ∧ length rows' ≤ length rows ∧
    head rows' = head rows ∧ last rows' = last rows.
Proof.
  intros _. exists (rdp_points pldist gtb epsilon rows).
  destruct (rdp_points_keeps_ends pldist gtb epsilon rows) as (Hsub & Hhead & Hlast).
  split; [done|]. split; [done|]. split; [by apply sublist_length|]. done.
Qed.

(** C8: a larger tolerance never keeps more points. *)
Theorem compute_compressed_voyage_monotone vid coords epsilon1 epsilon2 :
  leb epsilon1 epsilon2 = true →
  shape0 (compute_compressed_voyage pldist gtb vid coords epsilon2).2
  ≤ shape0 (compute_compressed_voyage pldist gtb vid coords epsilon1).2.
Proof.
  intros Hle. destruct coords as [xs|c rows]; simpl; [done|].
  apply rdp_points_length_mono. intros d. by apply gtb_leb_trans.
Qed.
End simplify_theorems.

(** ** The guard on [name] *)
Section name_guard.
Context {D : Type} (zero : D) (add : D → D → D).
Context (pldist : list D → list D → list D → D) (gtb : D → D → bool).
Context (dtw : ndarray D → ndarray D → result D) (cpu_count : Z).
Implicit Types (df : AnyFrame.DataFrame (D:=D)).

Lemma droplevel_KeyError level df :
  Some level ∉ AnyFrame.index_names df → AnyFrame.droplevel level df = Err KeyError.
Proof.
  intros Hno. unfold AnyFrame.droplevel.
  destruct (filter _ (AnyFrame.index_names df)) as [|n ns] eqn:Hf; [done|].
  assert (n ∈ filter (λ n, n = Some level) (AnyFrame.index_names df)) as Hn
    by (rewrite Hf; by left).
  apply list_elem_of_filter in Hn as [-> Hn]. done.
Qed.

Lemma droplevel_dropped level df df' :
  AnyFrame.droplevel level df = Ok df' → Some level ∉ AnyFrame.index_names df'.
Proof.
  unfold AnyFrame.droplevel.
  destruct (filter _ (AnyFrame.index_names df)) as [|n [|n' ns]]; [done| |done].
  case_decide; [done|]. intros [= <-]. cbn [AnyFrame.index_names].
  by intros [? _]%list_elem_of_filter.
Qed.

(** On a frame that the projection accepts, the function is
    [compress_voyages] on the rows. *)
Lemma compress_voyages_projected df df' epsilon name :
  AnyFrame.droplevel "IMO" df = Ok df' →
  Forall (λ c, c ∈ AnyFrame.columns df) ["voyage_id"; "Longitude"; "Latitude"] →
  AnyFrame.compress_voyages pldist gtb cpu_count df epsilon name
  = compress_voyages pldist gtb cpu_count (AnyFrame.rows df) epsilon name.
Proof.
  intros Hdrop Hcols. unfold AnyFrame.compress_voyages. rewrite Hdrop.
  cbn [mbind result_bind rbind]. unfold AnyFrame.getitem.
  assert (AnyFrame.columns df' = AnyFrame.columns df ∧ AnyFrame.rows df' = AnyFrame.rows df)
    as [Hc Hr].
  { revert Hdrop. unfold AnyFrame.droplevel.
    destruct (filter _ (AnyFrame.index_names df)) as [|n [|n' ns]]; [done| |done].
    case_decide; [done|]. by intros [= <-]. }
  rewrite Hc, decide_True by done. cbn [mbind result_bind rbind AnyFrame.rows]. by rewrite Hr.
Qed.

(** C10 as the code has it: called with a [name] other than ["__main__"],
    [calc_proximity_matrix] returns [None] whatever the corpus is.
    [compress_voyages] projects its frame first: it raises [KeyError] on a
    frame without the [IMO] level, among them every frame that has gone
    through [droplevel("IMO")] before the call, [ValueError] when [IMO] is
    the only level, and [KeyError] when a column is missing; on the other
    frames it returns [None], whatever [rdp] and the number of processors
    are.  A dictionary or a matrix is returned only when [name] is
    ["__main__"]. *)
Theorem name_guard_after_projection df epsilon compressed_voyages name :
  name ≠ main_name →
  calc_proximity_matrix zero add dtw cpu_count compressed_voyages name = Ok None ∧
  (Some "IMO" ∉ AnyFrame.index_names df →
   AnyFrame.compress_voyages pldist gtb cpu_count df epsilon name = Err KeyError) ∧
  (AnyFrame.index_names df = [Some "IMO"] →
   AnyFrame.compress_voyages pldist gtb cpu_count df epsilon name = Err ValueError) ∧
  (∀ df', AnyFrame.droplevel "IMO" df = Ok df' →
     AnyFrame.compress_voyages pldist gtb cpu_count df' epsilon name = Err KeyError ∧
     AnyFrame.compress_voyages pldist gtb cpu_count df epsilon name
     = if decide (Forall (λ c, c ∈ AnyFrame.columns df) ["voyage_id"; "Longitude"; "Latitude"])
       then Ok None else Err KeyError) ∧
  (∀ name' r, AnyFrame.compress_voyages pldist gtb cpu_count df epsilon name' = Ok (Some r) →
              name' = main_name) ∧
  (∀ name' M, calc_proximity_matrix zero add dtw cpu_count compressed_voyages name' = Ok (Some M) →
              name' = main_name).
Proof.
  intros Hname. split_and!.
  - unfold calc_proximity_matrix. by rewrite decide_False.
  - intros Hno. unfold AnyFrame.compress_voyages. by rewrite droplevel_KeyError.
  - intros Hone. unfold AnyFrame.compress_voyages, AnyFrame.droplevel. rewrite Hone.
    rewrite filter_cons, decide_True by done. by rewrite filter_nil.
  - intros df' Hdrop. split.
    + unfold AnyFrame.compress_voyages.
      rewrite droplevel_KeyError; [done|]. by eapply droplevel_dropped.
    + case_decide as Hcols.
      * rewrite (compress_voyages_projected df df') by done.
        unfold compress_voyages. by rewrite decide_False.
      * unfold AnyFrame.compress_voyages. rewrite Hdrop. cbn [mbind result_bind rbind].
        unfold AnyFrame.getitem.
        assert (AnyFrame.columns df' = AnyFrame.columns df) as ->.
        { revert Hdrop. unfold AnyFrame.droplevel.
          destruct (filter _ (AnyFrame.index_names df)) as [|n [|n' ns]]; [done| |done].
          case_decide; [done|]. by intros [= <-]. }
        by rewrite decide_False.
  - intros name' r. unfold AnyFrame.compress_voyages.
    destruct (AnyFrame.droplevel "IMO" df) as [df1|]; cbn [mbind result_bind rbind]; [|done].
    destruct (AnyFrame.getitem _ df1) as [df2|]; cbn [mbind result_bind rbind]; [|done].
    unfold compress_voyages. by case_decide.
  - intros name' M. unfold calc_proximity_matrix. by case_decide.
Qed.
End name_guard.

(** ** The store: computations that only make new objects *)
Section store_facts.
Context {D : Type}.
Implicit Types (σ : gmap loc (obj D)) (l : loc).

(** A computation is [frame_safe] when every object of the store it starts
    from is in the store it leaves, unchanged. *)
Definition frame_safe {A} (m : py D A) : Prop := ∀ σ, σ ⊆ (m σ).1.

Lemma frame_safe_ret {A} (a : A) : frame_safe (mret a : py D A).
Proof. by intros σ. Qed.

Lemma frame_safe_lift {A} (r : result A) : frame_safe (lift r : py D A).
Proof. by intros σ. Qed.

Lemma frame_safe_bind {A B} (m : py D A) (k : A → py D B) :
  frame_safe m → (∀ a, frame_safe (k a)) → frame_safe (m ≫= k).
Proof.
  intros Hm Hk σ. unfold mbind, py_mbind, py_bind.
  specialize (Hm σ). destruct (m σ) as [σ1 [a|e]]; simpl in *; [|done].
  trans σ1; [done|apply Hk].
Qed.

Lemma alloc_fresh σ : σ !! fresh (dom σ) = None.
Proof. apply not_elem_of_dom, is_fresh. Qed.

Lemma frame_safe_alloc (o : obj D) : frame_safe (alloc o).
Proof. intros σ. simpl. apply insert_subseteq, alloc_fresh. Qed.

Lemma frame_safe_load_array l : frame_safe (load_array l).
Proof. intros σ. unfold load_array. by destruct (σ !! l) as [[| |]|]. Qed.

Lemma frame_safe_load_dict l : frame_safe (load_dict l).
Proof. intros σ. unfold load_dict. by destruct (σ !! l) as [[| |]|]. Qed.

Lemma frame_safe_mapM {A B} (f : A → py D B) xs :
  (∀ x, frame_safe (f x)) → frame_safe (py_mapM f xs).
Proof.
  intros Hf. induction xs as [|x xs IH]; simpl; [apply frame_safe_ret|].
  apply frame_safe_bind; [done|]. intros y.
  apply frame_safe_bind; [done|]. intros ys. apply frame_safe_ret.
Qed.

Lemma frame_safe_foldM {A S} (f : S → A → py D S) s xs :
  (∀ s x, frame_safe (f s x)) → frame_safe (py_foldM f s xs).
Proof.
  intros Hf. revert s. induction xs as [|x xs IH]; intros s; simpl; [apply frame_safe_ret|].
  by apply frame_safe_bind.
Qed.

Lemma frame_safe_np_call1 f l : frame_safe (np_call1 f l).
Proof.
  unfold np_call1. apply frame_safe_bind; [apply frame_safe_load_array|]. intros a.
  apply frame_safe_bind; [apply frame_safe_lift|]. intros r. apply frame_safe_alloc.
Qed.

Lemma frame_safe_np_call2 f l1 l2 : frame_safe (np_call2 f l1 l2).
Proof.
  unfold np_call2. apply frame_safe_bind; [apply frame_safe_load_array|]. intros a.
  apply frame_safe_bind; [apply frame_safe_load_array|]. intros b.
  apply frame_safe_bind; [apply frame_safe_lift|]. intros r. apply frame_safe_alloc.
Qed.

(** How a numpy routine runs on operands that are arrays. *)
Lemma np_call1_run f l σ a r :
  σ !! l = Some (ONdarray a) → f a = Ok r →
  ∃ l', np_call1 f l σ = (<[l' := ONdarray r]> σ, Ok l') ∧ σ !! l' = None.
Proof.
  intros Hl Hf. exists (fresh (dom σ)). split; [|apply alloc_fresh].
  unfold np_call1, mbind, py_mbind, py_bind, load_array, lift, alloc.
  by rewrite Hl, Hf.
Qed.

Lemma np_call2_run f l1 l2 σ a b r :
  σ !! l1 = Some (ONdarray a) → σ !! l2 = Some (ONdarray b) → f a b = Ok r →
  ∃ l', np_call2 f l1 l2 σ = (<[l' := ONdarray r]> σ, Ok l') ∧ σ !! l' = None.
Proof.
  intros Hl1 Hl2 Hf. exists (fresh (dom σ)). split; [|apply alloc_fresh].
  unfold np_call2, mbind, py_mbind, py_bind, load_array, lift, alloc.
  by rewrite Hl1, Hl2, Hf.
Qed.

Lemma lookup_insert_old σ l l' (o o' : obj D) :
  σ !! l = Some o → σ !! l' = None → <[l' := o']> σ !! l = Some o.
Proof. intros Hl Hl'. rewrite lookup_insert_ne; [done|]. by intros ->; simplify_eq. Qed.
End store_facts.

(** ** The extended matrix *)
Section expand_facts.
Context {D : Type} (zero : D).
Implicit Types (rows : list (list D)) (v : list D).

(** The rows that [expand_distance_matrix] builds. *)
Definition expanded_rows rows v : list (list D) :=
  zip_with app (rows ++ [v]) ((λ x, [x]) <$> (v ++ [zero])).

Lemma expanded_rows_length n rows v :
  length rows = n → length v = n → length (expanded_rows rows v) = S n.
Proof.
  intros Hr Hv. unfold expanded_rows.
  rewrite length_zip_with, length_fmap, !length_app. simpl. lia.
Qed.

Lemma expanded_rows_old n rows v i r x :
  length rows = n → length v = n →
  rows !! i = Some r → v !! i = Some x →
  expanded_rows rows v !! i = Some (r ++ [x]).
Proof.
  intros Hr Hv Hi Hx. unfold expanded_rows. rewrite lookup_zip_with.
  rewrite lookup_app_l by (by eapply lookup_lt_Some). rewrite Hi. simpl.
  rewrite list_lookup_fmap, lookup_app_l by (by eapply lookup_lt_Some).
  by rewrite Hx.
Qed.

Lemma expanded_rows_new n rows v :
  length rows = n → length v = n →
  expanded_rows rows v !! n = Some (v ++ [zero]).
Proof.
  intros Hr Hv. unfold expanded_rows. rewrite lookup_zip_with.
  rewrite lookup_app_r by lia. replace (n - length rows) with 0 by lia. simpl.
  rewrite list_lookup_fmap, lookup_app_r by lia.
  replace (n - length v) with 0 by lia. done.
Qed.

Lemma expanded_rows_wf n rows v :
  length rows = n → length v = n → Forall (λ r, length r = n) rows →
  Forall (λ r, length r = S n) (expanded_rows rows v).
Proof.
  intros Hr Hv Hwf. apply Forall_lookup_2. intros i r Hi.
  assert (i < S n) as Hlt.
  { rewrite <- (expanded_rows_length n rows v) by done. by eapply lookup_lt_Some. }
  destruct (decide (i = n)) as [->|Hne].
  - rewrite (expanded_rows_new n) in Hi by done. injection Hi as <-.
    rewrite length_app. simpl. lia.
  - destruct (lookup_lt_is_Some_2 rows i) as [r0 Hr0]; [lia|].
    destruct (lookup_lt_is_Some_2 v i) as [x Hx]; [lia|].
    rewrite (expanded_rows_old n rows v i r0 x) in Hi by done. injection Hi as <-.
    rewrite length_app, (Forall_lookup_1 _ _ _ _ Hwf Hr0). simpl. lia.
Qed.

(** How [expand_distance_matrix] runs on an [n] by [n] matrix and a vector
    of length [n]. *)
Lemma expand_distance_matrix_run (σ : gmap loc (obj D)) orig new n rows v :
  σ !! orig = Some (ONdarray (Arr2 n rows)) → length rows = n →
  σ !! new = Some (ONdarray (Arr1 v)) → length v = n →
  ∃ σ' l', expand_distance_matrix zero orig new σ = (σ', Ok l') ∧
           σ !! l' = None ∧
           σ' !! l' = Some (ONdarray (Arr2 (S n) (expanded_rows rows v))).
Proof.
  intros Horig Hr Hnew Hv. unfold expand_distance_matrix.
  destruct (np_call1_run np_expand_dims_first new σ (Arr1 v) (Arr2 n [v]))
    as (l1 & E1 & F1); [done|by simpl; rewrite Hv|].
  set (σ1 := <[l1 := ONdarray (Arr2 n [v])]> σ) in *.
  destruct (np_call2_run np_append_axis0 orig l1 σ1 (Arr2 n rows) (Arr2 n [v])
              (Arr2 n (rows ++ [v]))) as (l2 & E2 & F2).
  { by apply lookup_insert_old. } { apply lookup_insert_eq. }
  { simpl. by rewrite decide_True. }
  set (σ2 := <[l2 := ONdarray (Arr2 n (rows ++ [v]))]> σ1) in *.
  assert (σ2 !! new = Some (ONdarray (Arr1 v))) as Hnew2.
  { apply lookup_insert_old; [|done]. by apply lookup_insert_old. }
  destruct (np_call1_run (λ a, Ok (np_append_zero zero a)) new σ2 (Arr1 v) (Arr1 (v ++ [zero])))
    as (l3 & E3 & F3); [done..|].
  set (σ3 := <[l3 := ONdarray (Arr1 (v ++ [zero]))]> σ2) in *.
  destruct (np_call1_run np_expand_dims_last l3 σ3 (Arr1 (v ++ [zero]))
              (Arr2 1 ((λ x, [x]) <$> (v ++ [zero])))) as (l4 & E4 & F4).
  { apply lookup_insert_eq. } { done. }
  set (σ4 := <[l4 := ONdarray (Arr2 1 ((λ x, [x]) <$> (v ++ [zero])))]> σ3) in *.
  destruct (np_call2_run np_append_axis1 l2 l4 σ4 (Arr2 n (rows ++ [v]))
              (Arr2 1 ((λ x, [x]) <$> (v ++ [zero])))
              (Arr2 (S n) (expanded_rows rows v))) as (l5 & E5 & F5).
  { apply lookup_insert_old; [|done]. apply lookup_insert_old; [|done]. apply lookup_insert_eq. }
  { apply lookup_insert_eq. }
  { simpl. rewrite decide_True by (rewrite length_fmap, !length_app; simpl; lia).
    by rewrite Nat.add_1_r. }
  exists (<[l5 := ONdarray (Arr2 (S n) (expanded_rows rows v))]> σ4), l5.
  split; [|split].
  - unfold mbind, py_mbind, py_bind. by rewrite E1, E2, E3, E4, E5.
  - apply lookup_insert_None in F5 as [F5 _]. apply lookup_insert_None in F5 as [F5 _].
    apply lookup_insert_None in F5 as [F5 _]. by apply lookup_insert_None in F5 as [F5 _].
  - apply lookup_insert_eq.
Qed.

(** C4: on an [n] by [n] matrix and a vector of length [n],
    [expand_distance_matrix] returns a new array of [n + 1] rows and [n + 1]
    columns: its entries at [(i, j)] for [i, j < n] are those of the
    matrix, its last row and its last column hold the vector, and its last
    diagonal entry is zero. *)
Theorem expand_distance_matrix_block (σ : gmap loc (obj D)) orig new n rows v :
  σ !! orig = Some (ONdarray (Arr2 n rows)) →
  length rows = n → Forall (λ r, length r = n) rows →
  σ !! new = Some (ONdarray (Arr1 v)) → length v = n →
  ∃ σ' l' E,
    expand_distance_matrix zero orig new σ = (σ', Ok l') ∧
    σ' !! l' = Some (ONdarray E) ∧ shape E = [S n; S n] ∧ wf_ndarray E ∧
    (∀ i j, i < n → j < n → get2 E i j = get2 (Arr2 n rows) i j) ∧
    (∀ j, j < n → get2 E n j = v !! j) ∧
    (∀ i, i < n → get2 E i n = v !! i) ∧
    get2 E n n = Some zero.
Proof.
  intros Horig Hr Hwf Hnew Hv.
  destruct (expand_distance_matrix_run σ orig new n rows v) as (σ' & l' & Hrun & _ & Hl');
    [done..|].
  exists σ', l', (Arr2 (S n) (expanded_rows rows v)).
  split; [done|]. split; [done|].
  split; [by simpl; rewrite (expanded_rows_length n)|].
  split; [by apply expanded_rows_wf|].
  assert (∀ i, i < n → ∃ r x, rows !! i = Some r ∧ v !! i = Some x ∧ length r = n ∧
                              expanded_rows rows v !! i = Some (r ++ [x])) as Hold.
  { intros i Hi.
    destruct (lookup_lt_is_Some_2 rows i) as [r Hri]; [lia|].
    destruct (lookup_lt_is_Some_2 v i) as [x Hx]; [lia|].
    exists r, x. split; [done|]. split; [done|].
    split; [by apply (Forall_lookup_1 _ _ _ _ Hwf Hri)|].
    by apply (expanded_rows_old n). }
  split; [|split; [|split]].
  - intros i j Hi Hj. destruct (Hold i Hi) as (r & x & Hri & Hx & Hlen & He).
    unfold get2. rewrite He, Hri. simpl. by rewrite lookup_app_l by lia.
  - intros j Hj. unfold get2. rewrite (expanded_rows_new n) by done. simpl.
    by rewrite lookup_app_l by lia.
  - intros i Hi. destruct (Hold i Hi) as (r & x & Hri & Hx & Hlen & He).
    unfold get2. rewrite He. simpl.
    rewrite Hx, lookup_app_r by lia. replace (n - length r) with 0 by lia. done.
  - unfold get2. rewrite (expanded_rows_new n) by done. simpl.
    rewrite lookup_app_r by lia. replace (n - length v) with 0 by lia. done.
Qed.
End expand_facts.

(** ** The incremental classifier *)
Section predict_facts.
Context {D : Type} (zero : D) (leb : D → D → bool) (isfinite : D → bool).
Context (dtw : ndarray D → ndarray D → result D).
Implicit Types (σ : gmap loc (obj D)).

Lemma frame_safe_calc_extra_distance train_voyages new_voyage :
  frame_safe (calc_extra_distance dtw train_voyages new_voyage).
Proof.
  unfold calc_extra_distance.
  apply frame_safe_bind; [apply frame_safe_load_dict|]. intros voyages.
  apply frame_safe_bind; [|intros; apply frame_safe_alloc].
  apply frame_safe_mapM. intros voyage.
  apply frame_safe_bind; [apply frame_safe_load_array|]. intros a.
  apply frame_safe_bind; [apply frame_safe_load_array|]. intros b.
  apply frame_safe_lift.
Qed.

Lemma frame_safe_expand_distance_matrix orig_matrix new_distances :
  frame_safe (expand_distance_matrix zero orig_matrix new_distances).
Proof.
  unfold expand_distance_matrix.
  repeat (apply frame_safe_bind; [first [apply frame_safe_np_call1 | apply frame_safe_np_call2]|];
          intros ?).
  apply frame_safe_np_call2.
Qed.

Lemma frame_safe_fit_predict epsilon X : frame_safe (fit_predict zero leb isfinite epsilon X).
Proof.
  unfold fit_predict. apply frame_safe_bind; [apply frame_safe_load_array|].
  intros a. apply frame_safe_lift.
Qed.

Lemma frame_safe_predict_single_voyage train_voyages distance_matrix new_voyage epsilon :
  frame_safe (predict_single_voyage zero leb isfinite dtw train_voyages distance_matrix new_voyage epsilon).
Proof.
  unfold predict_single_voyage.
  apply frame_safe_bind; [apply frame_safe_calc_extra_distance|]. intros nd.
  apply frame_safe_bind; [apply frame_safe_expand_distance_matrix|]. intros nm.
  apply frame_safe_bind; [apply frame_safe_fit_predict|]. intros labels.
  apply frame_safe_lift.
Qed.

(** The matrix that [expand_distance_matrix] returns is a new object. *)
Lemma expand_distance_matrix_new σ orig_matrix new_distances σ' l' :
  expand_distance_matrix zero orig_matrix new_distances σ = (σ', Ok l') →
  σ !! l' = None.
Proof.
  unfold expand_distance_matrix, mbind, py_mbind, py_bind.
  destruct (np_call1 _ new_distances σ) as [σ1 [l1|?]] eqn:E1; [|done].
  destruct (np_call2 _ orig_matrix l1 σ1) as [σ2 [l2|?]] eqn:E2; [|done].
  destruct (np_call1 _ new_distances σ2) as [σ3 [l3|?]] eqn:E3; [|done].
  destruct (np_call1 _ l3 σ3) as [σ4 [l4|?]] eqn:E4; [|done].
  intros E5.
  assert (σ ⊆ σ4) as Hsub.
  { trans σ1; [by pose proof (frame_safe_np_call1 np_expand_dims_first new_distances σ) as H;
                rewrite E1 in H|].
    trans σ2; [by pose proof (frame_safe_np_call2 np_append_axis0 orig_matrix l1 σ1) as H;
                rewrite E2 in H|].
    trans σ3; [by pose proof (frame_safe_np_call1 (λ a, Ok (np_append_zero zero a))
                                new_distances σ2) as H; rewrite E3 in H|].
    by pose proof (frame_safe_np_call1 np_expand_dims_last l3 σ3) as H; rewrite E4 in H. }
  assert (σ4 !! l' = None) as Hnone.
  { revert E5. unfold np_call2, mbind, py_mbind, py_bind, load_array, lift, alloc.
    destruct (σ4 !! l2) as [[|a|]|]; try done.
    destruct (σ4 !! l4) as [[|b|]|]; try done.
    destruct (np_append_axis1 a b); [|done]. intros [= _ <-]. apply alloc_fresh. }
  destruct (σ !! l') as [o|] eqn:E; [|done].
  by rewrite (lookup_weaken _ _ _ _ E Hsub) in Hnone.
Qed.

(** C9: whatever the corpus, the matrix and the new voyage are, a call of
    [predict_single_voyage] leaves every object of the store as it was, the
    training matrix, the training dictionary and the arrays of its voyages
    among them; the extended matrix is an object that the store did not
    hold before. *)
Theorem predict_single_voyage_frame σ train_voyages distance_matrix new_voyage epsilon d M :
  σ !! train_voyages = Some (ODict d) →
  σ !! distance_matrix = Some (ONdarray M) →
  let σ' :=
    (predict_single_voyage zero leb isfinite dtw train_voyages distance_matrix new_voyage epsilon σ).1 in
  σ' !! distance_matrix = Some (ONdarray M) ∧
  σ' !! train_voyages = Some (ODict d) ∧
  (∀ vid l a, (vid, l) ∈ d → σ !! l = Some a → σ' !! l = Some a) ∧
  σ ⊆ σ' ∧
  (∀ new_distances σ1 extended,
     expand_distance_matrix zero distance_matrix new_distances σ = (σ1, Ok extended) →
     extended ≠ distance_matrix ∧ σ1 !! distance_matrix = Some (ONdarray M)).
Proof.
  intros Hd HM σ'.
  assert (σ ⊆ σ') as Hsub by apply frame_safe_predict_single_voyage.
  split; [by eapply lookup_weaken|]. split; [by eapply lookup_weaken|].
  split; [intros vid l a _ Hl; by eapply lookup_weaken|]. split; [done|].
  intros nd σ1 ext Hrun. split.
  - apply expand_distance_matrix_new in Hrun. intros ->. by rewrite HM in Hrun.
  - pose proof (frame_safe_expand_distance_matrix distance_matrix nd σ) as H.
    rewrite Hrun in H. by eapply lookup_weaken.
Qed.

(** C3 as the code has it: with an empty training dictionary and the
    empty matrix that goes with it, [predict_single_voyage] raises nothing.
    The extended matrix is the 1 by 1 matrix of the new voyage alone, which
    has fewer than [min_samples] neighbours: the label returned is the noise
    label -1, for every new voyage and every positive radius. *)
Theorem predict_single_voyage_empty_corpus σ train_voyages distance_matrix new_voyage epsilon :
  σ !! train_voyages = Some (ODict []) →
  σ !! distance_matrix = Some (ONdarray (Arr2 0 [])) →
  leb zero epsilon = true → leb epsilon zero = false → isfinite zero = true →
  (predict_single_voyage zero leb isfinite dtw train_voyages distance_matrix new_voyage epsilon σ).2
  = Ok noise.
Proof.
  intros Hd HM Hpos Hnonzero Hfin. unfold predict_single_voyage.
  set (l0 := fresh (dom σ)). set (σ0 := <[l0 := ONdarray (Arr1 [])]> σ).
  assert (calc_extra_distance dtw train_voyages new_voyage σ = (σ0, Ok l0)) as E0.
  { unfold calc_extra_distance, mbind, py_mbind, py_bind, load_dict. by rewrite Hd. }
  destruct (expand_distance_matrix_run zero σ0 distance_matrix l0 0 [] [])
    as (σ1 & l1 & E1 & _ & H1); [|done|apply lookup_insert_eq|done|].
  { apply lookup_insert_old; [done|apply alloc_fresh]. }
  unfold mbind, py_mbind, py_bind. rewrite E0, E1.
  unfold fit_predict, mbind, py_mbind, py_bind, load_array, lift. rewrite H1.
  unfold DBSCAN_fit_predict, positive_radius, valid_distance.
  rewrite Hpos, Hnonzero. cbn. rewrite Hfin. destruct (leb zero zero); cbn.
  all: unfold dbscan_labels, neighbours; cbn; by rewrite Hpos.
Qed.
End predict_facts.

(** ** The training matrix is shared by the predictions *)
Section predict_voyages_facts.
Context {D : Type} (zero : D) (add : D → D → D) (leb : D → D → bool) (isfinite : D → bool).
Context (dtw : ndarray D → ndarray D → result D) (cpu_count : Z).

Lemma frame_safe_calc_proximity_matrix_at compressed_voyages name :
  frame_safe (calc_proximity_matrix_at zero add dtw cpu_count compressed_voyages name).
Proof.
  intros σ. unfold calc_proximity_matrix_at.
  destruct (corpus_at σ compressed_voyages) as [corpus|].
  - apply frame_safe_bind; [apply frame_safe_lift|]. intros r. apply frame_safe_alloc.
  - case_decide; [done|]. apply frame_safe_alloc.
Qed.

(** [predict_voyages] makes the two dictionaries, the matrix of the
    training set and, for each test voyage, an extended copy of that matrix:
    the corpus it is given and the matrix that all the predictions share
    are never written to. *)
Theorem predict_voyages_frame (σ : gmap loc (obj D)) compressed_voyages
    train_voyages test_voyages name epsilon :
  σ ⊆ (predict_voyages zero add leb isfinite dtw cpu_count compressed_voyages
         train_voyages test_voyages name epsilon σ).1.
Proof.
  revert σ. change (frame_safe (predict_voyages zero add leb isfinite dtw cpu_count compressed_voyages
                                  train_voyages test_voyages name epsilon)).
  unfold predict_voyages.
  apply frame_safe_bind; [apply frame_safe_load_dict|]. intros voyages.
  apply frame_safe_bind; [apply frame_safe_lift|]. intros train_items.
  apply frame_safe_bind; [apply frame_safe_alloc|]. intros train_set.
  apply frame_safe_bind; [apply frame_safe_lift|]. intros test_items.
  apply frame_safe_bind; [apply frame_safe_alloc|]. intros test_set.
  apply frame_safe_bind; [apply frame_safe_calc_proximity_matrix_at|]. intros base_distances.
  apply frame_safe_bind; [apply frame_safe_fit_predict|]. intros train_labels.
  apply frame_safe_bind; [|intros; apply frame_safe_ret].
  apply frame_safe_foldM. intros test_predictions [vid voyage].
  apply frame_safe_bind; [apply frame_safe_predict_single_voyage|].
  intros label. apply frame_safe_ret.
Qed.
End predict_voyages_facts.

(** ** Validation of the settings *)
Section settings_facts.
Context {D : Type} (zero : D) (ltb : D → D → bool).
Context (path_exists path_isfile path_isdir : string → bool).
Context (normpath : string → string) (now_stamp : string).
Context (default_bbox : D * D * D * D) (default_compression_eps default_clustering_eps : D).

Lemma check_positive_negative v :
  ltb v zero = true → check_positive zero ltb v = Err ValueError.
Proof. intros Hv. unfold check_positive. by rewrite Hv. Qed.

Lemma as_validation_error_err {A} (r : result A) :
  (∃ e, r = Err e) → as_validation_error r = Err ValidationError.
Proof. by intros [e ->]. Qed.

Ltac step_fields :=
  repeat match goal with
         | |- ∃ e, Err _ = Err e => by eexists
         | |- ∃ e, Err _ ≫= _ = Err e => by eexists
         | |- ∃ e, ?c ≫= _ = Err e =>
             destruct c as [?|?]; cbn [mbind result_bind rbind]; [|by eexists]
         end.

Lemma Settings_init_rejects_negative o v :
  o_compression_eps o = Some v ∨ o_clustering_eps o = Some v →
  ltb v zero = true →
  Settings_init zero ltb path_exists path_isfile path_isdir normpath now_stamp
    default_bbox default_compression_eps default_clustering_eps o
  = Err ValidationError.
Proof.
  intros Hgiven Hneg. unfold Settings_init. apply as_validation_error_err.
  destruct Hgiven as [Hc|Hc]; rewrite Hc; cbn [field];
    rewrite (check_positive_negative v Hneg); step_fields.
Qed.

(** C5 as the code has it: when the configuration gives a negative
    [compression_eps] or a negative [clustering_eps], [run_pipeline] ends
    in the constructor of [Settings] with a [ValidationError], before the
    first stage. *)
Theorem run_pipeline_rejects_negative configs general_options name v :
  dict_get configs "global" = Ok general_options →
  o_compression_eps general_options = Some v ∨ o_clustering_eps general_options = Some v →
  ltb v zero = true →
  run_pipeline zero ltb path_exists path_isfile path_isdir normpath now_stamp
    default_bbox default_compression_eps default_clustering_eps configs name
  = Err ValidationError.
Proof.
  intros Hglobal Hgiven Hneg. unfold run_pipeline. rewrite Hglobal.
  cbn [mbind result_bind rbind].
  by rewrite (Settings_init_rejects_negative general_options v).
Qed.
End settings_facts.

(** ** The voyages that the confusion matrices count *)
Section evaluation_facts.
Implicit Types (d e : list (string * Z)).

Lemma dict_keys_dict_of_items {V} (items : list (string * V)) x :
  x ∈ dict_keys (dict_of_items items) ↔ x ∈ items.*1.
Proof.
  unfold dict_of_items. rewrite dict_keys_update.
  unfold dict_keys at 1. simpl. rewrite elem_of_nil. unfold dict_keys. tauto.
Qed.

Lemma make_binary_class_keys d x :
  x ∈ dict_keys (make_binary_class d) ↔ x ∈ dict_keys d.
Proof.
  unfold make_binary_class. rewrite dict_keys_dict_of_items.
  unfold dict_keys. rewrite <- list_fmap_compose.
  assert ((fst ∘ (λ '(key, value), (key, int_is_negative value))) <$> d = d.*1) as ->; [|done].
  apply list_fmap_ext. by intros i [k v].
Qed.

(** *** Every voyage is counted once *)

Lemma sum_list_with_fmap {A B} (g : B → nat) (h : A → B) (l : list A) :
  sum_list_with g (h <$> l) = sum_list_with (g ∘ h) l.
Proof. induction l as [|x l IH]; csimpl; [done|]. by rewrite IH. Qed.

Lemma sum_list_with_add {A} (g h : A → nat) (l : list A) :
  sum_list_with (λ x, g x + h x) l = sum_list_with g l + sum_list_with h l.
Proof. induction l as [|x l IH]; simpl; [done|]. rewrite IH. lia. Qed.

Lemma sum_list_with_ext {A} (g h : A → nat) (l : list A) :
  (∀ x, x ∈ l → g x = h x) → sum_list_with g l = sum_list_with h l.
Proof.
  induction l as [|x l IH]; intros Hext; simpl; [done|].
  rewrite (Hext x) by (by left). rewrite IH; [done|]. intros y Hy. apply Hext. by right.
Qed.

Lemma sum_list_with_zero {A} (l : list A) : sum_list_with (λ _, 0) l = 0.
Proof. induction l as [|x l IH]; simpl; [done|]. by rewrite IH. Qed.

Lemma sum_list_with_indicator (L : list Z) (a : Z) :
  NoDup L → a ∈ L → sum_list_with (λ t, if decide (a = t) then 1 else 0) L = 1.
Proof.
  induction 1 as [|t L Hnotin Hnodup IH]; [by intros ?%elem_of_nil|].
  intros [->|Hin]%elem_of_cons; simpl.
  - rewrite decide_True by done.
    rewrite (sum_list_with_ext _ (λ _, 0)).
    + by rewrite sum_list_with_zero.
    + intros x Hx. rewrite decide_False; [done|]. by intros ->.
  - rewrite decide_False by (by intros ->). by rewrite IH.
Qed.

(** Sorting a list by its class: the classes of [L] partition it. *)
Lemma count_classes {A} (L : list Z) (f : A → Z) (xs : list A) :
  NoDup L → (∀ x, x ∈ xs → f x ∈ L) →
  sum_list_with (λ t, length (filter (λ x, f x = t) xs)) L = length xs.
Proof.
  intros Hnodup. induction xs as [|x xs IH]; intros Hin.
  - simpl. apply sum_list_with_zero.
  - rewrite (sum_list_with_ext _
               (λ t, (if decide (f x = t) then 1 else 0) + length (filter (λ x, f x = t) xs))).
    + rewrite sum_list_with_add, sum_list_with_indicator, IH; [done| |done|].
      * intros y Hy. apply Hin. by right.
      * apply Hin. by left.
    + intros t _. rewrite filter_cons. by case_decide.
Qed.

Lemma confusion_matrix_total (y_true y_pred : list Z) :
  length y_true = length y_pred →
  cm_total (confusion_matrix y_true y_pred) = length y_pred.
Proof.
  intros Hlen. unfold cm_total, confusion_matrix.
  set (L := merge_sort Z.le (remove_dups (y_true ++ y_pred))).
  assert (NoDup L) as Hnodup.
  { unfold L. rewrite merge_sort_Permutation. apply NoDup_remove_dups. }
  assert (∀ x, x ∈ y_true ++ y_pred → x ∈ L) as HL.
  { intros x Hx. unfold L. rewrite merge_sort_Permutation. by apply elem_of_remove_dups. }
  rewrite sum_list_with_fmap.
  rewrite (sum_list_with_ext _ (λ t, length (filter (λ tp, tp.1 = t) (zip y_true y_pred)))).
  - rewrite count_classes; [|done|].
    + rewrite length_zip. lia.
    + intros [t p] Hin. apply HL, elem_of_app. left. by eapply elem_of_zip_l.
  - intros t _. simpl. rewrite sum_list_with_fmap.
    rewrite (sum_list_with_ext _
               (λ p, length (filter (λ tp, tp.2 = p)
                               (filter (λ tp, tp.1 = t) (zip y_true y_pred))))).
    + apply count_classes; [done|].
      intros [t' p] [_ Hin]%list_elem_of_filter. apply HL, elem_of_app. right.
      by eapply elem_of_zip_r.
    + intros p _. simpl. f_equal. rewrite list_filter_filter.
      apply list_filter_iff. intros [t' p']. simpl. split.
      * by intros [= -> ->].
      * by intros [-> ->].
Qed.

(** The voyages that have an oracle label are those that have a
    prediction. *)
Lemma dict_of_items_NoDup_id {V} (items : list (string * V)) :
  NoDup items.*1 → dict_of_items items = items.
Proof.
  unfold dict_of_items, dict_update.
  assert (∀ d : list (string * V),
            NoDup (d.*1 ++ items.*1) →
            foldl (λ acc kv, dict_set acc kv.1 kv.2) d items = d ++ items) as Hgen.
  { induction items as [|[k v] items IH]; intros d Hnodup; simpl.
    - by rewrite app_nil_r.
    - assert (dict_set d k v = d ++ [(k, v)]) as ->.
      { assert (k ∉ d.*1) as Hk.
        { apply NoDup_app in Hnodup as (_ & Hdisj & _). intros Hin.
          apply (Hdisj k Hin). by left. }
        clear -Hk. induction d as [|[k' v'] d IH]; simpl; [done|].
        rewrite decide_False by (intros ->; apply Hk; by left).
        rewrite IH; [done|]. intros Hin. apply Hk. by right. }
      rewrite IH.
      + by rewrite <- app_assoc.
      + rewrite fmap_app. simpl. by rewrite <- app_assoc. }
  intros Hnodup. by apply (Hgen []).
Qed.

Lemma oracle_labels_length voyage_classes_all y_pred y_true :
  NoDup (dict_keys y_pred) →
  oracle_labels voyage_classes_all y_pred = Ok y_true →
  length (dict_values y_true) = length (dict_values y_pred).
Proof.
  intros Hnodup. unfold oracle_labels.
  intros (items & Hitems & [= <-])%bind_ok.
  assert (items.*1 = dict_keys y_pred) as Hkeys.
  { revert items Hitems. generalize (dict_keys y_pred) as ks. clear.
    induction ks as [|k ks IH]; intros items; simpl.
    - by intros [= <-].
    - intros (kv & (c & _ & [= <-])%bind_ok & (rest & Hrest & [= <-])%bind_ok)%bind_ok.
      simpl. f_equal. by apply IH. }
  rewrite dict_of_items_NoDup_id by (by rewrite Hkeys).
  unfold dict_values, dict_keys in *. rewrite !length_fmap.
  by rewrite <- (length_fmap fst items), Hkeys, length_fmap.
Qed.

Lemma make_binary_class_NoDup d : NoDup (dict_keys (make_binary_class d)).
Proof.
  unfold make_binary_class, dict_of_items. apply dict_update_NoDup.
  unfold dict_keys. simpl. apply NoDup_nil_2.
Qed.

(** For every pair of predictions, the matrix that the evaluation script of
    [cluster_predict.py] prints counts one voyage per identifier of the
    training set or of the test set, and the matrix of
    [do_k_fold_validation] one voyage per identifier of the test set. *)
Theorem confusion_counts voyage_classes_all train_pred test_pred :
  (∀ cm, script_confusion voyage_classes_all train_pred test_pred = Ok cm →
         cm_total cm = length (dict_keys (dict_update (make_binary_class train_pred)
                                                       (make_binary_class test_pred)))) ∧
  (∀ cm, k_fold_confusion voyage_classes_all train_pred test_pred = Ok cm →
         cm_total cm = length (dict_keys (make_binary_class test_pred))).
Proof.
  split; intros cm; unfold script_confusion, k_fold_confusion;
    intros (y_true & Hy & [= <-])%bind_ok.
  - rewrite confusion_matrix_total.
    + unfold dict_values, dict_keys. by rewrite !length_fmap.
    + eapply oracle_labels_length; [|done].
      apply dict_update_NoDup, make_binary_class_NoDup.
  - rewrite confusion_matrix_total.
    + assert (dict_update (make_binary_class test_pred) (make_binary_class test_pred)
              = make_binary_class test_pred) as ->; [|unfold dict_values, dict_keys;
                                                      by rewrite !length_fmap].
      apply dict_update_self, make_binary_class_NoDup.
    + eapply oracle_labels_length; [|done].
      apply dict_update_NoDup, make_binary_class_NoDup.
Qed.

(** The evaluation script of [cluster_predict.py] labels the voyages of
    the union of the two sets. *)
Lemma script_y_pred_keys train_pred test_pred x :
  x ∈ dict_keys (dict_update (make_binary_class train_pred) (make_binary_class test_pred))
  ↔ x ∈ dict_keys train_pred ∨ x ∈ dict_keys test_pred.
Proof. by rewrite dict_keys_update, !make_binary_class_keys. Qed.

(** [do_k_fold_validation] labels the voyages of the test set only. *)
Lemma k_fold_y_pred_keys test_pred x :
  x ∈ dict_keys (dict_update (make_binary_class test_pred) (make_binary_class test_pred))
  ↔ x ∈ dict_keys test_pred.
Proof. rewrite dict_keys_update, !make_binary_class_keys. tauto. Qed.
End evaluation_facts.

(** ** The theorems at work on integer coordinates *)
Section integer_runs.
Import IntegerRuns.
Local Open Scope Z_scope.

Lemma Z_gtb_leb_trans (d e1 e2 : Z) :
  Z.leb e1 e2 = true → Z.gtb d e2 = true → Z.gtb d e1 = true.
Proof. lia. Qed.

(** [calc_proximity_matrix] on four voyages. *)
Lemma calc_proximity_matrix_symmetric_witness :
  ∃ M, calc_proximity_matrix 0 Z.add dtw_l1 4 corpus4 main_name = Ok (Some M) ∧
       shape M = [4; 4]%nat ∧ wf_ndarray M ∧
       (∀ i j, (i < 4)%nat → (j < 4)%nat → ∃ d, get2 M i j = Some d ∧ get2 M j i = Some d) ∧
       (∀ i, (i < 4)%nat → get2 M i i = Some 0).
Proof.
  exists (Arr2 4 [[0; 3; 6; 21]; [3; 0; 3; 18]; [6; 3; 0; 15]; [21; 18; 15; 0]]).
  split; [by vm_compute|].
  apply (calc_proximity_matrix_symmetric 0 Z.add dtw_l1 4 Z.add_comm eq_refl corpus4 main_name).
  by vm_compute.
Defined.

(** The matrix of these four voyages is returned (on four processors). *)
Lemma calc_proximity_matrix_returns_witness :
  ∃ M, calc_proximity_matrix 0 Z.add dtw_l1 4 corpus4 main_name = Ok (Some M).
Proof.
  apply (calc_proximity_matrix_returns 0 Z.add dtw_l1 4 corpus4).
  - by vm_compute.
  - intros a b Ha Hb. unfold corpus4, dict_values in Ha, Hb. simpl in Ha, Hb.
    repeat (apply elem_of_cons in Ha as [->|Ha]; [|]);
      [..|by apply elem_of_nil in Ha];
      repeat (apply elem_of_cons in Hb as [->|Hb]; [|]);
      try (by apply elem_of_nil in Hb); by eexists.
  - lia.
Defined.

(** C3, refuted as stated: with an empty training dictionary and its
    empty matrix, [predict_single_voyage] returns the label -1 and raises
    nothing. *)
Lemma predict_single_voyage_empty_returns_label :
  (predict_single_voyage 0 Z.leb (λ _, true) dtw_l1 1%positive 2%positive 3%positive 12 empty_training).2
  = Ok (-1) ∧
  ¬ ∃ e, (predict_single_voyage 0 Z.leb (λ _, true) dtw_l1 1%positive 2%positive 3%positive 12
            empty_training).2 = Err e.
Proof. split; [by vm_compute|]. intros [e He]. by vm_compute in He. Qed.

Lemma predict_single_voyage_empty_corpus_witness :
  (predict_single_voyage 0 Z.leb (λ _, true) dtw_l1 1%positive 2%positive 3%positive 12 empty_training).2
  = Ok noise.
Proof.
  apply (predict_single_voyage_empty_corpus 0 Z.leb (λ _, true) dtw_l1 empty_training
           1%positive 2%positive 3%positive 12); by vm_compute.
Defined.

(** [expand_distance_matrix] on a 2 by 2 matrix. *)
Lemma expand_distance_matrix_block_witness :
  ∃ σ' l' E,
    expand_distance_matrix 0 1%positive 2%positive small_training = (σ', Ok l') ∧
    σ' !! l' = Some (ONdarray E) ∧ shape E = [3; 3]%nat ∧ wf_ndarray E ∧
    (∀ i j, (i < 2)%nat → (j < 2)%nat → get2 E i j = get2 (Arr2 2 [[0; 3]; [3; 0]]) i j) ∧
    (∀ j, (j < 2)%nat → get2 E 2 j = [6; 9] !! j) ∧
    (∀ i, (i < 2)%nat → get2 E i 2 = [6; 9] !! i) ∧
    get2 E 2 2 = Some 0.
Proof.
  apply (expand_distance_matrix_block 0 small_training 1%positive 2%positive 2%nat
           [[0; 3]; [3; 0]] [6; 9]); try done.
  by repeat constructor.
Defined.

(** C5, refuted as stated: a configuration whose simplification tolerance
    is zero, and one whose clustering radius is zero too, pass the
    validation; the run goes on to the compression, the comparison and the
    clustering. *)
Lemma run_pipeline_accepts_zero :
  run_with 0 12 = Ok [EvCompress 0 main_name; EvCompare main_name; EvCluster 12] ∧
  run_with 0 0 = Ok [EvCompress 0 main_name; EvCompare main_name; EvCluster 0].
Proof. by vm_compute. Qed.

Lemma run_pipeline_rejects_negative_witness :
  run_with (-1) 12 = Err ValidationError.
Proof.
  apply (run_pipeline_rejects_negative 0 Z.ltb (λ _, true) (λ _, true) (λ _, true) (λ p, p)
           "20240101_0000" (9, 56, 25, 66) 0 12
           [("global", global_table (-1) 12)] (global_table (-1) 12) main_name (-1)).
  - done.
  - by left.
  - done.
Defined.

(** The zigzag simplified with tolerance 5. *)
Lemma compute_compressed_voyage_keeps_ends_witness :
  ∃ rows',
    compute_compressed_voyage doubled_area Z.gtb "v" (Arr2 2 zigzag) 5 = ("v", Arr2 2 rows') ∧
    rows' `sublist_of` zigzag ∧ (length rows' ≤ length zigzag)%nat ∧
    head rows' = head zigzag ∧ last rows' = last zigzag.
Proof.
  apply (compute_compressed_voyage_keeps_ends 0 doubled_area Z.gtb "v" 2%nat zigzag 5).
  done.
Defined.

(** Tolerance 20 keeps no more points of the zigzag than tolerance 5. *)
Lemma compute_compressed_voyage_monotone_witness :
  (shape0 (compute_compressed_voyage doubled_area Z.gtb "v" (Arr2 2 zigzag) 20%Z).2
   ≤ shape0 (compute_compressed_voyage doubled_area Z.gtb "v" (Arr2 2 zigzag) 5%Z).2)%nat.
Proof.
  apply (compute_compressed_voyage_monotone doubled_area Z.gtb Z.leb Z_gtb_leb_trans
           "v" (Arr2 2 zigzag) 5 20).
  done.
Defined.

(** A prediction against two training voyages: the new voyage is noise,
    and the matrix, the dictionary and the voyages are as they were. *)
Lemma predict_single_voyage_frame_witness :
  predict_single_voyage 0 Z.leb (λ _, true) dtw_l1 3%positive 4%positive 5%positive 12 two_trained
  = ((predict_single_voyage 0 Z.leb (λ _, true) dtw_l1 3%positive 4%positive 5%positive 12 two_trained).1,
     Ok (-1)) ∧
  let σ' := (predict_single_voyage 0 Z.leb (λ _, true) dtw_l1 3%positive 4%positive 5%positive 12
               two_trained).1 in
  σ' !! 4%positive = Some (ONdarray (Arr2 2 [[0; 3]; [3; 0]])) ∧
  σ' !! 3%positive = Some (ODict [("a", 1%positive); ("b", 2%positive)]) ∧
  σ' !! 1%positive = Some (ONdarray (northbound 0)) ∧
  σ' !! 2%positive = Some (ONdarray (northbound 1)) ∧
  two_trained ⊆ σ'.
Proof.
  split; [by vm_compute|].
  destruct (predict_single_voyage_frame 0 Z.leb (λ _, true) dtw_l1 two_trained
              3%positive 4%positive 5%positive 12
              [("a", 1%positive); ("b", 2%positive)] (Arr2 2 [[0; 3]; [3; 0]]))
    as (H1 & H2 & H3 & H4 & _); [done..|].
  split; [exact H1|]. split; [exact H2|].
  split; [apply (H3 "a"); [by left|done]|].
  split; [apply (H3 "b"); [by right; left|done]|exact H4].
Defined.

(** C10, refuted as stated: with the default ["name"], [compress_voyages]
    raises [KeyError] on the frame that [prediction_pipeline.main] gives
    it, from which the [IMO] level has been dropped; it does not return
    [None]. *)
Lemma compress_voyages_raises_before_guard :
  "name" ≠ main_name ∧
  AnyFrame.compress_voyages doubled_area Z.gtb 4 level_dropped 1 "name" = Err KeyError ∧
  AnyFrame.compress_voyages doubled_area Z.gtb 4 level_dropped 1 "name" ≠ Ok None.
Proof. split; [done|]. split; [by vm_compute|]. by vm_compute. Qed.

(** With the default ["name"], nothing is compared; the frame of the
    features is projected and nothing is compressed, and the same frame is
    refused once its [IMO] level has been dropped. *)
Lemma name_guard_after_projection_witness :
  calc_proximity_matrix 0 Z.add dtw_l1 4 corpus4 "name" = Ok None ∧
  AnyFrame.compress_voyages doubled_area Z.gtb 4 indexed_frame 1 "name" = Ok None ∧
  AnyFrame.compress_voyages doubled_area Z.gtb 4 level_dropped 1 "name" = Err KeyError.
Proof.
  destruct (name_guard_after_projection 0 Z.add doubled_area Z.gtb dtw_l1 4
              indexed_frame 1 corpus4 "name") as (H1 & _ & _ & H2 & _); [done|].
  destruct (name_guard_after_projection 0 Z.add doubled_area Z.gtb dtw_l1 4
              level_dropped 1 corpus4 "name") as (_ & H3 & _); [done|].
  split; [exact H1|]. split.
  - destruct (H2 (AnyFrame.MkDataFrame [None]
                    (list_to_set ["voyage_id"; "Longitude"; "Latitude"; "Speed"]) two_voyages))
      as [_ ->]; [by vm_compute|].
    rewrite decide_True; [done|]. repeat constructor; apply (bool_decide_unpack _); by vm_compute.
  - apply H3. apply (bool_decide_unpack _). by vm_compute.
Defined.

(** C6, at a fold of the fleet with five training voyages and one test
    voyage: the confusion matrix of [do_k_fold_validation] counts the test
    voyage alone, where the evaluation script of [cluster_predict.py] counts
    the six voyages of the same partition. *)
Theorem k_fold_counts_test_voyages_only :
  let oracle := [("a", 0); ("b", 0); ("c", 0); ("d", 0); ("e", 0); ("f", 1)] in
  (oracle_classes 0 Z.add Z.leb (λ _, true) dtw_l1 4 12 7%positive main_name fleet).2 = Ok oracle ∧
  (do_k_fold_validation 0 Z.add Z.leb (λ _, true) dtw_l1 4 12 7%positive
     ["a"; "b"; "c"; "d"; "e"] ["f"] oracle main_name fleet).2
  = Ok [[1%nat]] ∧
  (cluster_predict_main 0 Z.add Z.leb (λ _, true) dtw_l1 4 12 (λ ids, (take 5 ids, drop 5 ids))
     7%positive fleet).2
  = Ok [[5%nat; 0%nat]; [0%nat; 1%nat]].
Proof. by vm_compute. Qed.
End integer_runs.

(** ** Groups of rows *)
Section groups_facts.
Context {K : Type} `{EqDecision K}.

(** The keys of a grouping partition the rows. *)
Lemma sum_list_with_indicator_gen (L : list K) (a : K) :
  NoDup L → a ∈ L → sum_list_with (λ t, if decide (a = t) then 1 else 0) L = 1.
Proof.
  induction 1 as [|t L Hnotin Hnodup IH]; [by intros ?%elem_of_nil|].
  intros [->|Hin]%elem_of_cons; simpl.
  - rewrite decide_True by done.
    rewrite (sum_list_with_ext _ (λ _, 0)).
    + by rewrite sum_list_with_zero.
    + intros x Hx. rewrite decide_False; [done|]. by intros ->.
  - rewrite decide_False by (by intros ->). by rewrite IH.
Qed.

Lemma count_groups {A} (L : list K) (f : A → K) (xs : list A) :
  NoDup L → (∀ x, x ∈ xs → f x ∈ L) →
  sum_list_with (λ t, length (filter (λ x, f x = t) xs)) L = length xs.
Proof.
  intros Hnodup. induction xs as [|x xs IH]; intros Hin.
  - simpl. apply sum_list_with_zero.
  - rewrite (sum_list_with_ext _
               (λ t, (if decide (f x = t) then 1 else 0) + length (filter (λ x, f x = t) xs))).
    + rewrite sum_list_with_add, sum_list_with_indicator_gen, IH; [done| |done|].
      * intros y Hy. apply Hin. by right.
      * apply Hin. by left.
    + intros t _. rewrite filter_cons. by case_decide.
Qed.

Lemma dict_get_fmap_keys {V} (g : K → V) (ks : list K) k :
  dict_get ((λ k, (k, g k)) <$> ks) k = if decide (k ∈ ks) then Ok (g k) else Err KeyError.
Proof.
  induction ks as [|k' ks IH]; [|rewrite fmap_cons]; cbn [dict_get].
  - by destruct (decide (k ∈ [])) as [?%elem_of_nil|].
  - destruct (decide (k' = k)) as [->|Hne].
    + destruct (decide (k ∈ k :: ks)) as [|Hin]; [done|]. exfalso. apply Hin. by left.
    + rewrite IH. destruct (decide (k ∈ ks)) as [Hin|Hin], (decide (k ∈ k' :: ks)) as [Hin'|Hin'];
        try done.
      * exfalso. apply Hin'. by right.
      * apply elem_of_cons in Hin' as [?|?]; congruence.
Qed.
End groups_facts.

(** ** [extract_coords] *)
Section extract_facts.
Context {D : Type}.
Implicit Types data : list (ais_row (D:=D)).

(** The voyage ids of a frame, each once, sorted. *)
Definition voyage_keys data : list string :=
  merge_sort (λ a b, Is_true (String.leb a b)) (remove_dups (voyage_id <$> data)).

Lemma voyage_keys_NoDup data : NoDup (voyage_keys data).
Proof. unfold voyage_keys. rewrite merge_sort_Permutation. apply NoDup_remove_dups. Qed.

Lemma elem_of_voyage_keys data vid :
  vid ∈ voyage_keys data ↔ ∃ r, r ∈ data ∧ voyage_id r = vid.
Proof.
  unfold voyage_keys. rewrite merge_sort_Permutation, elem_of_remove_dups, list_elem_of_fmap.
  split; intros (r & ? & ?); exists r; by split.
Qed.

(** [extract_coords] splits the frame by voyage: its keys are the voyage
    ids of the frame, each once; the array of a voyage holds the longitude
    and latitude of the rows of that voyage, in the order of the frame; a
    voyage id that is not in the frame raises [KeyError]; and the arrays
    hold as many points together as the frame has rows. *)
Theorem extract_coords_partition data :
  let voyages := extract_coords data in
  NoDup (dict_keys voyages) ∧
  (∀ vid, vid ∈ dict_keys voyages ↔ ∃ r, r ∈ data ∧ voyage_id r = vid) ∧
  (∀ vid, dict_get voyages vid =
          if decide (vid ∈ voyage_id <$> data)
          then Ok (Arr2 2 ((λ r, [Longitude r; Latitude r])
                             <$> filter (λ r, voyage_id r = vid) data))
          else Err KeyError) ∧
  sum_list_with shape0 (dict_values voyages) = length data.
Proof.
  intros voyages.
  assert (voyages =
          (λ k, (k, Arr2 2 ((λ r, [Longitude r; Latitude r])
                              <$> filter (λ r, voyage_id r = k) data)))
            <$> voyage_keys data) as Hv.
  { unfold voyages, extract_coords, groupby_voyage_id. fold (voyage_keys data).
    rewrite <- list_fmap_compose. apply dict_of_items_NoDup_id.
    rewrite <- list_fmap_compose.
    rewrite (list_fmap_ext _ id (voyage_keys data)) by done.
    rewrite list_fmap_id. apply voyage_keys_NoDup. }
  assert (dict_keys voyages = voyage_keys data) as Hk.
  { rewrite Hv. unfold dict_keys. rewrite <- list_fmap_compose.
    rewrite (list_fmap_ext _ id (voyage_keys data)) by done. apply list_fmap_id. }
  split_and!.
  - rewrite Hk. apply voyage_keys_NoDup.
  - intros vid. rewrite Hk. apply elem_of_voyage_keys.
  - intros vid. rewrite Hv, dict_get_fmap_keys.
    destruct (decide (vid ∈ voyage_keys data)) as [Hin|Hin].
    + rewrite decide_True; [done|].
      apply elem_of_voyage_keys in Hin as (r & ? & <-). by apply list_elem_of_fmap_2.
    + rewrite decide_False; [done|]. intros (r & -> & ?)%list_elem_of_fmap.
      apply Hin, elem_of_voyage_keys. eauto.
  - rewrite Hv. unfold dict_values. rewrite <- list_fmap_compose, sum_list_with_fmap.
    rewrite (sum_list_with_ext _ (λ t, length (filter (λ r, voyage_id r = t) data))).
    + apply count_groups; [apply voyage_keys_NoDup|].
      intros r Hr. apply elem_of_voyage_keys. eauto.
    + intros t _. simpl. by rewrite length_fmap.
Qed.
End extract_facts.

(** ** [compress_voyages] *)
Section pydict_lookup.
Context {K V : Type} `{EqDecision K}.

(** In a dictionary, a key has one value. *)
Lemma dict_get_NoDup (d : list (K * V)) k v :
  NoDup (dict_keys d) → (k, v) ∈ d → dict_get d k = Ok v.
Proof.
  induction d as [|[k' v'] d IH]; simpl; [by intros _ ?%elem_of_nil|].
  intros [Hnotin Hnodup]%NoDup_cons [[= -> ->]|Hin]%elem_of_cons.
  - by rewrite decide_True.
  - rewrite decide_False; [by apply IH|].
    intros ->. apply Hnotin. unfold dict_keys. change k with (k, v).1.
    by apply list_elem_of_fmap_2.
Qed.

Lemma dict_get_keys (d : list (K * V)) k v : dict_get d k = Ok v → k ∈ dict_keys d.
Proof.
  intros Hin%dict_get_elem_of. unfold dict_keys. change k with (k, v).1.
  by apply list_elem_of_fmap_2.
Qed.

Lemma dict_get_missing (d : list (K * V)) k : k ∉ dict_keys d → dict_get d k = Err KeyError.
Proof.
  induction d as [|[k' v'] d IH]; simpl; [done|].
  intros Hk. rewrite decide_False.
  - apply IH. intros Hin. apply Hk. by right.
  - intros ->. apply Hk. by left.
Qed.
End pydict_lookup.

Section compress_facts.
Context {D : Type} (pldist : list D → list D → list D → D) (gtb : D → D → bool).
Context (cpu_count : Z).
Implicit Types df : list (ais_row (D:=D)).

Lemma filter_drop_IMO df vid :
  filter (λ r, r.1.1 = vid) (drop_IMO df) = drop_IMO (filter (λ row, voyage_id row = vid) df).
Proof.
  unfold drop_IMO. induction df as [|row df IH]; [done|].
  rewrite fmap_cons, !filter_cons. simpl. case_decide; csimpl; by rewrite IH.
Qed.

(** The points of a voyage of the frame, in the order of the frame. *)
Definition voyage_points df (vid : string) : list (list D) :=
  (λ row, [Longitude row; Latitude row]) <$> filter (λ row, voyage_id row = vid) df.

Lemma coords_of_voyage df vid :
  coords_of (filter (λ r, r.1.1 = vid) (drop_IMO df)) = Arr2 2 (voyage_points df vid).
Proof.
  rewrite filter_drop_IMO. unfold coords_of, drop_IMO, voyage_points.
  by rewrite <- list_fmap_compose.
Qed.

Lemma compressed_more_than_one epsilon (rows : list (list D)) :
  1 < shape0 (rdp pldist gtb (Arr2 2 rows) epsilon) ↔ 2 ≤ length rows.
Proof.
  cbn [rdp shape0]. split.
  - intros Hlen. destruct (rdp_points_keeps_ends pldist gtb epsilon rows) as (Hsub & _).
    apply sublist_length in Hsub. unfold point in *. lia.
  - intros Hlen. pose proof (rdp_points_length_ge_2 pldist gtb epsilon rows Hlen). unfold point in *. lia.
Qed.

(** On a machine that reports one processor, [compress_voyages] asks for a
    pool of no worker: it raises [ValueError] for every frame, and so does
    [single_run], which starts with it. *)
Theorem compress_voyages_single_processor (zero : D) (add : D → D → D)
    (dtw : ndarray D → ndarray D → result D) df epsilon :
  (cpu_count ≤ 1)%Z →
  compress_voyages pldist gtb cpu_count df epsilon main_name = Err ValueError ∧
  single_run zero add pldist gtb dtw cpu_count df epsilon main_name = Err ValueError.
Proof.
  intros Hcpu.
  assert (compress_voyages pldist gtb cpu_count df epsilon main_name = Err ValueError) as Hc.
  { unfold compress_voyages. rewrite decide_True by done.
    unfold mp_Pool. by rewrite bool_decide_true by lia. }
  split; [done|]. unfold single_run. by rewrite Hc.
Qed.

(** The dictionary that [compress_voyages] returns: the simplified voyages
    of more than one point, in the order of the groups. *)
Definition kept_voyages df (epsilon : D) : list (string * ndarray D) :=
  filter (λ kv, 1 < shape0 kv.2)
    ((λ k, (k, rdp pldist gtb (Arr2 2 (voyage_points df k)) epsilon)) <$> voyage_keys df).

Lemma kept_voyages_keys df epsilon :
  dict_keys (kept_voyages df epsilon) `sublist_of` voyage_keys df.
Proof.
  unfold kept_voyages, dict_keys.
  trans ((λ k, (k, rdp pldist gtb (Arr2 2 (voyage_points df k)) epsilon)) <$> voyage_keys df).*1.
  - apply fmap_sublist, sublist_filter.
  - rewrite <- list_fmap_compose. rewrite (list_fmap_ext _ id (voyage_keys df)) by done.
    by rewrite list_fmap_id.
Qed.

Lemma kept_voyages_NoDup df epsilon : NoDup (dict_keys (kept_voyages df epsilon)).
Proof. eapply sublist_NoDup; [|apply kept_voyages_keys]. apply voyage_keys_NoDup. Qed.

Lemma elem_of_kept_voyages df epsilon vid a :
  (vid, a) ∈ kept_voyages df epsilon ↔
  a = rdp pldist gtb (Arr2 2 (voyage_points df vid)) epsilon ∧
  2 ≤ length (filter (λ row, voyage_id row = vid) df).
Proof.
  unfold kept_voyages. rewrite list_elem_of_filter, list_elem_of_fmap. cbn [snd].
  assert (length (voyage_points df vid) = length (filter (λ row, voyage_id row = vid) df))
    as Hlen by (unfold voyage_points; by rewrite length_fmap).
  split.
  - intros (Hmore & k & [= -> ->] & Hk). split; [done|]. rewrite <- Hlen.
    by apply (compressed_more_than_one epsilon).
  - intros (-> & Hrows). rewrite compressed_more_than_one, Hlen. split; [done|].
    exists vid. split; [done|]. apply elem_of_voyage_keys.
    destruct (filter (λ row, voyage_id row = vid) df) as [|row rest] eqn:Hf;
      [simpl in Hrows; lia|].
    assert (row ∈ filter (λ row, voyage_id row = vid) df) as Hrow by (rewrite Hf; by left).
    apply list_elem_of_filter in Hrow as [? ?]. by exists row.
Qed.

Lemma compress_voyages_items df epsilon :
  (2 ≤ cpu_count)%Z →
  compress_voyages pldist gtb cpu_count df epsilon main_name
  = Ok (Some (kept_voyages df epsilon)).
Proof.
  intros Hcpu. unfold compress_voyages. rewrite decide_True by done.
  unfold mp_Pool. rewrite bool_decide_false by lia. cbn [mbind result_bind rbind].
  do 2 f_equal. rewrite <- (dict_of_items_NoDup_id (kept_voyages df epsilon))
    by apply kept_voyages_NoDup.
  f_equal. unfold kept_voyages, groupby_voyage. rewrite <- !list_fmap_compose. f_equal.
  assert ((λ r : string * D * D, r.1.1) <$> drop_IMO df = voyage_id <$> df) as Hids.
  { unfold drop_IMO. by rewrite <- list_fmap_compose. }
  rewrite Hids. fold (voyage_keys df).
  apply list_fmap_ext. intros i k _. simpl.
  unfold compute_compressed_voyage. by rewrite coords_of_voyage.
Qed.

(** With two processors or more, [compress_voyages] returns a dictionary
    under ["__main__"]: its keys are the voyages that have two rows or more
    in the frame, each once (a voyage of a single row is dropped), and the
    value of a voyage is the simplification of its points. *)
Theorem compress_voyages_keeps df epsilon :
  (2 ≤ cpu_count)%Z →
  ∃ r, compress_voyages pldist gtb cpu_count df epsilon main_name = Ok (Some r) ∧
       NoDup (dict_keys r) ∧
       (∀ vid, vid ∈ dict_keys r ↔ 2 ≤ length (filter (λ row, voyage_id row = vid) df)) ∧
       (∀ vid a, dict_get r vid = Ok a →
                 a = rdp pldist gtb (Arr2 2 (voyage_points df vid)) epsilon ∧ 1 < shape0 a).
Proof.
  intros Hcpu. exists (kept_voyages df epsilon).
  split; [by apply compress_voyages_items|]. split; [apply kept_voyages_NoDup|]. split.
  - intros vid. unfold dict_keys. rewrite list_elem_of_fmap. split.
    + by intros ([k a] & -> & [_ ?]%elem_of_kept_voyages).
    + intros Hrows. exists (vid, rdp pldist gtb (Arr2 2 (voyage_points df vid)) epsilon).
      split; [done|]. by apply elem_of_kept_voyages.
  - intros vid a [-> Hrows]%dict_get_elem_of%elem_of_kept_voyages. split; [done|].
    apply compressed_more_than_one. unfold voyage_points. by rewrite length_fmap.
Qed.
End compress_facts.

(** ** [compress_voyages] on integer coordinates *)
Section compress_runs.
Import IntegerRuns.
Local Open Scope Z_scope.

(** One processor: no pool for the compression. *)
Lemma compress_voyages_single_processor_witness :
  compress_voyages doubled_area Z.gtb 1 three_voyages 1 main_name = Err ValueError ∧
  single_run 0 Z.add doubled_area Z.gtb dtw_l1 1 three_voyages 1 main_name = Err ValueError.
Proof.
  apply (compress_voyages_single_processor doubled_area Z.gtb 1 0 Z.add dtw_l1 three_voyages 1).
  lia.
Defined.

(** Four processors: the voyage of one row is dropped. *)
Lemma compress_voyages_keeps_witness :
  compress_voyages doubled_area Z.gtb 4 three_voyages 1 main_name
  = Ok (Some [("v1", Arr2 2 [[5; 5]; [6; 6]]); ("v2", Arr2 2 [[0; 0]; [1; 3]; [2; 0]])]) ∧
  ∃ r, compress_voyages doubled_area Z.gtb 4 three_voyages 1 main_name = Ok (Some r) ∧
       NoDup (dict_keys r) ∧
       (∀ vid, vid ∈ dict_keys r
               ↔ (2 ≤ length (filter (λ row, voyage_id row = vid) three_voyages))%nat) ∧
       (∀ vid a, dict_get r vid = Ok a →
                 a = rdp doubled_area Z.gtb (Arr2 2 (voyage_points three_voyages vid)) 1 ∧
                 (1 < shape0 a)%nat).
Proof.
  split; [by vm_compute|].
  apply (compress_voyages_keeps doubled_area Z.gtb 4 three_voyages 1). lia.
Defined.
End compress_runs.

(** ** The entries of the distance matrix *)
Section proximity_entries.
Context {D : Type} (zero : D) (add : D → D → D).
Context (dtw : ndarray D → ndarray D → result D) (cpu_count : Z).
Context (compressed_voyages : list (string * ndarray D)).

Let n : nat := length compressed_voyages.
Let slots : nat := Z.to_nat (Z.of_nat n * (Z.of_nat n - 1) / 2).

Hypothesis corpus_size : (Z.of_nat n * Z.of_nat n ≤ 2 ^ 53)%Z.

(** The voyage at position [i] of the dictionary. *)
Definition voyage_at (i : nat) (ci : ndarray D) : Prop :=
  ∃ vi, dict_keys compressed_voyages !! i = Some vi ∧ dict_get compressed_voyages vi = Ok ci.

Lemma voyage_at_fun i ci ci' : voyage_at i ci → voyage_at i ci' → ci = ci'.
Proof. intros (vi & Hvi & Hci) (vi' & Hvi' & Hci'). congruence. Qed.

(** An assigned slot holds the pair that its index stands for, with the
    voyages of that pair. *)
Definition inputs_labelled (inputs : list (option (work_item (D:=D)))) : Prop :=
  length inputs = slots ∧
  ∀ k i j ci cj, inputs !! k = Some (Some (i, j, ci, cj)) →
    Triangular.flat_index (Z.of_nat n) (Z.of_nat i) (Z.of_nat j) = Ok (Z.of_nat k) ∧
    voyage_at i ci ∧ voyage_at j cj.

Lemma assign_input_labelled inputs ij inputs' :
  ij ∈ pair_loop n → inputs_labelled inputs →
  assign_input compressed_voyages (dict_keys compressed_voyages) n inputs ij = Ok inputs' →
  inputs_labelled inputs'.
Proof.
  destruct ij as [i j]. intros Hij%elem_of_pair_loop [Hlen Hinv]. unfold assign_input.
  intros (k & Hk & (vi & Hvi & (vj & Hvj & (ci & Hci & (cj & Hcj & Hset)%bind_ok)%bind_ok)%bind_ok)%bind_ok)%bind_ok.
  destruct (dict_keys compressed_voyages !! i) as [vi'|] eqn:Hi; [|done].
  destruct (dict_keys compressed_voyages !! j) as [vj'|] eqn:Hj; [|done].
  simpl in Hvi, Hvj. injection Hvi as ->. injection Hvj as ->.
  destruct (flat_index_slot (Z.of_nat n) (Z.of_nat i) (Z.of_nat j)) as (k' & Hk' & Hrange);
    [done|lia..|].
  rewrite Hk in Hk'. injection Hk' as <-.
  rewrite np_setitem1_in_range in Hset by (rewrite Hlen; unfold slots; lia).
  injection Hset as <-. split; [by rewrite length_insert|].
  intros k0 i0 j0 ci0 cj0 [(<- & [= <- <- <- <-] & _)|[_ Hl]]%list_lookup_insert_Some.
  - rewrite Z2Nat.id by lia. split; [done|]. split; [by exists vi|by exists vj].
  - by eapply Hinv.
Qed.

Lemma fill_labelled inputs :
  rfoldM (assign_input compressed_voyages (dict_keys compressed_voyages) n)
    (replicate slots None) (pair_loop n) = Ok inputs →
  inputs_labelled inputs.
Proof.
  apply rfoldM_invariant.
  - intros ? ? ? ?. by apply assign_input_labelled.
  - split; [by rewrite length_replicate|].
    intros k i j ci cj [? _]%lookup_replicate. done.
Qed.

(** The slot of a pair holds that pair. *)
Lemma slot_of_pair inputs i j :
  rfoldM (assign_input compressed_voyages (dict_keys compressed_voyages) n)
    (replicate slots None) (pair_loop n) = Ok inputs →
  i < j < n →
  ∃ k ci cj, inputs !! k = Some (Some (i, j, ci, cj)) ∧ voyage_at i ci ∧ voyage_at j cj.
Proof.
  intros Hrun Hij.
  destruct (flat_index_slot (Z.of_nat n) (Z.of_nat i) (Z.of_nat j)) as (k & Hk & Hrange);
    [done|lia..|].
  destruct (inputs_complete compressed_voyages corpus_size inputs (Z.to_nat k) Hrun)
    as ([[[[i' j'] ci] cj] Hitem] & _ & _); [fold n; lia|].
  destruct (fill_labelled inputs Hrun) as [_ Hlab].
  destruct (Hlab _ _ _ _ _ Hitem) as (Hk' & Hci & Hcj).
  rewrite Z2Nat.id in Hk' by lia.
  pose proof (fill_ordered _ _ _ _ _ Hrun _ _ _ _ _ Hitem) as Hord.
  destruct (flat_index_injective (Z.of_nat n) (Z.of_nat i) (Z.of_nat j)
              (Z.of_nat i') (Z.of_nat j') k) as [Hi Hj]; [done|lia..|done|done|].
  apply Nat2Z.inj in Hi, Hj. subst i' j'. by exists (Z.to_nat k), ci, cj.
Qed.

Lemma rmapM_lookup_2 {A B} (f : A → result B) xs ys i x :
  rmapM f xs = Ok ys → xs !! i = Some x → ∃ y, ys !! i = Some y ∧ f x = Ok y.
Proof.
  revert ys i. induction xs as [|x' xs IH]; intros ys i; simpl; [done|].
  intros (y & Hy & (ys' & Hys & [= <-])%bind_ok)%bind_ok.
  destruct i as [|i]; simpl.
  - intros [= ->]. by exists y.
  - by apply IH.
Qed.

(** [np_setitem2] changes one entry. *)
Lemma get2_setitem2 (M M' : ndarray D) i j d :
  square n M → np_setitem2 M i j d = Ok M' →
  square n M' ∧ get2 M' i j = Some d ∧ ∀ a b, (a, b) ≠ (i, j) → get2 M' a b = get2 M a b.
Proof.
  intros (rows & -> & Hlen & Hwf). simpl.
  destruct (rows !! i) as [r|] eqn:Hr; [|done].
  case_decide as Hj; [|done]. intros [= <-].
  pose proof (Forall_lookup_1 _ _ _ _ Hwf Hr) as Hr'. simpl in Hr'.
  split; [|split].
  - eexists. split; [done|]. split; [by rewrite length_insert|].
    apply Forall_insert; [done|]. by rewrite length_insert.
  - simpl. rewrite list_lookup_insert_eq by (by eapply lookup_lt_Some). simpl.
    apply list_lookup_insert_eq. lia.
  - intros a b Hne. simpl. destruct (decide (a = i)) as [->|Hai].
    + rewrite list_lookup_insert_eq by (by eapply lookup_lt_Some). rewrite Hr. simpl.
      apply list_lookup_insert_ne. congruence.
    + by rewrite list_lookup_insert_ne.
Qed.

(** After the loop over the results, an entry holds the distance of the
    result for its pair of indices, and the other entries are as they
    were. *)
Lemma store_distances_entries (res : list (nat * nat * D)) M M' :
  square n M →
  (∀ i j d d', (i, j, d) ∈ res → (i, j, d') ∈ res → d = d') →
  rfoldM store_distance M res = Ok M' →
  square n M' ∧
  ∀ i j, (∀ d, (i, j, d) ∈ res → get2 M' i j = Some d) ∧
         ((i, j) ∉ res.*1 → get2 M' i j = get2 M i j).
Proof.
  revert M. induction res as [|[[i0 j0] d0] res IH]; intros M Hsq Hfun; cbn [rfoldM].
  - intros [= <-]. split; [done|]. intros i j. split; [|done]. by intros d ?%elem_of_nil.
  - intros (M1 & Hset & Hrun)%bind_ok.
    destruct (get2_setitem2 _ _ _ _ _ Hsq Hset) as (Hsq1 & Hnew & Hold).
    destruct (IH M1 Hsq1) as [Hsq' Hres]; [|done|].
    { intros i j d d' Hd Hd'. apply (Hfun i j); by right. }
    split; [done|]. intros i j. destruct (Hres i j) as [Hin Hout]. split.
    + intros d [[= -> -> ->]|Hd]%elem_of_cons; [|by apply Hin].
      destruct (decide ((i0, j0) ∈ res.*1)) as [Hdup|Hfresh].
      * apply list_elem_of_fmap in Hdup as ([[i' j'] d'] & [= <- <-] & Hd').
        rewrite (Hfun i0 j0 d0 d'); [by apply Hin|by left|by right].
      * by rewrite Hout.
    + intros Hnot. rewrite fmap_cons in Hnot. apply not_elem_of_cons in Hnot as [Hne Hnot].
      rewrite Hout by done. by apply Hold.
Qed.

(** An entry of [distances + distances.T]. *)
Lemma get2_add_transpose M M' i j x y :
  square n M → np_add add M (np_transpose zero M) = Ok M' →
  i < n → j < n → get2 M i j = Some x → get2 M j i = Some y →
  get2 M' i j = Some (add x y).
Proof.
  intros (rows & -> & Hlen & Hwf). unfold np_add. case_decide; [|done].
  cbn [np_transpose]. intros [= <-] Hi Hj Hx Hy.
  apply get2_add; [done|].
  pose proof (get2_transpose zero n rows i j) as HT. cbn [np_transpose] in HT.
  rewrite Hlen in HT. rewrite HT by (done || lia). done.
Qed.

(** What a call that returns has computed: the matrix of the distances of
    the pairs [i < j], and its sum with its transpose. *)
Lemma calc_proximity_matrix_inv M :
  calc_proximity_matrix zero add dtw cpu_count compressed_voyages main_name = Ok (Some M) →
  ∃ dist, strictly_upper zero n dist ∧
          np_add add dist (np_transpose zero dist) = Ok M ∧
          ∀ i j ci cj, i < j < n → voyage_at i ci → voyage_at j cj →
                       ∃ d, dtw ci cj = Ok d ∧ get2 dist i j = Some d.
Proof.
  unfold calc_proximity_matrix. rewrite decide_True by done. fold n.
  rewrite number_combinations_exact by (done || lia).
  cbn [mbind result_bind rbind]. fold slots.
  intros (inputs & Hrun & (_ & _ & (res & Hres & (dist & Hfold & (M' & Hadd & [= <-])%bind_ok)%bind_ok)%bind_ok)%bind_ok)%bind_ok.
  pose proof (fill_ordered _ _ _ _ _ Hrun) as Hord.
  destruct (fill_labelled inputs Hrun) as [Hlen Hlab].
  (* the results are the distances of the pairs *)
  assert (∀ i j d, (i, j, d) ∈ res →
            i < j < n ∧ ∃ ci cj, voyage_at i ci ∧ voyage_at j cj ∧ dtw ci cj = Ok d) as Hitems.
  { intros i' j' d [k Hk]%list_elem_of_lookup.
    destruct (rmapM_lookup _ _ _ _ _ Hres Hk) as ([[[[i0 j0] ci0] cj0]|] & Hlook & Hitem);
      [|done].
    unfold proximity_parallel in Hitem.
    apply bind_ok in Hitem as (d0 & Hd0 & [= -> -> ->]).
    split; [by eapply Hord|].
    destruct (Hlab _ _ _ _ _ Hlook) as (_ & ? & ?). by exists ci0, cj0. }
  assert (∀ i j d d', (i, j, d) ∈ res → (i, j, d') ∈ res → d = d') as Hfun.
  { intros i' j' d d' (_ & a & b & Ha & Hb & Hd)%Hitems (_ & a' & b' & Ha' & Hb' & Hd')%Hitems.
    rewrite (voyage_at_fun _ _ _ Ha Ha'), (voyage_at_fun _ _ _ Hb Hb') in Hd. congruence. }
  (* the matrix before the transpose is added *)
  assert (strictly_upper zero n dist) as Hupper.
  { revert Hfold. apply rfoldM_invariant; [|apply zeros_strictly_upper].
    intros M0 [[i' j'] d] M1 Hin HM0. apply store_distance_strictly_upper; [|done].
    by destruct (Hitems _ _ _ Hin) as [[? ?] _]. }
  destruct (store_distances_entries res (np_zeros2 zero n n) dist) as [_ Hentries];
    [apply zeros_strictly_upper|done|done|].
  exists dist. split; [done|]. split; [done|].
  (* the result of a pair *)
  intros i j ci cj Hij Hci Hcj.
  destruct (slot_of_pair inputs i j Hrun Hij) as (k & ci' & cj' & Hk & Hci' & Hcj').
  rewrite (voyage_at_fun _ _ _ Hci' Hci), (voyage_at_fun _ _ _ Hcj' Hcj) in Hk.
  destruct (rmapM_lookup_2 _ _ _ _ _ Hres Hk) as ([[i' j'] d] & Hd & Hitem).
  unfold proximity_parallel in Hitem. apply bind_ok in Hitem as (d0 & Hd0 & [= <- <- <-]).
  exists d0. split; [done|]. apply Hentries. by eapply list_elem_of_lookup_2.
Qed.

Lemma proximity_entry M i j ci cj :
  calc_proximity_matrix zero add dtw cpu_count compressed_voyages main_name = Ok (Some M) →
  i < j < n → voyage_at i ci → voyage_at j cj →
  ∃ d, dtw ci cj = Ok d ∧
       get2 M i j = Some (add d zero) ∧ get2 M j i = Some (add zero d).
Proof.
  intros (dist & [Hsq Hlow] & Hadd & Hpairs)%calc_proximity_matrix_inv Hij Hci Hcj.
  destruct (Hpairs i j ci cj Hij Hci Hcj) as (d & Hd & Hupper).
  exists d. split; [done|].
  assert (get2 dist j i = Some zero) as Hlower by (apply Hlow; lia).
  split.
  - eapply get2_add_transpose; [exact Hsq|exact Hadd|lia|lia|done|done].
  - eapply get2_add_transpose; [exact Hsq|exact Hadd|lia|lia|done|done].
Qed.

Lemma proximity_diagonal M i :
  calc_proximity_matrix zero add dtw cpu_count compressed_voyages main_name = Ok (Some M) →
  i < n → get2 M i i = Some (add zero zero).
Proof.
  intros (dist & [Hsq Hlow] & Hadd & _)%calc_proximity_matrix_inv Hi.
  assert (get2 dist i i = Some zero) as Hz by (apply Hlow; lia).
  eapply get2_add_transpose; [exact Hsq|exact Hadd|lia|lia|done|done].
Qed.

(** For every two voyages of the corpus, at the positions [i < j] of the
    dictionary, the matrix that [calc_proximity_matrix] returns holds their
    [dtw] distance: [d + 0.0] at [(i, j)] and [0.0 + d] at [(j, i)]. *)
Theorem calc_proximity_matrix_entries M i j ci cj :
  calc_proximity_matrix zero add dtw cpu_count compressed_voyages main_name = Ok (Some M) →
  i < j < n → voyage_at i ci → voyage_at j cj →
  ∃ d, dtw ci cj = Ok d ∧
       get2 M i j = Some (add d zero) ∧ get2 M j i = Some (add zero d).
Proof. apply proximity_entry. Qed.
End proximity_entries.

(** ** The entries of the matrix of four voyages *)
Section proximity_runs.
Import IntegerRuns.
Local Open Scope Z_scope.

(** The first and the last of the four voyages are 21 apart. *)
Lemma calc_proximity_matrix_entries_witness :
  ∃ d, dtw_l1 (northbound 0) (northbound 7) = Ok d ∧
       get2 (Arr2 4 [[0; 3; 6; 21]; [3; 0; 3; 18]; [6; 3; 0; 15]; [21; 18; 15; 0]]) 0 3
       = Some (d + 0) ∧
       get2 (Arr2 4 [[0; 3; 6; 21]; [3; 0; 3; 18]; [6; 3; 0; 15]; [21; 18; 15; 0]]) 3 0
       = Some (0 + d).
Proof.
  apply (calc_proximity_matrix_entries 0 Z.add dtw_l1 4 corpus4).
  - by vm_compute.
  - by vm_compute.
  - simpl. lia.
  - by exists "a".
  - by exists "d".
Defined.
End proximity_runs.

(** ** One label per row of the matrix *)
Section dbscan_facts.
Context {D : Type} (zero : D) (leb : D → D → bool) (isfinite : D → bool).

Lemma grow_cluster_length fuel nbs core c stack labels :
  length (grow_cluster fuel nbs core c stack labels) = length labels.
Proof.
  revert stack labels. induction fuel as [|fuel IH]; intros stack labels; simpl; [done|].
  destruct stack as [|p stack]; [done|].
  case_decide; [|apply IH].
  destruct (default false (core !! p)); rewrite IH; apply length_insert.
Qed.

Lemma dbscan_labels_length eps min_samples (rows : list (list D)) :
  length (dbscan_labels leb eps min_samples rows) = length rows.
Proof.
  unfold dbscan_labels.
  set (n := length rows). set (nbs := _ <$> rows). set (core := _ <$> nbs).
  assert (∀ l (st : list Z * Z),
            length (foldl (λ '(labels, c) i,
                      if default false (core !! i) && bool_decide (labels !! i = Some noise)
                      then (grow_cluster (n * n + n + 1) nbs core c [i] labels, (c + 1)%Z)
                      else (labels, c)) st l).1 = length st.1) as Hgen.
  { induction l as [|i l IH]; intros [labels c]; simpl; [done|].
    destruct (_ && _); rewrite IH; simpl; [apply grow_cluster_length|done]. }
  rewrite Hgen. simpl. apply length_replicate.
Qed.

Lemma valid_matrix_forallb rows :
  valid_matrix zero leb isfinite rows ↔ forallb (forallb (valid_distance zero leb isfinite)) rows = true.
Proof.
  unfold valid_matrix. rewrite forallb_forall, Forall_forall.
  split; intros H row Hrow.
  - apply forallb_forall. intros d Hd. apply list_elem_of_In in Hrow, Hd.
    specialize (H row Hrow). rewrite Forall_forall in H. by apply H.
  - apply list_elem_of_In in Hrow. specialize (H row Hrow).
    rewrite forallb_forall in H. apply Forall_forall. intros d Hd.
    apply H. by apply list_elem_of_In.
Qed.

Lemma DBSCAN_fit_predict_ok eps n (rows : list (list D)) :
  positive_radius zero leb eps = true → valid_matrix zero leb isfinite rows →
  length rows = S n →
  DBSCAN_fit_predict zero leb isfinite eps (Arr2 (S n) rows)
  = Ok (dbscan_labels leb eps default_min_samples rows).
Proof.
  intros Hpos Hvalid%valid_matrix_forallb Hlen. unfold DBSCAN_fit_predict.
  rewrite Hpos, Hvalid. cbn [negb]. rewrite decide_False by lia. by rewrite decide_True.
Qed.

Lemma DBSCAN_fit_predict_square eps n (rows : list (list D)) :
  positive_radius zero leb eps = true → valid_matrix zero leb isfinite rows →
  length rows = S n →
  ∃ labels, DBSCAN_fit_predict zero leb isfinite eps (Arr2 (S n) rows) = Ok labels ∧ length labels = S n.
Proof.
  intros Hpos Hvalid Hlen. rewrite DBSCAN_fit_predict_ok by done.
  eexists. split; [done|]. by rewrite dbscan_labels_length.
Qed.

Lemma DBSCAN_fit_predict_radius eps X :
  positive_radius zero leb eps = false →
  DBSCAN_fit_predict zero leb isfinite eps X = Err ValueError.
Proof. intros Hpos. unfold DBSCAN_fit_predict. by rewrite Hpos. Qed.

Lemma DBSCAN_fit_predict_no_sample eps c :
  DBSCAN_fit_predict zero leb isfinite eps (Arr2 c []) = Err ValueError.
Proof. unfold DBSCAN_fit_predict. by destruct (positive_radius _ _ _). Qed.

Lemma valid_distance_zero : isfinite zero = true → valid_distance zero leb isfinite zero = true.
Proof. intros Hfin. unfold valid_distance. rewrite Hfin. by destruct (leb zero zero). Qed.

(** The labels that the clusterer returns: one for each row of a square
    matrix that it accepts, at a radius that it accepts. *)
Lemma DBSCAN_fit_predict_inv eps X labels :
  DBSCAN_fit_predict zero leb isfinite eps X = Ok labels →
  ∃ rows, X = Arr2 (length rows) rows ∧ rows ≠ [] ∧
          positive_radius zero leb eps = true ∧ valid_matrix zero leb isfinite rows ∧
          labels = dbscan_labels leb eps default_min_samples rows.
Proof.
  unfold DBSCAN_fit_predict.
  destruct (positive_radius zero leb eps) eqn:Hpos; cbn [negb]; [|done].
  destruct X as [xs|c rows]; [done|].
  case_decide as Hrows; [done|].
  destruct (forallb _ rows) eqn:Hvalid; cbn [negb]; [|done].
  case_decide as Hc; [|done]. intros [= <-]. exists rows. subst c.
  split_and!; try done.
  - by intros ->.
  - by apply valid_matrix_forallb.
Qed.
End dbscan_facts.

(** ** The label of a new voyage *)
Section predict_label.
Context {D : Type} (zero : D) (leb : D → D → bool) (isfinite : D → bool).
Context (dtw : ndarray D → ndarray D → result D).
Implicit Types (σ : gmap loc (obj D)).

Lemma rmapM_length {A B} (f : A → result B) xs ys :
  rmapM f xs = Ok ys → length ys = length xs.
Proof.
  revert ys. induction xs as [|x xs IH]; intros ys; simpl; [by intros [= <-]|].
  intros (y & _ & (ys' & Hys & [= <-])%bind_ok)%bind_ok. simpl. f_equal. by apply IH.
Qed.

Lemma py_bind_run {A B} (m : py D A) (k : A → py D B) σ :
  (m ≫= k) σ = match m σ with
               | (σ', Ok a) => k a σ'
               | (σ', Err e) => (σ', Err e)
               end.
Proof. done. Qed.

Lemma load_array_run σ l a : σ !! l = Some (ONdarray a) → load_array l σ = (σ, Ok a).
Proof. unfold load_array. by intros ->. Qed.

Lemma load_dict_run σ l d : σ !! l = Some (ODict d) → load_dict l σ = (σ, Ok d).
Proof. unfold load_dict. by intros ->. Qed.

(** The distances of the new voyage from the voyages of the dictionary. *)
Lemma distances_run σ new_voyage b (items : list (string * loc)) corpus :
  σ !! new_voyage = Some (ONdarray b) →
  mapM (λ kv : string * loc, match σ !! kv.2 with
                | Some (ONdarray a) => Some (kv.1, a)
                | _ => None
                end) items = Some corpus →
  py_mapM (λ voyage, a ← load_array voyage ; b ← load_array new_voyage ; lift (dtw a b))
    (dict_values items) σ
  = (σ, rmapM (λ a, dtw a b) (dict_values corpus)).
Proof.
  intros Hb. unfold dict_values. revert corpus.
  induction items as [|[k l] items IH]; intros corpus; csimpl.
  - by intros [= <-].
  - destruct (σ !! l) as [[|a|]|] eqn:Hl; csimpl; try done.
    destruct (mapM _ items) as [rest|] eqn:Hrest; csimpl; [|done].
    intros [= <-]. csimpl.
    rewrite py_bind_run. cbn beta.
    rewrite py_bind_run, (load_array_run _ _ _ Hl). cbn beta iota.
    rewrite py_bind_run, (load_array_run _ _ _ Hb). cbn beta iota.
    unfold lift at 1.
    destruct (dtw a b) as [d|e]; cbn [mbind result_bind rbind]; [|done].
    cbn beta iota. rewrite py_bind_run, (IH rest eq_refl).
    by destruct (rmapM _ rest.*2).
Qed.

Lemma calc_extra_distance_run σ train_voyages new_voyage b corpus v :
  corpus_at σ train_voyages = Some corpus →
  σ !! new_voyage = Some (ONdarray b) →
  rmapM (λ a, dtw a b) (dict_values corpus) = Ok v →
  calc_extra_distance dtw train_voyages new_voyage σ
  = (<[fresh (dom σ) := ONdarray (Arr1 v)]> σ, Ok (fresh (dom σ))).
Proof.
  unfold corpus_at. destruct (σ !! train_voyages) as [[| |items]|] eqn:Hd; try done.
  intros Hcorpus Hb Hv. unfold calc_extra_distance.
  rewrite py_bind_run, (load_dict_run _ _ _ Hd), py_bind_run.
  by rewrite (distances_run σ new_voyage b items corpus Hb Hcorpus), Hv.
Qed.

Lemma Forall_zip_with_both {A B C} (f : A → B → C) (P : A → Prop) (Q : B → Prop)
    (R : C → Prop) (l : list A) (k : list B) :
  (∀ x y, P x → Q y → R (f x y)) → Forall P l → Forall Q k → Forall R (zip_with f l k).
Proof.
  intros Hf Hl. revert k. induction Hl as [|x l Hx Hl IH]; intros k Hk; [constructor|].
  destruct Hk as [|y k Hy Hk]; simpl; constructor; [by apply Hf|by apply IH].
Qed.

Lemma valid_matrix_expanded rows v :
  isfinite zero = true → valid_matrix zero leb isfinite rows →
  Forall (λ d, valid_distance zero leb isfinite d = true) v →
  valid_matrix zero leb isfinite (expanded_rows zero rows v).
Proof.
  intros Hfin Hrows Hv. unfold valid_matrix, expanded_rows.
  apply (Forall_zip_with_both _ (Forall (λ d, valid_distance zero leb isfinite d = true))
           (Forall (λ d, valid_distance zero leb isfinite d = true))).
  - intros r x Hr Hx. by apply Forall_app.
  - apply Forall_app. split; [done|]. by constructor.
  - apply Forall_fmap, Forall_app. split.
    + eapply Forall_impl; [exact Hv|]. intros d Hd. by constructor.
    + constructor; [|constructor]. constructor; [|constructor].
      by apply valid_distance_zero.
Qed.

(** Against a corpus of [n] voyages with its [n] by [n] matrix, and when
    [dtw] succeeds, [predict_single_voyage] gets as far as the clusterer,
    with the matrix extended by the distances of the new voyage.  At a
    radius that is not positive the clusterer raises [ValueError]; at a
    positive radius, and when the entries of the matrix and the new
    distances are finite and not negative, nothing is raised: the label
    returned is that of the last row of the extended matrix. *)
Theorem predict_single_voyage_label σ train_voyages distance_matrix new_voyage epsilon
    corpus rows b v :
  corpus_at σ train_voyages = Some corpus →
  σ !! distance_matrix = Some (ONdarray (Arr2 (length corpus) rows)) →
  length rows = length corpus →
  σ !! new_voyage = Some (ONdarray b) →
  rmapM (λ a, dtw a b) (dict_values corpus) = Ok v →
  (positive_radius zero leb epsilon = false →
   (predict_single_voyage zero leb isfinite dtw train_voyages distance_matrix new_voyage
      epsilon σ).2 = Err ValueError) ∧
  (positive_radius zero leb epsilon = true → isfinite zero = true →
   valid_matrix zero leb isfinite rows →
   Forall (λ d, valid_distance zero leb isfinite d = true) v →
   ∃ label,
     (predict_single_voyage zero leb isfinite dtw train_voyages distance_matrix new_voyage
        epsilon σ).2 = Ok label ∧
     last (dbscan_labels leb epsilon default_min_samples (expanded_rows zero rows v))
     = Some label).
Proof.
  intros Hcorpus HM Hrows Hb Hv. unfold predict_single_voyage.
  set (n := length corpus) in *.
  assert (length v = n) as Hlen.
  { apply rmapM_length in Hv. unfold dict_values in Hv. by rewrite length_fmap in Hv. }
  set (l0 := fresh (dom σ)). set (σ0 := <[l0 := ONdarray (Arr1 v)]> σ).
  pose proof (calc_extra_distance_run σ train_voyages new_voyage b corpus v Hcorpus Hb Hv) as E0.
  fold l0 σ0 in E0.
  destruct (expand_distance_matrix_run zero σ0 distance_matrix l0 n rows v)
    as (σ1 & l1 & E1 & _ & H1); [|done|apply lookup_insert_eq|done|].
  { apply lookup_insert_old; [done|apply alloc_fresh]. }
  unfold mbind, py_mbind, py_bind. rewrite E0, E1.
  unfold fit_predict, mbind, py_mbind, py_bind, load_array, lift. rewrite H1.
  split.
  - intros Hpos. by rewrite DBSCAN_fit_predict_radius.
  - intros Hpos Hfin Hvalid Hvalid_v.
    rewrite (DBSCAN_fit_predict_ok zero leb isfinite epsilon n); [|done| |].
    + cbn [snd].
      destruct (last (dbscan_labels leb epsilon default_min_samples
                        (expanded_rows zero rows v))) as [label|] eqn:Hlast.
      * by exists label.
      * apply last_None in Hlast.
        pose proof (dbscan_labels_length leb epsilon default_min_samples
                      (expanded_rows zero rows v)) as Hl.
        rewrite Hlast, (expanded_rows_length zero n) in Hl by done. done.
    + by apply valid_matrix_expanded.
    + by apply expanded_rows_length.
Qed.

(** A matrix that is not of the size of the corpus is rejected: the row of
    the new distances cannot be appended to it. *)
Theorem predict_single_voyage_size_mismatch σ train_voyages distance_matrix new_voyage
    epsilon corpus n rows b v :
  corpus_at σ train_voyages = Some corpus →
  σ !! distance_matrix = Some (ONdarray (Arr2 n rows)) →
  n ≠ length corpus →
  σ !! new_voyage = Some (ONdarray b) →
  rmapM (λ a, dtw a b) (dict_values corpus) = Ok v →
  (predict_single_voyage zero leb isfinite dtw train_voyages distance_matrix new_voyage epsilon σ).2
  = Err ValueError.
Proof.
  intros Hcorpus HM Hn Hb Hv. unfold predict_single_voyage.
  assert (length v = length corpus) as Hlen.
  { apply rmapM_length in Hv. unfold dict_values in Hv. by rewrite length_fmap in Hv. }
  set (l0 := fresh (dom σ)). set (σ0 := <[l0 := ONdarray (Arr1 v)]> σ).
  pose proof (calc_extra_distance_run σ train_voyages new_voyage b corpus v Hcorpus Hb Hv) as E0.
  fold l0 σ0 in E0.
  unfold mbind at 1, py_mbind, py_bind. rewrite E0.
  unfold mbind at 1, py_mbind, py_bind. unfold expand_distance_matrix.
  unfold mbind at 1, py_mbind, py_bind.
  destruct (np_call1_run np_expand_dims_first l0 σ0 (Arr1 v) (Arr2 (length v) [v]))
    as (l1 & -> & Hl1); [apply lookup_insert_eq|done|].
  unfold mbind at 1, py_mbind, py_bind.
  unfold np_call2, mbind, py_mbind, py_bind, load_array, lift.
  rewrite (lookup_insert_old _ distance_matrix l1 (ONdarray (Arr2 n rows)));
    [|by apply lookup_insert_old; [|apply alloc_fresh]|done].
  rewrite lookup_insert_eq. simpl. rewrite decide_False by lia. done.
Qed.
End predict_label.

(** ** Predictions on integer coordinates *)
Section predict_runs.
Import IntegerRuns.
Local Open Scope Z_scope.

(** A voyage at distances 9 and 6 from two training voyages: refused at
    the radius 0, noise at the radius 12. *)
Lemma predict_single_voyage_label_witness :
  (predict_single_voyage 0 Z.leb (λ _, true) dtw_l1 3%positive 4%positive 5%positive 0
     two_trained).2 = Err ValueError ∧
  ∃ label,
    (predict_single_voyage 0 Z.leb (λ _, true) dtw_l1 3%positive 4%positive 5%positive 12
       two_trained).2 = Ok label ∧
    last (dbscan_labels Z.leb 12 default_min_samples
            (expanded_rows 0 [[0; 3]; [3; 0]] [9; 6])) = Some label.
Proof.
  split.
  - apply (predict_single_voyage_label 0 Z.leb (λ _, true) dtw_l1 two_trained 3%positive
             4%positive 5%positive 0 [("a", northbound 0); ("b", northbound 1)]
             [[0; 3]; [3; 0]] (northbound 3) [9; 6]); by vm_compute.
  - apply (predict_single_voyage_label 0 Z.leb (λ _, true) dtw_l1 two_trained 3%positive
             4%positive 5%positive 12 [("a", northbound 0); ("b", northbound 1)]
             [[0; 3]; [3; 0]] (northbound 3) [9; 6]); try by vm_compute.
    all: repeat constructor.
Defined.

(** The matrix of one voyage against a corpus of two. *)
Lemma predict_single_voyage_size_mismatch_witness :
  (predict_single_voyage 0 Z.leb (λ _, true) dtw_l1 3%positive 4%positive 5%positive 12 wrong_matrix).2
  = Err ValueError.
Proof.
  apply (predict_single_voyage_size_mismatch 0 Z.leb (λ _, true) dtw_l1 wrong_matrix 3%positive
           4%positive 5%positive 12 [("a", northbound 0); ("b", northbound 1)] 1%nat [[0]]
           (northbound 3) [9; 6]); by vm_compute.
Defined.
End predict_runs.

(** ** The predictions of [predict_voyages] *)
Section predict_voyages_keys.
Context {D : Type} (zero : D) (add : D → D → D) (leb : D → D → bool) (isfinite : D → bool).
Context (dtw : ndarray D → ndarray D → result D) (cpu_count : Z).
Implicit Types (σ : gmap loc (obj D)).

Lemma py_bind_ok {A B} (m : py D A) (k : A → py D B) σ σ' b :
  (m ≫= k) σ = (σ', Ok b) ↔ ∃ σ1 a, m σ = (σ1, Ok a) ∧ k a σ1 = (σ', Ok b).
Proof.
  rewrite py_bind_run. destruct (m σ) as [σ1 [a|e]]; split.
  - intros Hk. by exists σ1, a.
  - by intros (? & ? & [= <- <-] & ?).
  - done.
  - by intros (? & ? & [= _ ?] & _).
Qed.

Lemma lift_ok {A} (r : result A) σ σ' a : lift r σ = (σ', Ok a) ↔ σ' = σ ∧ r = Ok a.
Proof. unfold lift. split; [by intros [= <- ->]|by intros [-> ->]]. Qed.

Lemma load_array_ok σ σ' l a :
  load_array l σ = (σ', Ok a) ↔ σ' = σ ∧ σ !! l = Some (ONdarray a).
Proof.
  unfold load_array. destruct (σ !! l) as [[|a'|]|]; split;
    (intros [= <- <-] || intros [-> [= <-]] || intros [= ] || intros [_ [=]]); done.
Qed.

Lemma load_dict_ok σ σ' l d :
  load_dict l σ = (σ', Ok d) ↔ σ' = σ ∧ σ !! l = Some (ODict d).
Proof.
  unfold load_dict. destruct (σ !! l) as [[| |d']|]; split;
    (intros [= <- <-] || intros [-> [= <-]] || intros [= ] || intros [_ [=]]); done.
Qed.

(** *** The identifiers selected *)

Lemma select_voyages_keys (voyages : list (string * loc)) ids items :
  select_voyages voyages ids = Ok items →
  NoDup (dict_keys items) ∧ (∀ x, x ∈ dict_keys items ↔ x ∈ ids) ∧
  (∀ x, x ∈ ids → x ∈ dict_keys voyages).
Proof.
  unfold select_voyages. intros (raw & Hraw & [= <-])%bind_ok.
  assert (raw.*1 = ids ∧ ∀ x, x ∈ ids → x ∈ dict_keys voyages) as [Hfst Hin].
  { revert raw Hraw. induction ids as [|vid ids IH]; intros raw; simpl.
    - intros [= <-]. split; [done|]. by intros x ?%elem_of_nil.
    - intros (kv & (l & Hl & [= <-])%bind_ok & (rest & Hrest & [= <-])%bind_ok)%bind_ok.
      destruct (IH rest Hrest) as [IH1 IH2]. simpl. split; [by f_equal|].
      intros x [->|Hx]%elem_of_cons; [by eapply dict_get_keys|by apply IH2]. }
  split; [|split; [|done]].
  - unfold dict_of_items. apply dict_update_NoDup. unfold dict_keys. simpl. apply NoDup_nil_2.
  - intros x. by rewrite dict_keys_dict_of_items, Hfst.
Qed.

Lemma select_voyages_missing (voyages : list (string * loc)) ids vid :
  vid ∈ ids → vid ∉ dict_keys voyages → select_voyages voyages ids = Err KeyError.
Proof.
  intros Hin Hmiss. unfold select_voyages.
  assert (rmapM (λ vid, l ← dict_get voyages vid ; Ok (vid, l)) ids = Err KeyError) as ->;
    [|done].
  induction ids as [|x ids IH]; [by apply elem_of_nil in Hin|]. simpl.
  destruct (dict_get voyages x) as [l|e] eqn:Hx; cbn [mbind result_bind rbind].
  - apply elem_of_cons in Hin as [->|Hin].
    + apply dict_get_keys in Hx. done.
    + by rewrite IH.
  - destruct (decide (x ∈ dict_keys voyages)) as [Hk|Hk].
    + destruct (dict_get_total voyages x Hk) as [l Hl]. congruence.
    + rewrite (dict_get_missing voyages x Hk) in Hx. congruence.
Qed.

Lemma dict_get_err {V} (d : list (string * V)) k e : dict_get d k = Err e → e = KeyError.
Proof.
  induction d as [|[k' v] d IH]; simpl; [by intros [= <-]|]. by case_decide.
Qed.

Lemma select_voyages_err (voyages : list (string * loc)) ids e :
  select_voyages voyages ids = Err e → e = KeyError.
Proof.
  unfold select_voyages.
  destruct (rmapM _ ids) as [raw|e'] eqn:Hraw; cbn [mbind result_bind rbind]; [done|].
  intros [= <-]. revert Hraw. induction ids as [|x ids IH]; simpl; [done|].
  destruct (dict_get voyages x) as [l|e0] eqn:Hx; cbn [mbind result_bind rbind].
  - destruct (rmapM _ ids) as [rest|e1]; cbn [mbind result_bind rbind]; [done|].
    intros [= <-]. by apply IH.
  - intros [= <-]. by eapply dict_get_err.
Qed.

(** A voyage identifier that the corpus does not have raises [KeyError],
    in the training set and in the test set. *)
Theorem predict_voyages_unknown_voyage σ compressed_voyages voyages
    train_voyages test_voyages name epsilon vid :
  σ !! compressed_voyages = Some (ODict voyages) →
  vid ∈ train_voyages ++ test_voyages → vid ∉ dict_keys voyages →
  (predict_voyages zero add leb isfinite dtw cpu_count compressed_voyages
     train_voyages test_voyages name epsilon σ).2 = Err KeyError.
Proof.
  intros Hd Hvid Hmiss. unfold predict_voyages.
  rewrite py_bind_run, (load_dict_run _ _ _ Hd), py_bind_run. unfold lift at 1.
  destruct (select_voyages voyages train_voyages) as [train_items|e] eqn:Htrain.
  - rewrite py_bind_run. unfold alloc at 1. rewrite py_bind_run. unfold lift at 1.
    apply elem_of_app in Hvid as [Hvid|Hvid].
    + apply select_voyages_keys in Htrain as (_ & _ & Hin). by apply Hin in Hvid.
    + by rewrite (select_voyages_missing voyages test_voyages vid).
  - by rewrite (select_voyages_err _ _ _ Htrain).
Qed.

(** *** The closed guard *)

Lemma calc_proximity_matrix_at_closed σ d name σ' l :
  name ≠ main_name →
  calc_proximity_matrix_at zero add dtw cpu_count d name σ = (σ', Ok l) →
  σ' !! l = Some ONone.
Proof.
  intros Hname. unfold calc_proximity_matrix_at.
  destruct (corpus_at σ d) as [corpus|].
  - unfold calc_proximity_matrix. rewrite decide_False by done.
    rewrite py_bind_run. unfold lift, alloc. intros [= <- <-]. apply lookup_insert_eq.
  - rewrite decide_False by done. unfold alloc. intros [= <- <-]. apply lookup_insert_eq.
Qed.

Lemma fit_predict_None epsilon σ l : σ !! l = Some ONone → ∃ e, fit_predict zero leb isfinite epsilon l σ = (σ, Err e).
Proof.
  intros Hl. unfold fit_predict. rewrite py_bind_run. unfold load_array. rewrite Hl. by eexists.
Qed.

Lemma predict_voyages_closed σ compressed_voyages train_voyages test_voyages name epsilon :
  name ≠ main_name →
  ∃ e, (predict_voyages zero add leb isfinite dtw cpu_count compressed_voyages
          train_voyages test_voyages name epsilon σ).2 = Err e.
Proof.
  intros Hname.
  destruct (predict_voyages _ _ _ _ _ _ _ _ _ _ _ σ) as [σ' [r|e]] eqn:E; [|by exists e].
  exfalso. revert E. unfold predict_voyages.
  intros (σ1 & voyages & _ & (σ2 & train_items & _ & (σ3 & train_set & _ &
          (σ4 & test_items & _ & (σ5 & test_set & _ & (σ6 & base & Hbase &
          (σ7 & labels & Hfit & _)%py_bind_ok)%py_bind_ok)%py_bind_ok)%py_bind_ok)%py_bind_ok)%py_bind_ok)%py_bind_ok.
  apply calc_proximity_matrix_at_closed in Hbase; [|done].
  destruct (fit_predict_None epsilon σ6 base Hbase) as [e He]. congruence.
Qed.

(** *** One label per voyage of the training set *)

Lemma np_add_transpose_square n (M M' : ndarray D) :
  square n M → np_add add M (np_transpose zero M) = Ok M' → square n M'.
Proof.
  intros (rows & -> & Hlen & Hwf). unfold np_add. case_decide; [|done].
  cbn [np_transpose]. intros [= <-]. eexists. split; [done|]. split.
  - rewrite length_zip_with, length_fmap, length_seq. lia.
  - apply Forall_lookup_2. intros i r Hr.
    apply lookup_zip_with_Some in Hr as (r1 & r2 & -> & Hr1 & Hr2).
    apply list_lookup_fmap_Some in Hr2 as (j & -> & Hj).
    rewrite length_zip_with, length_fmap, Hlen.
    rewrite (Forall_lookup_1 _ _ _ _ Hwf Hr1). lia.
Qed.

Lemma calc_proximity_matrix_square corpus name M :
  calc_proximity_matrix zero add dtw cpu_count corpus name = Ok (Some M) →
  square (length corpus) M.
Proof.
  unfold calc_proximity_matrix. case_decide; [|done].
  intros (nc & _ & (inputs & _ & (_ & _ & (res & _ & (dist & Hfold &
          (M' & Hadd & [= <-])%bind_ok)%bind_ok)%bind_ok)%bind_ok)%bind_ok)%bind_ok.
  apply (np_add_transpose_square _ dist); [|done].
  revert Hfold. apply rfoldM_invariant; [|apply zeros_strictly_upper].
  intros M0 [[i j] d] M1 _ HM0 Hset. by destruct (get2_setitem2 corpus _ _ _ _ _ HM0 Hset).
Qed.

Lemma corpus_at_length σ d items corpus :
  σ !! d = Some (ODict items) → corpus_at σ d = Some corpus → length corpus = length items.
Proof.
  unfold corpus_at. intros ->. intros Hm. symmetry. by eapply length_mapM.
Qed.

Lemma labels_of_training_set σ d items name epsilon σ' base σ'' labels :
  σ !! d = Some (ODict items) →
  calc_proximity_matrix_at zero add dtw cpu_count d name σ = (σ', Ok base) →
  fit_predict zero leb isfinite epsilon base σ' = (σ'', Ok labels) →
  length labels = length items.
Proof.
  intros Hd Hbase Hfit.
  assert (∃ M, σ' !! base = Some (ONdarray M) ∧ square (length items) M) as (M & HM & Hsq).
  { revert Hbase. unfold calc_proximity_matrix_at.
    destruct (corpus_at σ d) as [corpus|] eqn:Hcorpus.
    - rewrite py_bind_run. unfold lift.
      destruct (calc_proximity_matrix _ _ _ _ corpus name) as [[M|]|e] eqn:Hcalc; [| |done].
      + unfold alloc. intros [= <- <-]. exists M. split; [apply lookup_insert_eq|].
        rewrite <- (corpus_at_length σ d items corpus) by done.
        by eapply calc_proximity_matrix_square.
      + unfold alloc. intros [= <- <-]. simpl in Hfit.
        destruct (fit_predict_None epsilon _ _ (lookup_insert_eq σ (fresh (dom σ)) ONone))
          as [e He]. congruence.
    - case_decide; [done|]. unfold alloc. intros [= <- <-].
      destruct (fit_predict_None epsilon _ _ (lookup_insert_eq σ (fresh (dom σ)) ONone))
        as [e He]. congruence. }
  revert Hfit. unfold fit_predict. rewrite py_bind_run, (load_array_run _ _ _ HM).
  unfold lift. destruct Hsq as (rows & -> & Hlen & _).
  destruct (DBSCAN_fit_predict _ _ _ _ _) as [ls|e] eqn:Hls; [|done].
  intros [= _ <-].
  apply DBSCAN_fit_predict_inv in Hls as (rows' & [= _ <-] & _ & _ & _ & ->).
  by rewrite dbscan_labels_length.
Qed.

Lemma test_predictions_keys train_set base epsilon (items : list (string * loc)) acc σ σ' out :
  py_foldM (λ test_predictions '(vid, voyage),
              label ← predict_single_voyage zero leb isfinite dtw train_set base voyage epsilon ;
              mret (dict_update test_predictions [(vid, label)]))
           acc items σ = (σ', Ok out) →
  NoDup (dict_keys acc) →
  NoDup (dict_keys out) ∧ ∀ x, x ∈ dict_keys out ↔ x ∈ dict_keys acc ∨ x ∈ dict_keys items.
Proof.
  revert acc σ. induction items as [|[vid voyage] items IH]; intros acc σ; cbn [py_foldM].
  - intros [= <- <-] Hnodup. split; [done|]. intros x. unfold dict_keys at 3. simpl.
    rewrite elem_of_nil. tauto.
  - intros (σ1 & acc1 & (σ2 & label & _ & [= <- <-])%py_bind_ok & Hrest)%py_bind_ok Hnodup.
    change (dict_set acc vid label) with (dict_update acc [(vid, label)]) in Hrest.
    destruct (IH _ _ Hrest) as [Hnodup' Hkeys]; [by apply dict_update_NoDup|].
    split; [done|]. intros x. rewrite Hkeys, dict_keys_update.
    unfold dict_keys. rewrite !fmap_cons, fmap_nil. cbn [fst].
    rewrite !elem_of_cons, elem_of_nil. tauto.
Qed.

(** What a call of [predict_voyages] that returns has computed. *)
Lemma predict_voyages_run σ compressed_voyages train_voyages test_voyages name epsilon
    train_predictions test_predictions :
  (predict_voyages zero add leb isfinite dtw cpu_count compressed_voyages
     train_voyages test_voyages name epsilon σ).2 = Ok (train_predictions, test_predictions) →
  NoDup (dict_keys train_predictions) ∧ NoDup (dict_keys test_predictions) ∧
  (∀ x, x ∈ dict_keys train_predictions ↔ x ∈ train_voyages) ∧
  (∀ x, x ∈ dict_keys test_predictions ↔ x ∈ test_voyages).
Proof.
  destruct (predict_voyages _ _ _ _ _ _ _ _ _ _ _ σ) as [σ' [r|e]] eqn:E; [|done].
  simpl. intros [= ->]. revert E. unfold predict_voyages.
  intros (σ1 & voyages & _ & (σ2 & train_items & [-> Htrain]%lift_ok &
          (σ3 & train_set & Hal3 & (σ4 & test_items & [-> Htest]%lift_ok &
          (σ5 & test_set & Hal5 & (σ6 & base & Hbase &
          (σ7 & labels & Hfit & (σ8 & out & Hfold & [= _ <- <-])%py_bind_ok)%py_bind_ok)%py_bind_ok)%py_bind_ok)%py_bind_ok)%py_bind_ok)%py_bind_ok)%py_bind_ok.
  apply select_voyages_keys in Htrain as (Hnd_train & Hk_train & _).
  apply select_voyages_keys in Htest as (Hnd_test & Hk_test & _).
  assert (σ5 !! train_set = Some (ODict train_items)) as Hset.
  { revert Hal3 Hal5. unfold alloc. intros [= <- <-] [= <- _].
    apply lookup_insert_old; [apply lookup_insert_eq|apply alloc_fresh]. }
  pose proof (labels_of_training_set _ _ _ _ _ _ _ _ _ Hset Hbase Hfit) as Hlen.
  assert (dict_of_items (zip (dict_keys train_items) labels)
          = zip (dict_keys train_items) labels) as ->.
  { apply dict_of_items_NoDup_id. rewrite fst_zip; [done|].
    unfold dict_keys. rewrite length_fmap. lia. }
  assert (dict_keys (zip (dict_keys train_items) labels) = dict_keys train_items) as ->.
  { unfold dict_keys at 1. apply fst_zip. unfold dict_keys. rewrite length_fmap. lia. }
  apply test_predictions_keys in Hfold as [Hnd_out Hk_out];
    [|unfold dict_keys; simpl; apply NoDup_nil_2].
  split_and!; [done..|].
  intros x. rewrite Hk_out, <- Hk_test. unfold dict_keys at 1. simpl. rewrite elem_of_nil. tauto.
Qed.

(** The predictions that [predict_voyages] returns are keyed by the
    identifiers it was given: the first dictionary by those of the training
    set, the second by those of the test set, each identifier once. *)
Theorem predict_voyages_keys σ compressed_voyages train_voyages test_voyages name epsilon
    train_predictions test_predictions :
  (predict_voyages zero add leb isfinite dtw cpu_count compressed_voyages
     train_voyages test_voyages name epsilon σ).2 = Ok (train_predictions, test_predictions) →
  dict_keys train_predictions ≡ₚ remove_dups train_voyages ∧
  dict_keys test_predictions ≡ₚ remove_dups test_voyages.
Proof.
  intros (Hnd_train & Hnd_test & Hk_train & Hk_test)%predict_voyages_run.
  split; (apply NoDup_Permutation; [done|apply NoDup_remove_dups|]); intros x;
    rewrite elem_of_remove_dups; [apply Hk_train|apply Hk_test].
Qed.
End predict_voyages_keys.

(** ** The voyages counted, from the identifiers of the two sets *)
Section evaluation_counts.
Context {D : Type} (zero : D) (add : D → D → D) (leb : D → D → bool) (isfinite : D → bool).
Context (dtw : ndarray D → ndarray D → result D) (cpu_count : Z).
Context (eps12 : D) (train_test_split : list string → list string * list string).
Implicit Types (σ : gmap loc (obj D)).

Lemma k_fold_confusion_total voyage_classes_all train_pred test_pred cm :
  k_fold_confusion voyage_classes_all train_pred test_pred = Ok cm →
  cm_total cm = length (dict_keys (make_binary_class test_pred)).
Proof.
  unfold k_fold_confusion. intros (y_true & Hy & [= <-])%bind_ok.
  rewrite dict_update_self in * by apply make_binary_class_NoDup.
  rewrite confusion_matrix_total.
  - unfold dict_values, dict_keys. by rewrite !length_fmap.
  - eapply oracle_labels_length; [|done]. apply make_binary_class_NoDup.
Qed.

Lemma script_confusion_total voyage_classes_all train_pred test_pred cm :
  script_confusion voyage_classes_all train_pred test_pred = Ok cm →
  cm_total cm = length (dict_keys (dict_update (make_binary_class train_pred)
                                                (make_binary_class test_pred))).
Proof.
  unfold script_confusion. intros (y_true & Hy & [= <-])%bind_ok.
  rewrite confusion_matrix_total.
  - unfold dict_values, dict_keys. by rewrite !length_fmap.
  - eapply oracle_labels_length; [|done]. apply dict_update_NoDup, make_binary_class_NoDup.
Qed.

(** Whatever the fold, the confusion matrix that [do_k_fold_validation]
    returns counts the identifiers of the test set, each once, and no
    voyage of the training set that is not in the test set too. *)
Theorem do_k_fold_validation_counts σ compressed_voyages train_ids test_ids
    voyage_classes_all name cm :
  (do_k_fold_validation zero add leb isfinite dtw cpu_count eps12 compressed_voyages
     train_ids test_ids voyage_classes_all name σ).2 = Ok cm →
  cm_total cm = length (remove_dups test_ids).
Proof.
  destruct (do_k_fold_validation _ _ _ _ _ _ _ _ _ _ _ _ σ) as [σ' [r|e]] eqn:E; [|done].
  simpl. intros [= ->]. revert E. unfold do_k_fold_validation.
  intros (σ1 & [train_pred test_pred] & Hpred & [_ Hcm]%lift_ok)%py_bind_ok.
  assert ((predict_voyages zero add leb isfinite dtw cpu_count compressed_voyages train_ids test_ids
             name eps12 σ).2 = Ok (train_pred, test_pred)) as Hrun by (by rewrite Hpred).
  apply predict_voyages_run in Hrun as (_ & _ & _ & Hkeys).
  rewrite (k_fold_confusion_total _ _ _ _ Hcm).
  apply Permutation_length, NoDup_Permutation;
    [apply make_binary_class_NoDup|apply NoDup_remove_dups|].
  intros x. by rewrite make_binary_class_keys, elem_of_remove_dups.
Qed.

Lemma frame_safe_oracle_classes compressed_voyages name :
  frame_safe (oracle_classes zero add leb isfinite dtw cpu_count eps12 compressed_voyages name).
Proof.
  unfold oracle_classes.
  apply frame_safe_bind; [apply frame_safe_calc_proximity_matrix_at|]. intros distances_all.
  apply frame_safe_bind; [apply frame_safe_fit_predict|]. intros labels.
  apply frame_safe_bind; [apply frame_safe_load_dict|]. intros voyages.
  apply frame_safe_ret.
Qed.

(** The confusion matrix that the evaluation script of [cluster_predict.py]
    prints counts the identifiers of both sets of its split, each once. *)
Theorem cluster_predict_main_counts σ compressed_voyages cm :
  (cluster_predict_main zero add leb isfinite dtw cpu_count eps12 train_test_split
     compressed_voyages σ).2 = Ok cm →
  ∃ voyages, σ !! compressed_voyages = Some (ODict voyages) ∧
    let '(train, test) := train_test_split (dict_keys voyages) in
    cm_total cm = length (remove_dups (train ++ test)).
Proof.
  destruct (cluster_predict_main _ _ _ _ _ _ _ _ _ σ) as [σ' [r|e]] eqn:E; [|done].
  simpl. intros [= ->]. revert E. unfold cluster_predict_main.
  intros (σ1 & classes & Hclasses & (σ2 & voyages & [-> Hd]%load_dict_ok & Hrest)%py_bind_ok)%py_bind_ok.
  assert (σ !! compressed_voyages = Some (ODict voyages)) as Hd0.
  { revert Hclasses. unfold oracle_classes.
    intros (σa & da & Hcalc & (σb & labels & Hfit & (σc & voyages' & [-> Hd']%load_dict_ok
            & [= <- _])%py_bind_ok)%py_bind_ok)%py_bind_ok.
    rewrite Hd in Hd'. injection Hd' as <-.
    apply py_bind_ok in Hfit as (? & a & [-> Ha]%load_array_ok & [-> _]%lift_ok).
    revert Hcalc. unfold calc_proximity_matrix_at, corpus_at.
    destruct (σ !! compressed_voyages) as [[| |items]|] eqn:Hitems.
    - case_decide; [done|]. unfold alloc. intros [= <- <-].
      rewrite lookup_insert_eq in Ha. done.
    - case_decide; [done|]. unfold alloc. intros [= <- <-].
      rewrite lookup_insert_eq in Ha. done.
    - intros Hrun. f_equal. f_equal.
      assert (σ ⊆ σa) as Hsub.
      { pose proof (frame_safe_calc_proximity_matrix_at zero add dtw cpu_count
                      compressed_voyages main_name σ) as Hf.
        unfold calc_proximity_matrix_at, corpus_at in Hf. rewrite Hitems in Hf.
        by rewrite Hrun in Hf. }
      pose proof (lookup_weaken _ _ _ _ Hitems Hsub) as Hd''. congruence.
    - case_decide; [done|]. unfold alloc. intros [= <- <-].
      rewrite lookup_insert_eq in Ha. done. }
  exists voyages. split; [done|].
  destruct (train_test_split (dict_keys voyages)) as [train test].
  apply py_bind_ok in Hrest as (σ3 & [train_pred test_pred] & Hpred & [_ Hcm]%lift_ok).
  assert ((predict_voyages zero add leb isfinite dtw cpu_count compressed_voyages train test
             main_name eps12 σ1).2 = Ok (train_pred, test_pred)) as Hrun by (by rewrite Hpred).
  apply predict_voyages_run in Hrun as (_ & _ & Hk_train & Hk_test).
  rewrite (script_confusion_total _ _ _ _ Hcm).
  apply Permutation_length, NoDup_Permutation;
    [apply dict_update_NoDup, make_binary_class_NoDup|apply NoDup_remove_dups|].
  intros x. rewrite dict_keys_update, !make_binary_class_keys, elem_of_remove_dups, elem_of_app.
  by rewrite Hk_train, Hk_test.
Qed.

(** Under a closed guard [calc_proximity_matrix] returns [None], which the
    clusterer rejects: with a [name] other than ["__main__"],
    [predict_voyages] returns no prediction, [do_k_fold_validation] no
    confusion matrix and the oracle no class, whatever the corpus and the
    identifiers are. *)
Theorem closed_guard_raises σ compressed_voyages train_ids test_ids voyage_classes_all
    name epsilon :
  name ≠ main_name →
  (∃ e, (predict_voyages zero add leb isfinite dtw cpu_count compressed_voyages
           train_ids test_ids name epsilon σ).2 = Err e) ∧
  (∃ e, (do_k_fold_validation zero add leb isfinite dtw cpu_count eps12 compressed_voyages
           train_ids test_ids voyage_classes_all name σ).2 = Err e) ∧
  (∃ e, (oracle_classes zero add leb isfinite dtw cpu_count eps12 compressed_voyages name σ).2 = Err e).
Proof.
  intros Hname. split; [by apply predict_voyages_closed|]. split.
  - destruct (predict_voyages_closed zero add leb isfinite dtw cpu_count σ compressed_voyages
                train_ids test_ids name eps12 Hname) as [e He].
    exists e. unfold do_k_fold_validation. rewrite py_bind_run.
    destruct (predict_voyages _ _ _ _ _ _ _ _ _ _ _ σ) as [σ' [r|e']]; [done|].
    simpl in *. congruence.
  - unfold oracle_classes. rewrite py_bind_run.
    destruct (calc_proximity_matrix_at _ _ _ _ _ _ σ) as [σ1 [l|e]] eqn:Hcalc; [|by exists e].
    apply calc_proximity_matrix_at_closed in Hcalc; [|done].
    destruct (fit_predict_None zero leb isfinite eps12 σ1 l Hcalc) as [e He].
    exists e. by rewrite py_bind_run, He.
Qed.
End evaluation_counts.

(** ** The evaluation of the fleet *)
Section evaluation_runs.
Import IntegerRuns.
Local Open Scope Z_scope.

(** No voyage ["zz"] in the fleet. *)
Lemma predict_voyages_unknown_voyage_witness :
  (predict_voyages 0 Z.add Z.leb (λ _, true) dtw_l1 4 7%positive ["a"; "b"] ["zz"] main_name 12 fleet).2
  = Err KeyError.
Proof.
  apply (predict_voyages_unknown_voyage 0 Z.add Z.leb (λ _, true) dtw_l1 4 fleet 7%positive
           [("a", 1%positive); ("b", 2%positive); ("c", 3%positive);
            ("d", 4%positive); ("e", 5%positive); ("f", 6%positive)]
           ["a"; "b"] ["zz"] main_name 12 "zz").
  - done.
  - apply (bool_decide_unpack _). by vm_compute.
  - apply (bool_decide_unpack _). by vm_compute.
Defined.

(** Five voyages to train on, one to predict. *)
Lemma predict_voyages_keys_witness :
  dict_keys [("a", 0); ("b", 0); ("c", 0); ("d", 0); ("e", 0)]
    ≡ₚ remove_dups ["a"; "b"; "c"; "d"; "e"] ∧
  dict_keys [("f", -1)] ≡ₚ remove_dups ["f"].
Proof.
  apply (predict_voyages_keys 0 Z.add Z.leb (λ _, true) dtw_l1 4 fleet 7%positive
           ["a"; "b"; "c"; "d"; "e"] ["f"] main_name 12).
  by vm_compute.
Defined.

Lemma do_k_fold_validation_counts_witness :
  cm_total [[1%nat]] = length (remove_dups ["f"]).
Proof.
  apply (do_k_fold_validation_counts 0 Z.add Z.leb (λ _, true) dtw_l1 4 12 fleet 7%positive
           ["a"; "b"; "c"; "d"; "e"] ["f"]
           [("a", 0); ("b", 0); ("c", 0); ("d", 0); ("e", 0); ("f", 1)] main_name).
  by vm_compute.
Defined.

Lemma cluster_predict_main_counts_witness :
  ∃ voyages, fleet !! 7%positive = Some (ODict voyages) ∧
    let '(train, test) := (take 5 (dict_keys voyages), drop 5 (dict_keys voyages)) in
    cm_total [[5%nat; 0%nat]; [0%nat; 1%nat]] = length (remove_dups (train ++ test)).
Proof.
  apply (cluster_predict_main_counts 0 Z.add Z.leb (λ _, true) dtw_l1 4 12
           (λ ids, (take 5 ids, drop 5 ids)) fleet 7%positive).
  by vm_compute.
Defined.

(** The default ["name"]. *)
Lemma closed_guard_raises_witness :
  (∃ e, (predict_voyages 0 Z.add Z.leb (λ _, true) dtw_l1 4 7%positive
           ["a"; "b"; "c"; "d"; "e"] ["f"] "name" 12 fleet).2 = Err e) ∧
  (∃ e, (do_k_fold_validation 0 Z.add Z.leb (λ _, true) dtw_l1 4 12 7%positive
           ["a"; "b"; "c"; "d"; "e"] ["f"] [] "name" fleet).2 = Err e) ∧
  (∃ e, (oracle_classes 0 Z.add Z.leb (λ _, true) dtw_l1 4 12 7%positive "name" fleet).2 = Err e).
Proof.
  apply (closed_guard_raises 0 Z.add Z.leb (λ _, true) dtw_l1 4 12 fleet 7%positive
           ["a"; "b"; "c"; "d"; "e"] ["f"] [] "name" 12).
  done.
Defined.
End evaluation_runs.

(** ** The guard of the two routines of the pipeline *)
Section guard_facts.
Context {D : Type} (zero : D) (add : D → D → D).
Context (pldist : list D → list D → list D → D) (gtb : D → D → bool).
Context (dtw : ndarray D → ndarray D → result D) (cpu_count : Z).

Lemma compress_voyages_closed df epsilon name :
  name ≠ main_name → compress_voyages pldist gtb cpu_count df epsilon name = Ok None.
Proof. intros Hname. unfold compress_voyages. by rewrite decide_False. Qed.

Lemma compress_voyages_open df epsilon :
  (2 ≤ cpu_count)%Z →
  ∃ r, compress_voyages pldist gtb cpu_count df epsilon main_name = Ok (Some r).
Proof.
  intros Hcpu. unfold compress_voyages. rewrite decide_True by done.
  unfold mp_Pool. rewrite bool_decide_false by lia. by eexists.
Qed.
End guard_facts.

(** ** The stages of the pipeline and the files *)
Section pipeline_facts.
Import MainPipeline.
Context {D : Type} (zero : D) (add : D → D → D) (leb : D → D → bool) (isfinite : D → bool).
Context (gtb : D → D → bool).
Context (pldist : list D → list D → list D → D).
Context (dtw : ndarray D → ndarray D → result D) (cpu_count : Z).
Context {folium_map : Type} (can_write : string → bool).
Context (proximity_of_frame : list (ais_row (D:=D)) → outcome (pyval D)).
Context (features : Settings (D:=D) → outcome (list (ais_row (D:=D)))).
Context (cm_main : Settings (D:=D) → pyval D → option (list (string * Z)) → outcome folium_map).
Context (fit_frame : D → list (ais_row (D:=D)) → outcome (list Z)).
Context (frame_columns : list (ais_row (D:=D)) → list string).
Implicit Types (fs : gmap string (file D folium_map)) (s : Settings (D:=D)).

Local Abbreviation run_stages :=
  (MainPipeline.run_stages zero add leb isfinite gtb pldist dtw cpu_count can_write
     proximity_of_frame features cm_main fit_frame frame_columns).
Local Abbreviation stage_compress :=
  (MainPipeline.compress_voyages gtb pldist cpu_count can_write).
Local Abbreviation stage_compare :=
  (compare_voyages zero add dtw cpu_count can_write proximity_of_frame).
Local Abbreviation stage_cluster :=
  (cluster_voyages zero leb isfinite (folium_map:=folium_map) fit_frame frame_columns).

Lemma io_bind_run {A B} (m : io D folium_map A) (k : A → io D folium_map B) fs :
  (m ≫= k) fs = match m fs with
                | (fs', Returns a) => k a fs'
                | (fs', Raises e) => (fs', Raises e)
                end.
Proof. done. Qed.

Lemma read_data_file_run s filetype filename fs v :
  data_filename s filetype = Ok filename → fs !! filename = Some (Pickle v) →
  read_data_file s filetype fs = (fs, Returns v).
Proof.
  intros Hname Hfile. unfold read_data_file. rewrite io_bind_run, Hname. simpl.
  unfold pickle_load. by rewrite Hfile.
Qed.

Lemma write_data_run s data filetype filename fs :
  data_filename s filetype = Ok filename → can_write filename = true →
  write_data can_write s data filetype fs = (<[filename := Pickle data]> fs, Returns ()).
Proof.
  intros Hname Hw. unfold write_data. rewrite io_bind_run, Hname. simpl.
  unfold pickle_dump. by rewrite Hw.
Qed.

(** What [write_data] has written for a file type, [read_data_file] reads
    back for that type; the file types of the two methods are ["voyages"],
    ["compressed"] and ["proximity"], and a call that returns has written
    one file and changed no other. *)
Theorem read_after_write s data filetype fs fs' :
  write_data can_write s data filetype fs = (fs', Returns ()) →
  read_data_file s filetype fs' = (fs', Returns data) ∧
  filetype ∈ ["voyages"; "compressed"; "proximity"] ∧
  ∃ filename, data_filename s filetype = Ok filename ∧ fs' = <[filename := Pickle data]> fs.
Proof.
  unfold write_data. rewrite io_bind_run.
  destruct (data_filename s filetype) as [filename|e] eqn:Hname; simpl; [|done].
  unfold pickle_dump. destruct (can_write filename) eqn:Hw; [|done]. intros [= <-].
  split; [|split].
  - apply (read_data_file_run s filetype filename); [done|apply lookup_insert_eq].
  - revert Hname. unfold data_filename. repeat case_decide; subst; try done.
    all: intros _; apply (bool_decide_unpack _); by vm_compute.
  - by exists filename.
Qed.

Lemma data_filename_voyages s : data_filename s "voyages" = Ok (voyages_filename s).
Proof. done. Qed.

Lemma data_filename_compressed s : data_filename s "compressed" = Ok (compressed_filename s).
Proof. done. Qed.

Lemma data_filename_proximity s : data_filename s "proximity" = Ok (matrix_filename s).
Proof. done. Qed.

(** *** A closed guard in the pipeline *)

(** With a [name] other than ["__main__"] (the default of [run_pipeline] is
    ["name"]), the compression and the comparison compute nothing and pickle
    the [None] they get: the run replaces the files of the compressed
    voyages and of the distance matrix by a pickled [None], and then fails
    in the clustering, which reads them back. *)
Theorem run_stages_closed_guard s name fs df :
  name ≠ main_name →
  "features" ∉ stages s → "compression" ∈ stages s → "dtw" ∈ stages s →
  "clustering" ∈ stages s →
  fs !! voyages_filename s = Some (Pickle (PFrame df)) →
  can_write (compressed_filename s) = true → can_write (matrix_filename s) = true →
  run_stages s name fs
  = (<[matrix_filename s := Pickle PNone]> (<[compressed_filename s := Pickle PNone]> fs),
     Raises (Raised ValueError)).
Proof.
  intros Hname Hfeat Hcomp Hdtw Hclu Hfile Hw1 Hw2. unfold MainPipeline.run_stages.
  (* run_features *)
  rewrite io_bind_run. unfold run_features. rewrite bool_decide_false by done.
  cbn [mret io_mret io_ret].
  (* compress_voyages *)
  rewrite io_bind_run. unfold MainPipeline.compress_voyages at 1.
  rewrite bool_decide_false by (by intros []).
  rewrite io_bind_run, (read_data_file_run s "voyages" _ fs (PFrame df)) by done.
  rewrite io_bind_run. unfold cc_compress_voyages.
  rewrite compress_voyages_closed by done. cbn [mbind result_bind rbind from_option pure io_ret].
  rewrite io_bind_run, (write_data_run s PNone "compressed" (compressed_filename s)) by done.
  cbn [mret io_mret io_ret].
  set (fs1 := <[compressed_filename s := Pickle PNone]> fs).
  (* compare_voyages *)
  rewrite io_bind_run. unfold compare_voyages at 1.
  rewrite bool_decide_false by (by intros []).
  rewrite io_bind_run, (read_data_file_run s "compressed" (compressed_filename s) fs1 PNone)
    by (done || apply lookup_insert_eq).
  rewrite io_bind_run. unfold cc_calc_proximity_matrix. rewrite decide_False by done.
  cbn [mret io_mret io_ret].
  rewrite io_bind_run, (write_data_run s PNone "proximity" (matrix_filename s)) by done.
  cbn [mret io_mret io_ret].
  set (fs2 := <[matrix_filename s := Pickle PNone]> fs1).
  (* cluster_voyages *)
  rewrite io_bind_run. unfold cluster_voyages at 1.
  rewrite bool_decide_false by (by intros []).
  assert (fs2 !! compressed_filename s = Some (Pickle PNone)) as Hc.
  { unfold fs2. destruct (decide (matrix_filename s = compressed_filename s)) as [->|Hne].
    - apply lookup_insert_eq.
    - rewrite lookup_insert_ne by done. apply lookup_insert_eq. }
  rewrite io_bind_run, (read_data_file_run s "compressed" (compressed_filename s) fs2 PNone)
    by done.
  rewrite io_bind_run, (read_data_file_run s "proximity" (matrix_filename s) fs2 PNone)
    by (done || apply lookup_insert_eq).
  by rewrite io_bind_run.
Qed.

(** *** Clustering without the comparison *)

(** When the compression runs and the comparison is left out of the
    stages, [compare_voyages] passes the dictionary of voyages on as the
    distance matrix: the clustering gives it to the clusterer instead of
    reading the file of the matrix, and the run fails with a [ValueError]
    whatever that file holds. *)
Theorem run_stages_without_dtw s fs df :
  "features" ∉ stages s → "compression" ∈ stages s → "dtw" ∉ stages s →
  "clustering" ∈ stages s →
  fs !! voyages_filename s = Some (Pickle (PFrame df)) →
  (2 ≤ cpu_count)%Z → can_write (compressed_filename s) = true →
  ∃ r, run_stages s main_name fs
       = (<[compressed_filename s := Pickle (PVoyages r)]> fs, Raises (Raised ValueError)).
Proof.
  intros Hfeat Hcomp Hdtw Hclu Hfile Hcpu Hw.
  destruct (compress_voyages_open pldist gtb cpu_count df (compression_eps s) Hcpu) as [r Hr].
  exists r. unfold MainPipeline.run_stages.
  rewrite io_bind_run. unfold run_features. rewrite bool_decide_false by done.
  cbn [mret io_mret io_ret].
  rewrite io_bind_run. unfold MainPipeline.compress_voyages at 1.
  rewrite bool_decide_false by (by intros []).
  rewrite io_bind_run, (read_data_file_run s "voyages" _ fs (PFrame df)) by done.
  rewrite io_bind_run. unfold cc_compress_voyages. rewrite Hr.
  cbn [mbind result_bind rbind from_option pure io_ret].
  rewrite io_bind_run, (write_data_run s _ "compressed" (compressed_filename s)) by done.
  cbn [mret io_mret io_ret].
  rewrite io_bind_run. unfold compare_voyages at 1. rewrite bool_decide_true by done.
  cbn [mret io_mret io_ret].
  rewrite io_bind_run. unfold cluster_voyages at 1.
  rewrite bool_decide_false by (by intros []).
  rewrite io_bind_run. cbn [mret io_mret io_ret]. rewrite io_bind_run.
  cbn [mret io_mret io_ret]. by rewrite io_bind_run.
Qed.

(** *** Clustering from the two files *)

Lemma fst_zip_take {A B} (l : list A) (k : list B) : (zip l k).*1 = take (length k) l.
Proof.
  revert k. induction l as [|x l IH]; intros [|y k]; simpl; try done. by rewrite IH.
Qed.

Lemma snd_zip_take {A B} (l : list A) (k : list B) : (zip l k).*2 = take (length l) k.
Proof.
  revert k. induction l as [|x l IH]; intros [|y k]; simpl; try done. by rewrite IH.
Qed.

(** Run on its own, the clustering reads the dictionary of voyages and the
    matrix from their files.  When the radius of the settings is not
    positive (the settings accept a radius of zero), or an entry of the
    matrix is refused, the stage raises [ValueError].  Otherwise it labels
    the voyages in the order of the dictionary.  Nothing compares the size
    of the dictionary with that of the matrix: the labels go to the first
    voyages, as many as the matrix has rows. *)
Theorem cluster_voyages_from_files s fs d n rows :
  "clustering" ∈ stages s →
  fs !! compressed_filename s = Some (Pickle (PVoyages d)) →
  fs !! matrix_filename s = Some (Pickle (PMatrix (Arr2 n rows))) →
  length rows = n → n ≠ 0 → NoDup (dict_keys d) →
  (positive_radius zero leb (clustering_eps s) = false ∨ ¬ valid_matrix zero leb isfinite rows →
   stage_cluster s PNone PNone fs = (fs, Raises (Raised ValueError))) ∧
  (positive_radius zero leb (clustering_eps s) = true → valid_matrix zero leb isfinite rows →
   ∃ clusters,
     stage_cluster s PNone PNone fs = (fs, Returns (Some clusters)) ∧
     dict_keys clusters = take n (dict_keys d) ∧
     dict_values clusters
     = take (length d) (dbscan_labels leb (clustering_eps s) default_min_samples rows)).
Proof.
  intros Hclu Hd HM Hlen Hn Hnodup.
  assert (stage_cluster s PNone PNone fs
          = (labels_ ← pure (DBSCAN_fit_predict zero leb isfinite (clustering_eps s)
                               (Arr2 n rows)) ;
             mret (Some (dict_of_items (zip (dict_keys d) labels_)))) fs) as ->.
  { unfold cluster_voyages. rewrite bool_decide_false by (by intros []).
    rewrite io_bind_run, (read_data_file_run s "compressed" _ fs (PVoyages d)) by done.
    rewrite io_bind_run, (read_data_file_run s "proximity" _ fs (PMatrix (Arr2 n rows))) by done.
    rewrite !io_bind_run. unfold DBSCAN_fit.
    destruct (DBSCAN_fit_predict _ _ _ _ _) as [labels|e]; [|done].
    cbn [pure io_ret]. by rewrite io_bind_run. }
  rewrite io_bind_run. split.
  - intros Hbad.
    assert (DBSCAN_fit_predict zero leb isfinite (clustering_eps s) (Arr2 n rows)
            = Err ValueError) as ->; [|done].
    destruct Hbad as [Hpos|Hinvalid]; [by apply DBSCAN_fit_predict_radius|].
    unfold DBSCAN_fit_predict. destruct (positive_radius _ _ _); cbn [negb]; [|done].
    rewrite decide_False by lia.
    destruct (forallb _ rows) eqn:Hvalid; cbn [negb]; [|done].
    by apply valid_matrix_forallb in Hvalid.
  - intros Hpos Hvalid.
    destruct n as [|n]; [done|]. rewrite DBSCAN_fit_predict_ok by done.
    set (labels := dbscan_labels leb (clustering_eps s) default_min_samples rows).
    assert (length labels = S n) as Hlabels
      by (unfold labels; by rewrite dbscan_labels_length).
    exists (zip (dict_keys d) labels). split; [|split].
    + cbn [pure io_ret mret io_mret]. rewrite dict_of_items_NoDup_id; [done|].
      rewrite fst_zip_take. by apply (sublist_NoDup _ (dict_keys d)), sublist_take.
    + unfold dict_keys at 1. by rewrite fst_zip_take, Hlabels.
    + unfold dict_values. rewrite snd_zip_take. unfold dict_keys. by rewrite length_fmap.
Qed.

(** *** The files that a run writes *)

(** A computation that leaves alone the files outside [P]. *)
Definition writes_only {A} (P : string → Prop) (m : io D folium_map A) : Prop :=
  ∀ fs p, ¬ P p → (m fs).1 !! p = fs !! p.

Lemma writes_only_ret {A} P (a : A) : writes_only P (mret a).
Proof. by intros fs p _. Qed.

Lemma writes_only_pure {A} P (r : result A) : writes_only P (pure r).
Proof. intros fs p _. by destruct r. Qed.

Lemma writes_only_external {A} P (o : outcome A) : writes_only P (external o).
Proof. by intros fs p _. Qed.

Lemma writes_only_raise {A} P e : writes_only P (raise e : io D folium_map A).
Proof. by intros fs p _. Qed.

Lemma writes_only_bind {A B} P (m : io D folium_map A) (k : A → io D folium_map B) :
  writes_only P m → (∀ a, writes_only P (k a)) → writes_only P (m ≫= k).
Proof.
  intros Hm Hk fs p Hp. rewrite io_bind_run. specialize (Hm fs p Hp).
  destruct (m fs) as [fs' [a|e]]; simpl in *; [|done]. by rewrite Hk.
Qed.

Lemma writes_only_read P s filetype : writes_only P (read_data_file s filetype).
Proof.
  apply writes_only_bind; [apply writes_only_pure|]. intros filename fs p _.
  unfold pickle_load. by destruct (fs !! filename) as [[?|?]|].
Qed.

Lemma writes_only_write (P : string → Prop) s data filetype :
  (∀ filename, data_filename s filetype = Ok filename → P filename) →
  writes_only P (write_data can_write s data filetype).
Proof.
  intros HP. unfold write_data. intros fs p Hp. rewrite io_bind_run.
  destruct (data_filename s filetype) as [filename|e] eqn:Hname; simpl; [|done].
  unfold pickle_dump. destruct (can_write filename); [|done]. simpl.
  apply lookup_insert_ne. intros <-. by apply Hp, HP.
Qed.

(** The files of the stages that [settings.stages] names. *)
Definition stage_file s (p : string) : Prop :=
  ("features" ∈ stages s ∧ p = voyages_filename s) ∨
  ("compression" ∈ stages s ∧ p = compressed_filename s) ∨
  ("dtw" ∈ stages s ∧ p = matrix_filename s) ∨
  ("plotting" ∈ stages s ∧ p = map_filename s).

(** Whether it returns or raises, a run of the stages changes no file but
    those of the stages that the settings name: the voyages file for the
    features, the file of the compressed voyages for the compression, the
    file of the matrix for the comparison and the map for the plotting.  The
    clustering writes nothing, and with no stage named (the default) no
    file is changed. *)
Theorem run_stages_writes_only s name fs p :
  ¬ stage_file s p → (run_stages s name fs).1 !! p = fs !! p.
Proof.
  revert fs p. change (writes_only (stage_file s) (run_stages s name)).
  unfold MainPipeline.run_stages.
  apply writes_only_bind.
  { unfold run_features. case_bool_decide as Hst; [|apply writes_only_ret].
    unfold cf_main. apply writes_only_bind; [apply writes_only_external|]. intros df.
    apply writes_only_bind; [|intros; apply writes_only_ret].
    apply writes_only_write. intros filename [= <-]. left. by split. }
  intros data. apply writes_only_bind.
  { unfold MainPipeline.compress_voyages. case_bool_decide as Hst; [apply writes_only_ret|].
    apply writes_only_bind; [destruct data; (apply writes_only_read || apply writes_only_ret)|].
    intros data'. apply writes_only_bind; [apply writes_only_pure|]. intros compressed.
    apply writes_only_bind; [|intros; apply writes_only_ret].
    apply writes_only_write. intros filename [= <-]. right. left. by split. }
  intros voyage_dict. apply writes_only_bind.
  { unfold compare_voyages. case_bool_decide as Hst; [apply writes_only_ret|].
    apply writes_only_bind;
      [destruct voyage_dict; (apply writes_only_read || apply writes_only_ret)|].
    intros data'. apply writes_only_bind.
    { unfold cc_calc_proximity_matrix. case_decide; [|apply writes_only_ret].
      destruct data'; try apply writes_only_raise; [apply writes_only_external|].
      apply writes_only_bind; [apply writes_only_pure|intros; apply writes_only_ret]. }
    intros proximity. apply writes_only_bind; [|intros; apply writes_only_ret].
    apply writes_only_write. intros filename [= <-]. right. right. left. by split. }
  intros proximity_matrix. apply writes_only_bind.
  { unfold cluster_voyages. case_bool_decide as Hst; [apply writes_only_ret|].
    apply writes_only_bind;
      [destruct voyage_dict; (apply writes_only_read || apply writes_only_ret)|].
    intros vd. apply writes_only_bind;
      [destruct proximity_matrix; (apply writes_only_read || apply writes_only_ret)|].
    intros dm. apply writes_only_bind.
    { unfold DBSCAN_fit. destruct dm; try apply writes_only_raise;
        [apply writes_only_external|apply writes_only_pure]. }
    intros labels. apply writes_only_bind; [apply writes_only_pure|intros; apply writes_only_ret]. }
  intros clusters. apply writes_only_bind; [|intros; apply writes_only_ret].
  unfold make_voyage_maps. case_bool_decide as Hst; [apply writes_only_ret|].
  apply writes_only_bind; [destruct data; (apply writes_only_read || apply writes_only_ret)|].
  intros dataf. apply writes_only_bind; [apply writes_only_external|]. intros map.
  apply writes_only_bind; [|intros; apply writes_only_ret].
  intros fs p Hp. unfold save_map. destruct (can_write (map_filename s)); [|done]. simpl.
  apply lookup_insert_ne. intros <-. apply Hp. right. right. right. by split.
Qed.
End pipeline_facts.

(** ** A rejected configuration *)
Section pipeline_settings_facts.
Context {D : Type} (zero : D) (add : D → D → D) (leb : D → D → bool) (isfinite : D → bool).
Context (gtb : D → D → bool).
Context (pldist : list D → list D → list D → D).
Context (dtw : ndarray D → ndarray D → result D) (cpu_count : Z).
Context {folium_map : Type} (can_write : string → bool).
Context (proximity_of_frame : list (ais_row (D:=D)) → MainPipeline.outcome (MainPipeline.pyval D)).
Context (features : Settings (D:=D) → MainPipeline.outcome (list (ais_row (D:=D)))).
Context (cm_main : Settings (D:=D) → MainPipeline.pyval D → option (list (string * Z))
                   → MainPipeline.outcome folium_map).
Context (fit_frame : D → list (ais_row (D:=D)) → MainPipeline.outcome (list Z)).
Context (frame_columns : list (ais_row (D:=D)) → list string).
Context (ltb : D → D → bool) (path_exists path_isfile path_isdir : string → bool).
Context (normpath : string → string) (now_stamp : string).
Context (default_bbox : D * D * D * D) (default_compression_eps default_clustering_eps : D).

(** A configuration that [run_pipeline] rejects (no [global] table, or
    settings that do not validate) costs no file: the exception is raised
    before anything is read or written. *)
Theorem run_pipeline_rejected_touches_no_file configs name e
    (fs : gmap string (MainPipeline.file D folium_map)) :
  run_pipeline zero ltb path_exists path_isfile path_isdir normpath now_stamp
    default_bbox default_compression_eps default_clustering_eps configs name = Err e →
  MainPipeline.run_pipeline zero add leb isfinite gtb pldist dtw cpu_count can_write
    proximity_of_frame features cm_main fit_frame frame_columns
    ltb path_exists path_isfile path_isdir normpath now_stamp
    default_bbox default_compression_eps default_clustering_eps configs name fs
  = (fs, MainPipeline.Raises (MainPipeline.Raised e)).
Proof.
  unfold run_pipeline, MainPipeline.run_pipeline.
  change (MainPipeline.pure ?r ≫= ?k) with (MainPipeline.io_bind (MainPipeline.pure r) k).
  unfold MainPipeline.io_bind.
  destruct (dict_get configs "global") as [general_options|e0]; cbn [mbind result_bind rbind];
    [|by intros [= <-]].
  simpl.
  destruct (Settings_init _ _ _ _ _ _ _ _ _ _ general_options) as [settings|e1];
    cbn [mbind result_bind rbind]; [done|by intros [= <-]].
Qed.
End pipeline_settings_facts.

(** ** Runs of the pipeline *)
Section pipeline_runs.
Import IntegerRuns MainPipeline PipelineRuns.
Local Open Scope Z_scope.

(** A dictionary written to the file of the compressed voyages. *)
Lemma read_after_write_witness :
  read_data_file (settings_with []) "compressed"
    (<["../output/compressed_voyages_run.pkl" := Pickle (PVoyages corpus4)]> voyages_only)
  = (<["../output/compressed_voyages_run.pkl" := Pickle (PVoyages corpus4)]> voyages_only,
     Returns (PVoyages corpus4)) ∧
  "compressed" ∈ ["voyages"; "compressed"; "proximity"] ∧
  ∃ filename, data_filename (settings_with []) "compressed" = Ok filename ∧
    <["../output/compressed_voyages_run.pkl" := Pickle (PVoyages corpus4)]> voyages_only
    = <[filename := Pickle (PVoyages corpus4)]> voyages_only.
Proof.
  apply (read_after_write (λ _, true) (settings_with []) (PVoyages corpus4) "compressed"
           voyages_only).
  done.
Defined.

(** The default ["name"]: two files lost, and a [ValueError]. *)
Lemma run_stages_closed_guard_witness :
  run_stages_on ["compression"; "dtw"; "clustering"] "name" voyages_only
  = (<["../output/proximity_matrix_run.pkl" := Pickle PNone]>
       (<["../output/compressed_voyages_run.pkl" := Pickle PNone]> voyages_only),
     Raises (Raised ValueError)).
Proof.
  apply (run_stages_closed_guard 0 Z.add Z.leb (λ _, true) Z.gtb doubled_area dtw_l1 4 (λ _, true)
           (λ _, Raises OtherError) (λ _, Raises OtherError) (λ _ _ _, Returns ())
           (λ _ _, Raises OtherError) (λ _, [])
           (settings_with ["compression"; "dtw"; "clustering"]) "name" voyages_only
           three_voyages); try done; apply (bool_decide_unpack _); by vm_compute.
Defined.

(** The compression and the clustering, without the comparison. *)
Lemma run_stages_without_dtw_witness :
  ∃ r, run_stages_on ["compression"; "clustering"] main_name voyages_only
       = (<["../output/compressed_voyages_run.pkl" := Pickle (PVoyages r)]> voyages_only,
          Raises (Raised ValueError)).
Proof.
  apply (run_stages_without_dtw 0 Z.add Z.leb (λ _, true) Z.gtb doubled_area dtw_l1 4 (λ _, true)
           (λ _, Raises OtherError) (λ _, Raises OtherError) (λ _ _ _, Returns ())
           (λ _ _, Raises OtherError) (λ _, [])
           (settings_with ["compression"; "clustering"]) voyages_only three_voyages);
    try done; apply (bool_decide_unpack _); by vm_compute.
Defined.

(** Two voyages and their matrix: refused at the radius 0, both noise at
    the radius 12. *)
Lemma cluster_voyages_from_files_witness :
  cluster_voyages 0 Z.leb (λ _, true) (λ _ _, Raises OtherError) (λ _, [])
    zero_radius_settings PNone PNone two_files = (two_files, Raises (Raised ValueError)) ∧
  ∃ clusters,
    cluster_voyages 0 Z.leb (λ _, true) (λ _ _, Raises OtherError) (λ _, [])
      (settings_with ["clustering"]) PNone PNone two_files
    = (two_files, Returns (Some clusters)) ∧
    dict_keys clusters = take 2 ["v1"; "v2"] ∧
    dict_values clusters
    = take 2 (dbscan_labels Z.leb 12 default_min_samples [[0; 3]; [3; 0]]).
Proof.
  split.
  - apply (cluster_voyages_from_files 0 Z.leb (λ _, true) (λ _ _, Raises OtherError) (λ _, [])
             zero_radius_settings two_files
             [("v1", northbound 0); ("v2", northbound 1)] 2%nat [[0; 3]; [3; 0]]); try done.
    + apply (bool_decide_unpack _). by vm_compute.
    + apply (bool_decide_unpack _). by vm_compute.
    + by left.
  - apply (cluster_voyages_from_files 0 Z.leb (λ _, true) (λ _ _, Raises OtherError) (λ _, [])
             (settings_with ["clustering"]) two_files
             [("v1", northbound 0); ("v2", northbound 1)] 2%nat [[0; 3]; [3; 0]]); try done.
    + apply (bool_decide_unpack _). by vm_compute.
    + apply (bool_decide_unpack _). by vm_compute.
    + repeat constructor.
Defined.

(** The compression alone leaves the voyages file as it was. *)
Lemma run_stages_writes_only_witness :
  (run_stages_on ["compression"] main_name voyages_only).1 !! "../output/reduced_data_run.pkl"
  = voyages_only !! "../output/reduced_data_run.pkl".
Proof.
  apply (run_stages_writes_only 0 Z.add Z.leb (λ _, true) Z.gtb doubled_area dtw_l1 4 (λ _, true)
           (λ _, Raises OtherError) (λ _, Raises OtherError) (λ _ _ _, Returns ())
           (λ _ _, Raises OtherError) (λ _, []) (settings_with ["compression"])).
  unfold stage_file. intros [[H _]|[[_ H]|[[H _]|[H _]]]]; try done.
  all: revert H; apply (bool_decide_unpack _); by vm_compute.
Defined.

(** A negative tolerance: no file is touched. *)
Lemma run_pipeline_rejected_touches_no_file_witness :
  MainPipeline.run_pipeline 0 Z.add Z.leb (λ _, true) Z.gtb doubled_area dtw_l1 4 (λ _, true)
    (λ _, Raises OtherError) (λ _, Raises OtherError) (λ _ _ _, Returns ())
    (λ _ _, Raises OtherError) (λ _, [])
    Z.ltb (λ _, true) (λ _, true) (λ _, true) (λ p, p) "20240101_0000" (9, 56, 25, 66) 0 12
    [("global", global_table (-1) 12)] main_name voyages_only
  = (voyages_only, Raises (Raised ValidationError)).
Proof.
  apply (run_pipeline_rejected_touches_no_file 0 Z.add Z.leb (λ _, true) Z.gtb doubled_area dtw_l1 4
           (λ _, true) (λ _, Raises OtherError) (λ _, Raises OtherError)
           (λ _ _ _, Returns ()) (λ _ _, Raises OtherError) (λ _, [])
           Z.ltb (λ _, true) (λ _, true) (λ _, true) (λ p, p) "20240101_0000"
           (9, 56, 25, 66) 0 12 [("global", global_table (-1) 12)] main_name).
  by vm_compute.
Defined.
End pipeline_runs.

(** ** The settings that the constructor makes *)
Section settings_made.
Context {D : Type} (zero : D) (ltb : D → D → bool).
Context (path_exists path_isfile path_isdir : string → bool).
Context (normpath : string → string) (now_stamp : string).
Context (default_bbox : D * D * D * D) (default_compression_eps default_clustering_eps : D).

Local Abbreviation Settings_init' :=
  (Settings_init zero ltb path_exists path_isfile path_isdir normpath now_stamp
     default_bbox default_compression_eps default_clustering_eps).
Local Abbreviation validate_filename' := (validate_filename path_exists).

(** The fields of the settings made, one by one. *)
Lemma Settings_init_fields o s :
  Settings_init' o = Ok s →
  field (o_ais_data_path o) "../../data/ais2018_chemical_tanker.csv"
    (check_file path_exists path_isfile) = Ok (ais_data_path s) ∧
  field (o_meta_data_path o) "../../data/imo_km_oil.csv"
    (check_file path_exists path_isfile) = Ok (meta_data_path s) ∧
  field (o_output_folder o) "../output" (check_dir path_exists path_isdir normpath)
    = Ok (output_folder s) ∧
  field (o_bbox o) default_bbox (check_bounding_box ltb) = Ok (bbox s) ∧
  field (o_stages o) [] Ok = Ok (stages s) ∧
  field (o_output_suffix o) "timestamp" (make_output now_stamp) = Ok (output_suffix s) ∧
  field (o_compression_eps o) default_compression_eps (check_positive zero ltb)
    = Ok (compression_eps s) ∧
  field (o_clustering_eps o) default_clustering_eps (check_positive zero ltb)
    = Ok (clustering_eps s) ∧
  validate_filename' (output_folder s) (output_suffix s)
    (default "default" (o_voyages_filename o)) "voyages" = Ok (voyages_filename s) ∧
  validate_filename' (output_folder s) (output_suffix s)
    (default "default" (o_compressed_filename o)) "compressed" = Ok (compressed_filename s) ∧
  validate_filename' (output_folder s) (output_suffix s)
    (default "default" (o_matrix_filename o)) "proximity" = Ok (matrix_filename s) ∧
  validate_filename' (output_folder s) (output_suffix s)
    (default "default" (o_map_filename o)) "map" = Ok (map_filename s).
Proof.
  unfold Settings_init.
  match goal with |- as_validation_error ?r = _ → _ => destruct r as [s'|e] eqn:E end;
    simpl; [|done].
  intros [= <-]. revert E.
  intros (ais & Hais & (meta & Hmeta & (out & Hout & (box & Hbox & (eezf & _ &
          (stg & Hstg & (suffix & Hsuffix & (ceps & Hceps & (keps & Hkeps &
          (v & Hv & (c & Hc & (m & Hm & (mp & Hmp & (v' & Hv' & (c' & Hc' & (m' & Hm' &
          (mp' & Hmp' & [= <-])%bind_ok)%bind_ok)%bind_ok)%bind_ok)%bind_ok)%bind_ok)%bind_ok)%bind_ok)%bind_ok)%bind_ok)%bind_ok)%bind_ok)%bind_ok)%bind_ok)%bind_ok)%bind_ok)%bind_ok.
  simpl.
  assert (∀ given x, field given "default" Ok = Ok x → x = default "default" given) as Hdef.
  { intros [given|] x; simpl; by intros [= <-]. }
  apply Hdef in Hv, Hc, Hm, Hmp. subst v c m mp. by repeat split.
Qed.

(** *** The values that have passed a validator *)

(** The settings that the constructor returns hold the values of the
    configuration, validated: a tolerance given is not negative, a bounding
    box given has its west below its east and its south below its north, a
    path given exists (a file for the data, a directory for the output,
    which is kept normalised), and the suffix ["timestamp"] has become the
    time stamp.  A value that the configuration leaves out is the default
    as it stands, which no validator has seen: the default suffix is the
    word ["timestamp"] itself. *)
Theorem Settings_init_validated o s :
  Settings_init zero ltb path_exists path_isfile path_isdir normpath now_stamp
    default_bbox default_compression_eps default_clustering_eps o = Ok s →
  (∀ v, o_compression_eps o = Some v → compression_eps s = v ∧ ltb v zero = false) ∧
  (∀ v, o_clustering_eps o = Some v → clustering_eps s = v ∧ ltb v zero = false) ∧
  (∀ b0 b1 b2 b3, o_bbox o = Some (b0, b1, b2, b3) →
     bbox s = (b0, b1, b2, b3) ∧ ltb b0 b2 = true ∧ ltb b1 b3 = true) ∧
  (∀ p, o_ais_data_path o = Some p →
     ais_data_path s = p ∧ path_exists p = true ∧ path_isfile p = true) ∧
  (∀ p, o_meta_data_path o = Some p →
     meta_data_path s = p ∧ path_exists p = true ∧ path_isfile p = true) ∧
  (∀ p, o_output_folder o = Some p →
     output_folder s = normpath p ∧ path_exists p = true ∧ path_isdir p = true) ∧
  (∀ x, o_output_suffix o = Some x →
     output_suffix s = if decide (x = "timestamp") then now_stamp else x) ∧
  (o_compression_eps o = None → compression_eps s = default_compression_eps) ∧
  (o_clustering_eps o = None → clustering_eps s = default_clustering_eps) ∧
  (o_bbox o = None → bbox s = default_bbox) ∧
  (o_output_folder o = None → output_folder s = "../output") ∧
  (o_output_suffix o = None → output_suffix s = "timestamp") ∧
  stages s = default [] (o_stages o).
Proof.
  intros (Hais & Hmeta & Hout & Hbox & Hstg & Hsuffix & Hceps & Hkeps & _)%Settings_init_fields.
  assert (∀ v x, check_positive zero ltb v = Ok x → x = v ∧ ltb v zero = false) as Hpos.
  { intros v x. unfold check_positive. destruct (ltb v zero); [done|]. by intros [= <-]. }
  assert (∀ p x, check_file path_exists path_isfile p = Ok x →
                 x = p ∧ path_exists p = true ∧ path_isfile p = true) as Hfile.
  { intros p x. unfold check_file, check_path. destruct (path_exists p); [|done].
    cbn [mbind result_bind rbind]. destruct (path_isfile p); [|done]. by intros [= <-]. }
  split_and!.
  - intros v Hv. rewrite Hv in Hceps. by apply Hpos.
  - intros v Hv. rewrite Hv in Hkeps. by apply Hpos.
  - intros b0 b1 b2 b3 Hb. rewrite Hb in Hbox. simpl in Hbox.
    destruct (ltb b0 b2); [|done]. destruct (ltb b1 b3); [|done]. simpl in Hbox.
    by injection Hbox as <-.
  - intros p Hp. rewrite Hp in Hais. by apply Hfile.
  - intros p Hp. rewrite Hp in Hmeta. by apply Hfile.
  - intros p Hp. rewrite Hp in Hout. revert Hout. simpl. unfold check_dir, check_path.
    destruct (path_exists p); [|done]. cbn [mbind result_bind rbind].
    destruct (path_isdir p); [|done]. by intros [= <-].
  - intros x Hx. rewrite Hx in Hsuffix. revert Hsuffix. simpl. unfold make_output.
    case_decide; by intros [= <-].
  - intros Hv. rewrite Hv in Hceps. by injection Hceps as <-.
  - intros Hv. rewrite Hv in Hkeps. by injection Hkeps as <-.
  - intros Hv. rewrite Hv in Hbox. by injection Hbox as <-.
  - intros Hv. rewrite Hv in Hout. by injection Hout as <-.
  - intros Hv. rewrite Hv in Hsuffix. by injection Hsuffix as <-.
  - destruct (o_stages o); by injection Hstg as <-.
Qed.

(** *** The names of the files *)

(** The name that [validate_filename] derives for a file type. *)
Definition derived_filename (s : Settings (D:=D)) (prefix ext : string) : string :=
  output_folder s +:+ "/" +:+ prefix +:+ "_" +:+ output_suffix s +:+ ext.

Lemma validate_filename_default folder suffix filetype name :
  validate_filename' folder suffix "default" filetype = Ok name →
  filetype ∈ ["voyages"; "compressed"; "proximity"; "map"] →
  name = folder +:+ "/" +:+
         (if decide (filetype = "voyages") then "reduced_data"
          else if decide (filetype = "compressed") then "compressed_voyages"
          else if decide (filetype = "proximity") then "proximity_matrix"
          else "voyage_map") +:+ "_" +:+ suffix +:+
         (if decide (filetype = "map") then ".html" else ".pkl").
Proof.
  unfold validate_filename. rewrite decide_False by (by intros []).
  intros Hname Hin. revert Hname.
  repeat (apply elem_of_cons in Hin as [->|Hin]; [simpl; by intros [= <-]|]).
  by apply elem_of_nil in Hin.
Qed.

(** A file name that the configuration gives must be the path of something
    that exists, also for the files that the pipeline writes: otherwise the
    settings are rejected.  A name left out (or given as ["default"]) is
    derived from the output folder and the suffix, and the four derived
    names differ from one another. *)
Theorem Settings_init_filenames o :
  (∀ name, name ≠ "default" → path_exists name = false →
     o_voyages_filename o = Some name ∨ o_compressed_filename o = Some name ∨
     o_matrix_filename o = Some name ∨ o_map_filename o = Some name →
     (Settings_init zero ltb path_exists path_isfile path_isdir normpath now_stamp
       default_bbox default_compression_eps default_clustering_eps o) = Err ValidationError) ∧
  (∀ s, (Settings_init zero ltb path_exists path_isfile path_isdir normpath now_stamp
       default_bbox default_compression_eps default_clustering_eps o) = Ok s →
     default "default" (o_voyages_filename o) = "default" →
     default "default" (o_compressed_filename o) = "default" →
     default "default" (o_matrix_filename o) = "default" →
     default "default" (o_map_filename o) = "default" →
     voyages_filename s = derived_filename s "reduced_data" ".pkl" ∧
     compressed_filename s = derived_filename s "compressed_voyages" ".pkl" ∧
     matrix_filename s = derived_filename s "proximity_matrix" ".pkl" ∧
     map_filename s = derived_filename s "voyage_map" ".html" ∧
     NoDup [voyages_filename s; compressed_filename s; matrix_filename s; map_filename s]).
Proof.
  split.
  - intros name Hname Hmiss Hgiven.
    destruct (Settings_init' o) as [s|e] eqn:E.
    + exfalso. apply Settings_init_fields in E as (_ & _ & _ & _ & _ & _ & _ & _ &
                                                   Hv & Hc & Hm & Hmp).
      assert (∀ folder suffix filetype x,
                validate_filename' folder suffix name filetype = Ok x → False) as Hno.
      { intros folder suffix filetype x. unfold validate_filename.
        rewrite decide_True by done. unfold check_path. by rewrite Hmiss. }
      destruct Hgiven as [H|[H|[H|H]]]; rewrite H in *; simpl in *; by eapply Hno.
    + revert E. unfold Settings_init.
      match goal with |- as_validation_error ?r = _ → _ => by destruct r end.
  - intros s (_ & _ & _ & _ & _ & _ & _ & _ & Hv & Hc & Hm & Hmp)%Settings_init_fields
      Ev Ec Em Emp.
    rewrite Ev in Hv. rewrite Ec in Hc. rewrite Em in Hm. rewrite Emp in Hmp.
    apply validate_filename_default in Hv, Hc, Hm, Hmp;
      try (apply (bool_decide_unpack _); by vm_compute).
    simpl in Hv, Hc, Hm, Hmp. unfold derived_filename.
    split_and!; try done.
    rewrite Hv, Hc, Hm, Hmp.
    assert (∀ a b : string, a ≠ b →
              output_folder s +:+ "/" +:+ a ≠ output_folder s +:+ "/" +:+ b) as Hne.
    { intros a b Hab [= E]%(String.app_inj (output_folder s)). done. }
    repeat (apply NoDup_cons; split;
            [rewrite ?not_elem_of_cons; split_and?; try apply not_elem_of_nil;
             apply Hne; intros E; apply (f_equal (String.get 0)) in E; by vm_compute in E|]).
    apply NoDup_nil_2.
Qed.
End settings_made.

(** ** Settings on integer coordinates *)
Section settings_runs.
Import IntegerRuns.
Local Open Scope Z_scope.

(** A configuration that names no path and no suffix. *)
Lemma Settings_init_validated_witness :
  Settings_init 0 Z.ltb (λ _, true) (λ _, true) (λ _, true) (λ p, p) "20240101_0000"
    (9, 56, 25, 66) 0 12 (global_table 1 12) = Ok made_settings ∧
  compression_eps made_settings = 1 ∧ Z.ltb 1 0 = false ∧
  output_suffix made_settings = "timestamp".
Proof.
  split; [by vm_compute|].
  destruct (Settings_init_validated 0 Z.ltb (λ _, true) (λ _, true) (λ _, true) (λ p, p)
              "20240101_0000" (9, 56, 25, 66) 0 12 (global_table 1 12) made_settings)
    as (Hc & _ & _ & _ & _ & _ & _ & _ & _ & _ & _ & Hs & _); [by vm_compute|].
  destruct (Hc 1 eq_refl) as [H1 H2]. split; [exact H1|]. split; [exact H2|].
  by apply Hs.
Defined.
End settings_runs.

(** ** The extended matrix is the matrix of the extended corpus *)
Section incremental.
Context {D : Type} (zero : D) (add : D → D → D) (leb : D → D → bool) (isfinite : D → bool).
Context (dtw : ndarray D → ndarray D → result D) (cpu_count : Z).
Implicit Types (σ : gmap loc (obj D)) (corpus : list (string * ndarray D)).

Lemma dict_get_app_l {V} (d e : list (string * V)) k :
  k ∈ dict_keys d → dict_get (d ++ e) k = dict_get d k.
Proof.
  induction d as [|[k' v] d IH]; simpl; [by intros ?%elem_of_nil|].
  case_decide; [done|]. intros [?|?]%elem_of_cons; [congruence|by apply IH].
Qed.

Lemma dict_get_app_r {V} (d e : list (string * V)) k :
  k ∉ dict_keys d → dict_get (d ++ e) k = dict_get e k.
Proof.
  induction d as [|[k' v] d IH]; simpl; [done|].
  intros Hk. rewrite decide_False.
  - apply IH. intros ?. apply Hk. by right.
  - intros ->. apply Hk. by left.
Qed.

(** In a dictionary, the voyage at a position is the value at that
    position. *)
Lemma voyage_at_lookup corpus i vi ci :
  NoDup (dict_keys corpus) → corpus !! i = Some (vi, ci) → voyage_at corpus i ci.
Proof.
  intros Hnodup Hi. exists vi. split.
  - unfold dict_keys. by rewrite list_lookup_fmap, Hi.
  - apply dict_get_NoDup; [done|]. by eapply list_elem_of_lookup_2.
Qed.

Lemma voyage_at_app_l corpus extra i ci :
  voyage_at corpus i ci → voyage_at (corpus ++ extra) i ci.
Proof.
  intros (vi & Hvi & Hci). exists vi. split.
  - unfold dict_keys in *. rewrite fmap_app. by apply lookup_app_l_Some.
  - rewrite dict_get_app_l; [done|]. by eapply list_elem_of_lookup_2.
Qed.

Lemma voyage_at_new corpus k b :
  k ∉ dict_keys corpus → voyage_at (corpus ++ [(k, b)]) (length corpus) b.
Proof.
  intros Hk. exists k. split.
  - unfold dict_keys. rewrite fmap_app, lookup_app_r by (by rewrite length_fmap).
    by rewrite length_fmap, Nat.sub_diag.
  - rewrite dict_get_app_r by done. simpl. by rewrite decide_True.
Qed.

(** Two square matrices with the same entries. *)
Lemma square_ext n (A B : ndarray D) :
  square n A → square n B →
  (∀ i j, i < n → j < n → get2 A i j = get2 B i j) → A = B.
Proof.
  intros (ra & -> & Hla & Hwa) (rb & -> & Hlb & Hwb) Hget. f_equal.
  apply list_eq_same_length with n; [done..|].
  intros i x y Hi Hx Hy.
  apply list_eq_same_length with n;
    [by apply (Forall_lookup_1 _ _ _ _ Hwb Hy)|by apply (Forall_lookup_1 _ _ _ _ Hwa Hx)|].
  intros j a b Hj Ha Hb. specialize (Hget i j Hi Hj). simpl in Hget.
  rewrite Hx, Hy in Hget. simpl in Hget. congruence.
Qed.

(** [predict_single_voyage] clusters the matrix extended by the distances
    of the new voyage. *)
Lemma predict_single_voyage_run σ train_voyages distance_matrix new_voyage epsilon
    corpus rows b v :
  corpus_at σ train_voyages = Some corpus →
  σ !! distance_matrix = Some (ONdarray (Arr2 (length corpus) rows)) →
  length rows = length corpus →
  σ !! new_voyage = Some (ONdarray b) →
  rmapM (λ a, dtw a b) (dict_values corpus) = Ok v →
  (predict_single_voyage zero leb isfinite dtw train_voyages distance_matrix new_voyage epsilon σ).2
  = (labels ← DBSCAN_fit_predict zero leb isfinite epsilon
                (Arr2 (S (length corpus)) (expanded_rows zero rows v)) ;
     from_option Ok (Err IndexError) (last labels)).
Proof.
  intros Hcorpus HM Hrows Hb Hv. unfold predict_single_voyage.
  set (n := length corpus) in *.
  assert (length v = n) as Hlen.
  { apply rmapM_length in Hv. unfold dict_values in Hv. by rewrite length_fmap in Hv. }
  set (l0 := fresh (dom σ)). set (σ0 := <[l0 := ONdarray (Arr1 v)]> σ).
  pose proof (calc_extra_distance_run dtw σ train_voyages new_voyage b corpus v Hcorpus Hb Hv)
    as E0.
  fold l0 σ0 in E0.
  destruct (expand_distance_matrix_run zero σ0 distance_matrix l0 n rows v)
    as (σ1 & l1 & E1 & _ & H1); [|done|apply lookup_insert_eq|done|].
  { apply lookup_insert_old; [done|apply alloc_fresh]. }
  rewrite py_bind_run, E0, py_bind_run, E1, py_bind_run.
  unfold fit_predict. rewrite py_bind_run, (load_array_run _ _ _ H1). unfold lift.
  by destruct (DBSCAN_fit_predict _ _ _ _ _).
Qed.

(** The incremental classifier agrees with a computation from scratch:
    when the training matrix is the one that [calc_proximity_matrix] makes
    of the training corpus, the matrix that [predict_single_voyage]
    clusters is the matrix that [calc_proximity_matrix] makes of the corpus
    with the new voyage added at its end, and the label returned is the
    label of the new voyage in the clustering of that matrix.  The
    distances are taken as [dtw] returns them ([d + 0.0] is [d]). *)
Theorem predict_single_voyage_recomputes σ train_voyages distance_matrix new_voyage epsilon
    corpus M k b M' :
  (Z.of_nat (S (length corpus)) * Z.of_nat (S (length corpus)) ≤ 2 ^ 53)%Z →
  add zero zero = zero →
  (∀ a c d, dtw a c = Ok d → add d zero = d ∧ add zero d = d) →
  NoDup (dict_keys corpus) → k ∉ dict_keys corpus →
  corpus_at σ train_voyages = Some corpus →
  σ !! distance_matrix = Some (ONdarray M) →
  σ !! new_voyage = Some (ONdarray b) →
  calc_proximity_matrix zero add dtw cpu_count corpus main_name = Ok (Some M) →
  calc_proximity_matrix zero add dtw cpu_count (corpus ++ [(k, b)]) main_name = Ok (Some M') →
  (predict_single_voyage zero leb isfinite dtw train_voyages distance_matrix new_voyage epsilon σ).2
  = (labels ← DBSCAN_fit_predict zero leb isfinite epsilon M' ;
     from_option Ok (Err IndexError) (last labels)).
Proof.
  intros Hsize Hzero Hadd Hnodup Hk Hcorpus HM Hb Hcalc Hcalc'.
  set (n := length corpus) in *.
  assert (length (corpus ++ [(k, b)]) = S n) as Hlen'.
  { rewrite length_app. simpl. unfold n. lia. }
  assert (Z.of_nat n * Z.of_nat n ≤ 2 ^ 53)%Z as Hsize0 by nia.
  assert (Z.of_nat (length (corpus ++ [(k, b)])) * Z.of_nat (length (corpus ++ [(k, b)]))
          ≤ 2 ^ 53)%Z as Hsize1 by (by rewrite Hlen').
  pose proof (calc_proximity_matrix_square zero add dtw cpu_count _ _ _ Hcalc) as Hsq.
  pose proof (calc_proximity_matrix_square zero add dtw cpu_count _ _ _ Hcalc') as Hsq'.
  rewrite Hlen' in Hsq'. fold n in Hsq.
  (* the voyages of the corpus, by position *)
  assert (∀ i, i < n → ∃ ci, dict_values corpus !! i = Some ci ∧ voyage_at corpus i ci)
    as Hvoyage.
  { intros i Hi. destruct (lookup_lt_is_Some_2 corpus i Hi) as [[vi ci] Hvi].
    exists ci. split; [unfold dict_values; by rewrite list_lookup_fmap, Hvi|].
    by eapply voyage_at_lookup. }
  (* the distances of the new voyage *)
  assert (∀ i ci, dict_values corpus !! i = Some ci →
            ∃ d, dtw ci b = Ok d ∧ get2 M' i n = Some d ∧ get2 M' n i = Some d) as Hnew.
  { intros i ci Hci.
    assert (i < n) as Hi.
    { apply lookup_lt_Some in Hci. unfold dict_values in Hci. by rewrite length_fmap in Hci. }
    destruct (Hvoyage i Hi) as (ci' & Hci' & Hat). rewrite Hci in Hci'. injection Hci' as <-.
    destruct (proximity_entry zero add dtw cpu_count (corpus ++ [(k, b)]) Hsize1 M' i n ci b)
      as (d & Hd & H1 & H2); [done|lia|by apply voyage_at_app_l|by apply voyage_at_new|].
    destruct (Hadd _ _ _ Hd) as [E1 E2]. rewrite E1 in H1. rewrite E2 in H2. by exists d. }
  assert (∃ v, rmapM (λ a, dtw a b) (dict_values corpus) = Ok v) as [v Hv].
  { apply rmapM_total. apply Forall_lookup_2. intros i ci Hci.
    destruct (Hnew i ci Hci) as (d & Hd & _). by exists d. }
  assert (length v = n) as Hlenv.
  { apply rmapM_length in Hv. unfold dict_values in Hv. by rewrite length_fmap in Hv. }
  assert (∀ i x, v !! i = Some x → get2 M' i n = Some x ∧ get2 M' n i = Some x) as Hv'.
  { intros i x Hx. destruct (rmapM_lookup _ _ _ _ _ Hv Hx) as (ci & Hci & Hd).
    destruct (Hnew i ci Hci) as (d & Hd' & H1 & H2). by assert (x = d) as -> by congruence. }
  destruct Hsq as (rows & -> & Hlen & Hwf).
  rewrite (predict_single_voyage_run σ train_voyages distance_matrix new_voyage epsilon
             corpus rows b v) by done.
  fold n.
  assert (Arr2 (S n) (expanded_rows zero rows v) = M') as ->; [|done].
  apply (square_ext (S n)); [|done|].
  { eexists. split; [done|].
    split; [by apply expanded_rows_length|by apply expanded_rows_wf]. }
  intros i j Hi Hj.
  destruct (decide (i = n)) as [->|Hin].
  - (* the new row *)
    simpl. rewrite (expanded_rows_new zero n rows v) by done. simpl.
    destruct (decide (j = n)) as [->|Hjn].
    + rewrite lookup_app_r by lia. rewrite Hlenv, Nat.sub_diag. simpl.
      rewrite (proximity_diagonal zero add dtw cpu_count (corpus ++ [(k, b)]) Hsize1 M' n)
        by (done || lia).
      by rewrite Hzero.
    + rewrite lookup_app_l by lia.
      destruct (lookup_lt_is_Some_2 v j) as [x Hx]; [lia|].
      rewrite Hx. symmetry. by apply Hv'.
  - (* a row of the training matrix *)
    destruct (lookup_lt_is_Some_2 rows i) as [r Hr]; [lia|].
    destruct (lookup_lt_is_Some_2 v i) as [x Hx]; [lia|].
    pose proof (Forall_lookup_1 _ _ _ _ Hwf Hr) as Hlr. simpl in Hlr.
    simpl. rewrite (expanded_rows_old zero n rows v i r x) by done. simpl.
    destruct (decide (j = n)) as [->|Hjn].
    + rewrite lookup_app_r by lia. rewrite Hlr, Nat.sub_diag. simpl.
      symmetry. by apply Hv'.
    + rewrite lookup_app_l by lia.
      change (r !! j) with (Some r ≫= λ r, r !! j). rewrite <- Hr.
      change (rows !! i ≫= λ r, r !! j) with (get2 (Arr2 n rows) i j).
      destruct (Hvoyage i) as (ci & _ & Hci); [lia|].
      destruct (Hvoyage j) as (cj & _ & Hcj); [lia|].
      destruct (Nat.lt_total i j) as [Hlt|[->|Hgt]].
      * destruct (proximity_entry zero add dtw cpu_count corpus Hsize0 _ i j ci cj Hcalc)
          as (d & Hd & -> & _); [lia|done|done|].
        destruct (proximity_entry zero add dtw cpu_count (corpus ++ [(k, b)]) Hsize1
                    M' i j ci cj) as (d' & Hd' & -> & _);
          [done|lia|by apply voyage_at_app_l|by apply voyage_at_app_l|]. congruence.
      * rewrite (proximity_diagonal zero add dtw cpu_count corpus Hsize0 _ j Hcalc) by lia.
        by rewrite (proximity_diagonal zero add dtw cpu_count (corpus ++ [(k, b)]) Hsize1 M' j)
          by (done || lia).
      * destruct (proximity_entry zero add dtw cpu_count corpus Hsize0 _ j i cj ci Hcalc)
          as (d & Hd & _ & ->); [lia|done|done|].
        destruct (proximity_entry zero add dtw cpu_count (corpus ++ [(k, b)]) Hsize1
                    M' j i cj ci) as (d' & Hd' & _ & ->);
          [done|lia|by apply voyage_at_app_l|by apply voyage_at_app_l|]. congruence.
Qed.
End incremental.

(** ** A third voyage added to two *)
Section incremental_runs.
Import IntegerRuns.
Local Open Scope Z_scope.

Lemma predict_single_voyage_recomputes_witness :
  (predict_single_voyage 0 Z.leb (λ _, true) dtw_l1 3%positive 4%positive 5%positive 12 two_trained).2
  = (labels ← DBSCAN_fit_predict 0 Z.leb (λ _, true) 12 (Arr2 3 [[0; 3; 9]; [3; 0; 6]; [9; 6; 0]]) ;
     from_option Ok (Err IndexError) (last labels)).
Proof.
  apply (predict_single_voyage_recomputes 0 Z.add Z.leb (λ _, true) dtw_l1 4 two_trained
           3%positive 4%positive 5%positive 12
           [("a", northbound 0); ("b", northbound 1)] (Arr2 2 [[0; 3]; [3; 0]])
           "new" (northbound 3)).
  - by vm_compute.
  - done.
  - intros a c d _. lia.
  - apply (bool_decide_unpack _). by vm_compute.
  - apply (bool_decide_unpack _). by vm_compute.
  - by vm_compute.
  - by vm_compute.
  - by vm_compute.
  - by vm_compute.
  - by vm_compute.
Defined.
End incremental_runs.

(** ** A run of the pipeline that returns *)
Section compress_main.
Context {D : Type} (pldist : list D → list D → list D → D) (gtb : D → D → bool).
Context (cpu_count : Z).

Lemma cc_compress_voyages_main df epsilon v :
  MainPipeline.cc_compress_voyages gtb pldist cpu_count (MainPipeline.PFrame df)
    epsilon main_name = Ok v →
  ∃ r, v = MainPipeline.PVoyages r.
Proof.
  unfold MainPipeline.cc_compress_voyages, compress_voyages.
  rewrite decide_True by done.
  destruct (mp_Pool _); cbn [mbind result_bind rbind from_option]; [|done].
  intros [= <-]. by eexists.
Qed.
End compress_main.

Section pipeline_returns.
Import MainPipeline.
Context {D : Type} (zero : D) (add : D → D → D) (leb : D → D → bool) (isfinite : D → bool).
Context (gtb : D → D → bool).
Context (pldist : list D → list D → list D → D).
Context (dtw : ndarray D → ndarray D → result D) (cpu_count : Z).
Context {folium_map : Type} (can_write : string → bool).
Context (proximity_of_frame : list (ais_row (D:=D)) → outcome (pyval D)).
Context (features : Settings (D:=D) → outcome (list (ais_row (D:=D)))).
Context (cm_main : Settings (D:=D) → pyval D → option (list (string * Z)) → outcome folium_map).
Context (fit_frame : D → list (ais_row (D:=D)) → outcome (list Z)).
Context (frame_columns : list (ais_row (D:=D)) → list string).
Implicit Types (fs : gmap string (file D folium_map)) (s : Settings (D:=D)).

Local Abbreviation run_stages :=
  (MainPipeline.run_stages zero add leb isfinite gtb pldist dtw cpu_count can_write
     proximity_of_frame features cm_main fit_frame frame_columns).

Lemma io_bind_returns {A B} (m : io D folium_map A) (k : A → io D folium_map B) fs fs' b :
  (m ≫= k) fs = (fs', Returns b) ↔
  ∃ fs1 a, m fs = (fs1, Returns a) ∧ k a fs1 = (fs', Returns b).
Proof.
  rewrite io_bind_run. destruct (m fs) as [fs1 [a|e]]; split.
  - intros Hk. by exists fs1, a.
  - by intros (? & ? & [= <- <-] & ?).
  - done.
  - by intros (? & ? & [= _ ?] & _).
Qed.

Lemma pure_returns {A} (r : result A) fs fs' a :
  pure r fs = (fs', Returns a : outcome A) ↔ fs' = fs ∧ r = Ok a.
Proof.
  destruct r as [a'|e]; simpl; unfold io_ret, raise; split;
    (intros [= <- <-] || intros [-> [= <-]] || intros [= ] || intros [_ [=]]); done.
Qed.

Lemma write_data_returns s data filetype fs fs' :
  write_data can_write s data filetype fs = (fs', Returns ()) →
  ∃ filename, data_filename s filetype = Ok filename ∧ fs' = <[filename := Pickle data]> fs.
Proof.
  unfold write_data. intros (fs1 & filename & [-> Hname]%pure_returns & Hdump)%io_bind_returns.
  exists filename. split; [done|]. revert Hdump. unfold pickle_dump.
  destruct (can_write filename); by intros [= <-].
Qed.

(** When a run of the compression and the comparison under ["__main__"]
    returns, the file of the compressed voyages holds the dictionary that
    [cc.compress_voyages] made of the frame of the voyages file, the file
    of the matrix holds the matrix that [cc.calc_proximity_matrix] made of
    that dictionary, with one row and one column per voyage of it, and no
    other file has changed. *)
Theorem run_stages_main_files s fs fs' df :
  "features" ∉ stages s → "compression" ∈ stages s → "dtw" ∈ stages s →
  "plotting" ∉ stages s →
  fs !! voyages_filename s = Some (Pickle (PFrame df)) →
  run_stages s main_name fs = (fs', Returns ()) →
  ∃ r M,
    cc_compress_voyages gtb pldist cpu_count (PFrame df) (compression_eps s) main_name
    = Ok (PVoyages r) ∧
    calc_proximity_matrix zero add dtw cpu_count r main_name = Ok (Some M) ∧
    shape M = [length r; length r] ∧
    fs' = <[matrix_filename s := Pickle (PMatrix M)]>
            (<[compressed_filename s := Pickle (PVoyages r)]> fs).
Proof.
  intros Hfeat Hcomp Hdtw Hplot Hfile. unfold MainPipeline.run_stages.
  intros (fs0 & data & Hdata & (fs1 & voyage_dict & Hvd & (fs2 & proximity & Hprox &
          (fs3 & clusters & Hclu & (fs4 & map & Hmap & Hret)%io_bind_returns)%io_bind_returns)%io_bind_returns)%io_bind_returns)%io_bind_returns.
  (* run_features *)
  revert Hdata. unfold run_features. rewrite bool_decide_false by done. intros [= <- <-].
  (* compress_voyages *)
  revert Hvd. unfold MainPipeline.compress_voyages at 1.
  rewrite bool_decide_false by (by intros []).
  rewrite io_bind_returns.
  intros (? & data & Hread & (? & compressed & [-> Hcompressed]%pure_returns &
          (? & [] & (f1 & Hf1 & ->)%write_data_returns & [= <- <-])%io_bind_returns)%io_bind_returns).
  rewrite (read_data_file_run s "voyages" _ fs (PFrame df)) in Hread by done.
  injection Hread as <- <-. injection Hf1 as <-.
  destruct (cc_compress_voyages_main _ _ _ _ _ _ Hcompressed) as [r ->].
  (* compare_voyages *)
  revert Hprox. unfold compare_voyages at 1. rewrite bool_decide_false by (by intros []).
  rewrite io_bind_returns.
  intros (? & data & [= <- <-] & (? & prox & Hcalc &
          (? & [] & (f2 & Hf2 & ->)%write_data_returns & [= <- <-])%io_bind_returns)%io_bind_returns).
  injection Hf2 as <-.
  revert Hcalc. unfold cc_calc_proximity_matrix. rewrite decide_True by done.
  intros (? & m & [-> Hm]%pure_returns & [= <- <-])%io_bind_returns.
  destruct m as [M|].
  2:{ exfalso. revert Hm. unfold calc_proximity_matrix. rewrite decide_True by done.
      intros (? & _ & (? & _ & (? & _ & (? & _ & (? & _ & (? & _ & [=])%bind_ok)%bind_ok)%bind_ok)%bind_ok)%bind_ok)%bind_ok. }
  exists r, M. split; [done|]. split; [done|]. split.
  { destruct (calc_proximity_matrix_square zero add dtw cpu_count _ _ _ Hm)
      as (rows & -> & Hlen & _). simpl. by rewrite Hlen. }
  (* cluster_voyages and make_voyage_maps write nothing *)
  assert (fs3 = <[matrix_filename s := Pickle (PMatrix M)]>
                  (<[compressed_filename s := Pickle (PVoyages r)]> fs)) as ->.
  { revert Hclu. unfold cluster_voyages. case_bool_decide; [by intros [= <-]|].
    cbn [from_option].
    intros (? & vd & [= <- <-] & (? & dm & [= <- <-] & (? & labels & Hfit &
            (? & keys & [-> _]%pure_returns & [= <- _])%io_bind_returns)%io_bind_returns)%io_bind_returns)%io_bind_returns.
    revert Hfit. unfold DBSCAN_fit. by intros [-> _]%pure_returns. }
  revert Hmap. unfold make_voyage_maps. rewrite bool_decide_true by done.
  intros [= <- _]. by injection Hret as <-.
Qed.
End pipeline_returns.

(** ** The run of three stages on the frame of three voyages *)
Section pipeline_returns_runs.
Import IntegerRuns MainPipeline PipelineRuns.
Local Open Scope Z_scope.

Lemma run_stages_main_files_witness :
  ∃ r M,
    cc_compress_voyages Z.gtb doubled_area 4 (PFrame three_voyages) 1 main_name
    = Ok (PVoyages r) ∧
    calc_proximity_matrix 0 Z.add dtw_l1 4 r main_name = Ok (Some M) ∧
    shape M = [length r; length r] ∧
    <["../output/proximity_matrix_run.pkl" := Pickle (PMatrix (Arr2 2 [[0; 26]; [26; 0]]))]>
      (<["../output/compressed_voyages_run.pkl" :=
           Pickle (PVoyages [("v1", Arr2 2 [[5; 5]; [6; 6]]);
                             ("v2", Arr2 2 [[0; 0]; [1; 3]; [2; 0]])])]> voyages_only)
    = <[matrix_filename (settings_with ["compression"; "dtw"; "clustering"]) :=
          Pickle (PMatrix M)]>
        (<[compressed_filename (settings_with ["compression"; "dtw"; "clustering"]) :=
             Pickle (PVoyages r)]> voyages_only).
Proof.
  apply (run_stages_main_files 0 Z.add Z.leb (λ _, true) Z.gtb doubled_area dtw_l1 4 (λ _, true)
           (λ _, Raises OtherError) (λ _, Raises OtherError) (λ _ _ _, Returns ())
           (λ _ _, Raises OtherError) (λ _, [])
           (settings_with ["compression"; "dtw"; "clustering"]) voyages_only _ three_voyages).
  - apply (bool_decide_unpack _). by vm_compute.
  - apply (bool_decide_unpack _). by vm_compute.
  - apply (bool_decide_unpack _). by vm_compute.
  - apply (bool_decide_unpack _). by vm_compute.
  - done.
  - by vm_compute.
Defined.
End pipeline_returns_runs.

(** ** The order of the voyages *)
Section voyage_order.
Context {D : Type} (pldist : list D → list D → list D → D) (gtb : D → D → bool).
Context (cpu_count : Z).
Implicit Types (data df : list (ais_row (D:=D))).

(** The order of [groupby]: strings compared character by character. *)
Definition string_le (a b : string) : Prop := Is_true (String.leb a b).

Global Instance string_le_total : Total string_le.
Proof.
  intros a b. unfold string_le. destruct (String.leb_total a b) as [->| ->]; [by left|by right].
Qed.

Global Instance string_le_trans : Transitive string_le.
Proof.
  intros a b c. unfold string_le, String.leb.
  destruct (String.compare a b) eqn:Hab; [|  |done].
  - apply OrderedTypeEx.String_as_OT.cmp_eq in Hab as ->. done.
  - destruct (String.compare b c) eqn:Hbc; [| |done].
    + apply OrderedTypeEx.String_as_OT.cmp_eq in Hbc as ->. by rewrite Hab.
    + intros _ _.
      apply OrderedTypeEx.String_as_OT.cmp_lt in Hab, Hbc.
      pose proof (OrderedTypeEx.String_as_OT.lt_trans _ _ _ Hab Hbc) as Hac.
      apply OrderedTypeEx.String_as_OT.cmp_lt in Hac.
      unfold OrderedTypeEx.String_as_OT.cmp in Hac. by rewrite Hac.
Qed.

Lemma voyage_keys_sorted data : StronglySorted string_le (voyage_keys data).
Proof. unfold voyage_keys. apply (StronglySorted_merge_sort string_le). Qed.

Lemma StronglySorted_sublist {A} (R : relation A) (l k : list A) :
  l `sublist_of` k → StronglySorted R k → StronglySorted R l.
Proof.
  induction 1 as [|x l k Hlk IH|x l k Hlk IH]; [done| |].
  - intros [Hk Hx]%StronglySorted_inv. constructor; [by apply IH|].
    rewrite Forall_forall in Hx |- *. intros y Hy. apply Hx. by eapply elem_of_sublist.
  - intros [Hk _]%StronglySorted_inv. by apply IH.
Qed.

Lemma extract_coords_keys data : dict_keys (extract_coords data) = voyage_keys data.
Proof.
  unfold extract_coords, groupby_voyage_id. fold (voyage_keys data).
  rewrite <- list_fmap_compose.
  rewrite dict_of_items_NoDup_id.
  - unfold dict_keys. rewrite <- list_fmap_compose.
    rewrite (list_fmap_ext _ id (voyage_keys data)) by done. apply list_fmap_id.
  - rewrite <- list_fmap_compose.
    rewrite (list_fmap_ext _ id (voyage_keys data)) by done.
    rewrite list_fmap_id. apply voyage_keys_NoDup.
Qed.

(** The voyages come in the order of their ids, as [groupby] sorts its
    groups: the keys of the dictionary that [compress_voyages] returns are
    in ascending order, and so are those of [extract_coords]; the first are
    picked out of the second in that order, so that the rows of a distance
    matrix made of either dictionary follow the order of the voyage ids. *)
Theorem compress_voyages_sorted df epsilon name r :
  compress_voyages pldist gtb cpu_count df epsilon name = Ok (Some r) →
  StronglySorted string_le (dict_keys r) ∧
  StronglySorted string_le (dict_keys (extract_coords df)) ∧
  dict_keys r `sublist_of` dict_keys (extract_coords df).
Proof.
  intros Hr. rewrite extract_coords_keys.
  assert (r = kept_voyages pldist gtb df epsilon) as ->.
  { assert (name = main_name ∧ (2 ≤ cpu_count)%Z) as [-> Hcpu].
    { revert Hr. unfold compress_voyages. case_decide; [|done].
      unfold mp_Pool. case_bool_decide; [done|]. intros _. split; [done|lia]. }
    rewrite compress_voyages_items in Hr by done. by injection Hr as <-. }
  split_and!.
  - eapply StronglySorted_sublist; [apply kept_voyages_keys|apply voyage_keys_sorted].
  - apply voyage_keys_sorted.
  - apply kept_voyages_keys.
Qed.
End voyage_order.

Section voyage_order_runs.
Import IntegerRuns.
Local Open Scope Z_scope.

Lemma compress_voyages_sorted_witness :
  StronglySorted string_le
    (dict_keys [("v1", Arr2 2 [[5; 5]; [6; 6]]); ("v2", Arr2 2 [[0; 0]; [1; 3]; [2; 0]])]) ∧
  StronglySorted string_le (dict_keys (extract_coords three_voyages)) ∧
  dict_keys [("v1", Arr2 2 [[5; 5]; [6; 6]]); ("v2", Arr2 2 [[0; 0]; [1; 3]; [2; 0]])]
    `sublist_of` dict_keys (extract_coords three_voyages).
Proof.
  apply (compress_voyages_sorted doubled_area Z.gtb 4 three_voyages 1 main_name).
  by vm_compute.
Defined.
End voyage_order_runs.

(** ** Voyages of a single row *)
Section short_voyages.
Context {D : Type} (zero : D) (add : D → D → D).
Context (pldist : list D → list D → list D → D) (gtb : D → D → bool).
Context (dtw : ndarray D → ndarray D → result D) (cpu_count : Z).

Lemma kept_voyages_none (df : list (ais_row (D:=D))) epsilon :
  (∀ vid, length (filter (λ row, voyage_id row = vid) df) ≤ 1) →
  kept_voyages pldist gtb df epsilon = [].
Proof.
  intros Hshort. apply elem_of_nil_inv. intros [vid a] [_ Hrows]%elem_of_kept_voyages.
  specialize (Hshort vid). lia.
Qed.

Lemma calc_proximity_matrix_empty :
  (1 ≤ cpu_count)%Z →
  calc_proximity_matrix zero add dtw cpu_count [] main_name = Ok (Some (Arr2 0 [])).
Proof.
  intros Hcpu. unfold calc_proximity_matrix. rewrite decide_True by done.
  cbn. unfold mp_Pool. rewrite bool_decide_false by lia. done.
Qed.
End short_voyages.

Section short_voyages_pipeline.
Import MainPipeline.
Context {D : Type} (zero : D) (add : D → D → D) (leb : D → D → bool) (isfinite : D → bool).
Context (gtb : D → D → bool).
Context (pldist : list D → list D → list D → D).
Context (dtw : ndarray D → ndarray D → result D) (cpu_count : Z).
Context {folium_map : Type} (can_write : string → bool).
Context (proximity_of_frame : list (ais_row (D:=D)) → outcome (pyval D)).
Context (features : Settings (D:=D) → outcome (list (ais_row (D:=D)))).
Context (cm_main : Settings (D:=D) → pyval D → option (list (string * Z)) → outcome folium_map).
Context (fit_frame : D → list (ais_row (D:=D)) → outcome (list Z)).
Context (frame_columns : list (ais_row (D:=D)) → list string).
Implicit Types (fs : gmap string (file D folium_map)) (s : Settings (D:=D)).

Local Abbreviation run_stages :=
  (MainPipeline.run_stages zero add leb isfinite gtb pldist dtw cpu_count can_write
     proximity_of_frame features cm_main fit_frame frame_columns).

(** When no voyage of the voyages file has two rows or more (an empty
    frame among them), a run of the compression, the comparison and the
    clustering under ["__main__"] writes an empty dictionary of voyages
    and a matrix of no row to their files, and then fails in the
    clustering with a [ValueError]: the clusterer refuses a matrix
    without a sample. *)
Theorem run_stages_single_rows s fs df :
  "features" ∉ stages s → "compression" ∈ stages s → "dtw" ∈ stages s →
  "clustering" ∈ stages s →
  fs !! voyages_filename s = Some (Pickle (PFrame df)) →
  (∀ vid, length (filter (λ row, voyage_id row = vid) df) ≤ 1) →
  (2 ≤ cpu_count)%Z →
  can_write (compressed_filename s) = true → can_write (matrix_filename s) = true →
  run_stages s main_name fs
  = (<[matrix_filename s := Pickle (PMatrix (Arr2 0 []))]>
       (<[compressed_filename s := Pickle (PVoyages [])]> fs),
     Raises (Raised ValueError)).
Proof.
  intros Hfeat Hcomp Hdtw Hclu Hfile Hshort Hcpu Hw1 Hw2. unfold MainPipeline.run_stages.
  (* run_features *)
  rewrite io_bind_run. unfold run_features. rewrite bool_decide_false by done.
  cbn [mret io_mret io_ret].
  (* compress_voyages *)
  rewrite io_bind_run. unfold MainPipeline.compress_voyages at 1.
  rewrite bool_decide_false by (by intros []).
  rewrite io_bind_run, (read_data_file_run s "voyages" _ fs (PFrame df)) by done.
  rewrite io_bind_run. unfold cc_compress_voyages.
  rewrite compress_voyages_items, kept_voyages_none by done.
  cbn [mbind result_bind rbind from_option pure io_ret].
  rewrite io_bind_run, (write_data_run can_write s _ "compressed" (compressed_filename s)) by done.
  cbn [mret io_mret io_ret].
  (* compare_voyages *)
  rewrite io_bind_run. unfold compare_voyages at 1.
  rewrite bool_decide_false by (by intros []).
  rewrite io_bind_run. cbn [mret io_mret io_ret].
  rewrite io_bind_run. unfold cc_calc_proximity_matrix. rewrite decide_True by done.
  rewrite io_bind_run, calc_proximity_matrix_empty by lia.
  cbn [from_option pure mret io_mret io_ret].
  rewrite io_bind_run, (write_data_run can_write s _ "proximity" (matrix_filename s)) by done.
  cbn [mret io_mret io_ret].
  (* cluster_voyages *)
  rewrite io_bind_run. unfold cluster_voyages at 1.
  rewrite bool_decide_false by (by intros []).
  rewrite io_bind_run. cbn [mret io_mret io_ret]. rewrite io_bind_run.
  cbn [mret io_mret io_ret]. rewrite io_bind_run. unfold DBSCAN_fit.
  by rewrite DBSCAN_fit_predict_no_sample.
Qed.
End short_voyages_pipeline.

Section short_voyages_runs.
Import IntegerRuns MainPipeline PipelineRuns.
Local Open Scope Z_scope.

Lemma run_stages_single_rows_witness :
  MainPipeline.run_stages 0 Z.add Z.leb (λ _, true) Z.gtb doubled_area dtw_l1 4 (λ _, true)
    (λ _, Raises OtherError) (λ _, Raises OtherError) (λ _ _ _, Returns ())
    (λ _ _, Raises OtherError) (λ _, [])
    (settings_with ["compression"; "dtw"; "clustering"]) main_name
    (<["../output/reduced_data_run.pkl" := Pickle (PFrame single_rows)]> ∅)
  = (<[matrix_filename (settings_with ["compression"; "dtw"; "clustering"]) :=
         Pickle (PMatrix (Arr2 0 []))]>
       (<[compressed_filename (settings_with ["compression"; "dtw"; "clustering"]) :=
            Pickle (PVoyages [])]>
          (<["../output/reduced_data_run.pkl" := Pickle (PFrame single_rows)]> ∅)),
     Raises (Raised ValueError)).
Proof.
  apply (run_stages_single_rows 0 Z.add Z.leb (λ _, true) Z.gtb doubled_area dtw_l1 4 (λ _, true)
           (λ _, Raises OtherError) (λ _, Raises OtherError) (λ _ _ _, Returns ())
           (λ _ _, Raises OtherError) (λ _, [])
           (settings_with ["compression"; "dtw"; "clustering"])
           (<["../output/reduced_data_run.pkl" := Pickle (PFrame single_rows)]> ∅)
           single_rows).
  - apply (bool_decide_unpack _). by vm_compute.
  - apply (bool_decide_unpack _). by vm_compute.
  - apply (bool_decide_unpack _). by vm_compute.
  - apply (bool_decide_unpack _). by vm_compute.
  - done.
  - intros vid. unfold single_rows. rewrite !filter_cons, filter_nil. cbn [voyage_id].
    repeat case_decide; simplify_eq; simpl; lia.
  - lia.
  - done.
  - done.
Defined.
End short_voyages_runs.
